(** * Cloud Media Platform API: a shallow embedding of the media pipeline

    The development follows the Python sources module by module:
    - [models.py]       the documents and the response-model validation,
    - [database.py]     [CosmosDBClient]: point reads, queries, pagination,
    - [routes_media.py] upload, list, search, get, update and delete handlers,
    - [routes_auth.py]  registration and login.

    Handlers are written in a state-and-exception monad over a [World] that
    holds the two Cosmos containers, the blob container, the log, the clock
    read by [datetime.utcnow] and the counter behind [uuid.uuid4].  A raised
    exception keeps the state reached so far, as in Python. *)

From Stdlib Require Import List String Ascii Bool Arith ZArith Lia.
From Stdlib Require Import Permutation Sorted.
Import ListNotations.
Open Scope string_scope.


(** ** Strings *)

Module Str.

(** ASCII lower-casing, the action of SQL [LOWER] on the strings modelled
    here (byte strings; only the letters A-Z change). *)
Definition lower_ascii (c : ascii) : ascii :=
  let n := nat_of_ascii c in
  if andb (Nat.leb 65 n) (Nat.leb n 90) then ascii_of_nat (n + 32) else c.

Fixpoint lower (s : string) : string :=
  match s with
  | EmptyString => EmptyString
  | String c r => String (lower_ascii c) (lower r)
  end.

(** [contains s t]: [t] occurs in [s] as a contiguous substring. *)
Fixpoint contains (s t : string) : bool :=
  if String.prefix t s then true
  else match s with
       | EmptyString => false
       | String _ r => contains r t
       end.

(** Python's [str.replace(old, new)]: every non-overlapping occurrence of
    [old], scanning from the left.  For an empty [old] Python inserts [new]
    before every character and at the end. *)
Fixpoint replace_nonempty (old new s : string) (skip : nat) : string :=
  match skip with
  | S k =>
      match s with
      | EmptyString => EmptyString
      | String _ r => replace_nonempty old new r k
      end
  | O =>
      match s with
      | EmptyString => EmptyString
      | String c r =>
          if String.prefix old s
          then new ++ replace_nonempty old new r (String.length old - 1)
          else String c (replace_nonempty old new r 0)
      end
  end.

Fixpoint intersperse (new s : string) : string :=
  match s with
  | EmptyString => new
  | String c r => new ++ String c (intersperse new r)
  end.

Definition replace (s old new : string) : string :=
  match old with
  | EmptyString => intersperse new s
  | _ => replace_nonempty old new s 0
  end.

Fixpoint mem (c : ascii) (s : string) : bool :=
  match s with
  | EmptyString => false
  | String d r => orb (Ascii.eqb d c) (mem c r)
  end.

(** The last component of [s.split(sep)] for a one-character separator. *)
Fixpoint last_component (sep : ascii) (s : string) : string :=
  match s with
  | EmptyString => EmptyString
  | String c r =>
      if mem sep r
      then last_component sep r
      else if Ascii.eqb c sep then r else s
  end.

End Str.

(** ** JSON values and [json.loads] *)

(** The double-quote character, code 34. *)
Abbreviation dquote := (Ascii false true false false false true false false).

(** [s] between double quotes. *)
Definition quoted (s : string) : string :=
  String dquote (s ++ String dquote EmptyString).

#[local] Set Warnings "-register-all".

Inductive JSON : Type :=
| JNull
| JBool (b : bool)
| JNum (literal : string)
| JStr (s : string)
| JArr (items : list JSON)
| JObj (members : list (string * JSON)).

(** [isinstance(v, list)] on a decoded JSON value. *)
Definition is_list (v : JSON) : bool :=
  match v with JArr _ => true | _ => false end.

Module Json.

Definition is_ws (c : ascii) : bool :=
  let n := nat_of_ascii c in
  orb (orb (Nat.eqb n 32) (Nat.eqb n 9)) (orb (Nat.eqb n 10) (Nat.eqb n 13)).

Definition is_digit (c : ascii) : bool :=
  let n := nat_of_ascii c in andb (Nat.leb 48 n) (Nat.leb n 57).

Definition is_hex (c : ascii) : bool :=
  let n := nat_of_ascii c in
  orb (is_digit c)
      (orb (andb (Nat.leb 65 n) (Nat.leb n 70)) (andb (Nat.leb 97 n) (Nat.leb n 102))).

Fixpoint skip_ws (s : string) : string :=
  match s with
  | String c r => if is_ws c then skip_ws r else s
  | EmptyString => s
  end.

(** Longest run of digits at the head of [s], and the rest. *)
Fixpoint digits (s : string) : string * string :=
  match s with
  | String c r =>
      if is_digit c then let (d, r') := digits r in (String c d, r')
      else (EmptyString, s)
  | EmptyString => (EmptyString, s)
  end.

(** Integer part: [0] or a non-zero digit followed by digits. *)
Definition int_part (s : string) : option (string * string) :=
  match s with
  | String "0" r => Some ("0", r)
  | String c r =>
      if is_digit c then let (d, r') := digits r in Some (String c d, r')
      else None
  | EmptyString => None
  end.

Definition frac_part (s : string) : string * string :=
  match s with
  | String "." r =>
      match digits r with
      | (EmptyString, _) => (EmptyString, s)
      | (d, r') => (String "." d, r')
      end
  | _ => (EmptyString, s)
  end.

Definition exp_part (s : string) : string * string :=
  match s with
  | String e r =>
      if orb (Ascii.eqb e "e") (Ascii.eqb e "E") then
        let (sign, r1) :=
          match r with
          | String "+" r1 => ("+", r1)
          | String "-" r1 => ("-", r1)
          | _ => (EmptyString, r)
          end in
        match digits r1 with
        | (EmptyString, _) => (EmptyString, s)
        | (d, r2) => (String e (sign ++ d), r2)
        end
      else (EmptyString, s)
  | EmptyString => (EmptyString, s)
  end.

Definition number (s : string) : option (JSON * string) :=
  let (sign, r0) :=
    match s with String "-" r => ("-", r) | _ => (EmptyString, s) end in
  match int_part r0 with
  | None => None
  | Some (i, r1) =>
      let (f, r2) := frac_part r1 in
      let (e, r3) := exp_part r2 in
      Some (JNum (sign ++ i ++ f ++ e), r3)
  end.

(** Body of a string literal after the opening quote.  Simple escapes are
    decoded; a [\uXXXX] escape is checked and kept as written (the byte
    strings used here hold no code points above 255).  Control characters
    are refused, as the strict decoder does. *)
Fixpoint string_body (s : string) : option (string * string) :=
  match s with
  | EmptyString => None
  | String dquote r => Some (EmptyString, r)
  | String "\" (String "u" (String a (String b (String c (String d r))))) =>
      if andb (andb (is_hex a) (is_hex b)) (andb (is_hex c) (is_hex d)) then
        match string_body r with
        | Some (t, r') =>
            Some (String "\" (String "u" (String a (String b (String c (String d t))))), r')
        | None => None
        end
      else None
  | String "\" (String e r) =>
      let decoded :=
        if Ascii.eqb e dquote then Some dquote
        else if Ascii.eqb e "\" then Some "\"%char
        else if Ascii.eqb e "/" then Some "/"%char
        else if Ascii.eqb e "b" then Some (ascii_of_nat 8)
        else if Ascii.eqb e "f" then Some (ascii_of_nat 12)
        else if Ascii.eqb e "n" then Some (ascii_of_nat 10)
        else if Ascii.eqb e "r" then Some (ascii_of_nat 13)
        else if Ascii.eqb e "t" then Some (ascii_of_nat 9)
        else None in
      match decoded, string_body r with
      | Some c, Some (t, r') => Some (String c t, r')
      | _, _ => None
      end
  | String c r =>
      if Nat.ltb (nat_of_ascii c) 32 then None
      else match string_body r with
           | Some (t, r') => Some (String c t, r')
           | None => None
           end
  end.

Definition strip (lit : string) (s : string) : option string :=
  if String.prefix lit s
  then Some (String.substring (String.length lit) (String.length s - String.length lit) s)
  else None.

Definition literal (s : string) : option (JSON * string) :=
  match strip "null" s with Some r => Some (JNull, r) | None =>
  match strip "true" s with Some r => Some (JBool true, r) | None =>
  match strip "false" s with Some r => Some (JBool false, r) | None =>
  match strip "NaN" s with Some r => Some (JNum "NaN", r) | None =>
  match strip "Infinity" s with Some r => Some (JNum "Infinity", r) | None =>
  match strip "-Infinity" s with Some r => Some (JNum "-Infinity", r) | None =>
  number s end end end end end end.

(** The recursive-descent decoder.  [fuel] bounds the nesting and the
    number of elements; [loads] supplies twice the input length, and every
    call either consumes a character or is followed by one that does. *)
Fixpoint value (fuel : nat) (s : string) : option (JSON * string) :=
  match fuel with
  | O => None
  | S f =>
      match skip_ws s with
      | String dquote r =>
          match string_body r with
          | Some (t, r') => Some (JStr t, r')
          | None => None
          end
      | String "[" r =>
          match skip_ws r with
          | String "]" r' => Some (JArr [], r')
          | _ => match elements f r with
                 | Some (vs, r') => Some (JArr vs, r')
                 | None => None
                 end
          end
      | String "{" r =>
          match skip_ws r with
          | String "}" r' => Some (JObj [], r')
          | _ => match members f r with
                 | Some (ms, r') => Some (JObj ms, r')
                 | None => None
                 end
          end
      | s' => literal s'
      end
  end

with elements (fuel : nat) (s : string) : option (list JSON * string) :=
  match fuel with
  | O => None
  | S f =>
      match value f s with
      | Some (v, r) =>
          match skip_ws r with
          | String "," r' =>
              match elements f r' with
              | Some (vs, r'') => Some (v :: vs, r'')
              | None => None
              end
          | String "]" r' => Some ([v], r')
          | _ => None
          end
      | None => None
      end
  end

with members (fuel : nat) (s : string) : option (list (string * JSON) * string) :=
  match fuel with
  | O => None
  | S f =>
      match skip_ws s with
      | String dquote r =>
          match string_body r with
          | Some (k, r1) =>
              match skip_ws r1 with
              | String ":" r2 =>
                  match value f r2 with
                  | Some (v, r3) =>
                      match skip_ws r3 with
                      | String "," r4 =>
                          match members f r4 with
                          | Some (ms, r5) => Some ((k, v) :: ms, r5)
                          | None => None
                          end
                      | String "}" r4 => Some ([(k, v)], r4)
                      | _ => None
                      end
                  | None => None
                  end
              | _ => None
              end
          | None => None
          end
      | _ => None
      end
  end.

(** [json.loads]: [None] stands for [json.JSONDecodeError]. *)
Definition loads (s : string) : option JSON :=
  match value (2 * String.length s + 2) s with
  | Some (v, r) =>
      match skip_ws r with
      | EmptyString => Some v
      | _ => None
      end
  | None => None
  end.

End Json.

(** ** Exceptions and the handler monad *)

(** The exception classes the handlers raise or catch.  [JSONDecodeError] and
    pydantic's [ValidationError] are subclasses of [ValueError]; the two Cosmos resource errors are subclasses
    of [CosmosHttpResponseError]; [OtherError] stands for any other
    [Exception] (the blob SDK's errors among them). *)
Inductive Exn : Type :=
| HTTPException (status_code : Z) (detail : string)
| ValueError (msg : string)
| JSONDecodeError
| ValidationError (msg : string)
| CosmosResourceNotFoundError
| CosmosResourceExistsError
| CosmosHttpResponseError (msg : string)
| OtherError (msg : string).

(** [str(e)], as the f-strings of the handlers print it. *)
Definition exn_str (e : Exn) : string :=
  match e with
  | HTTPException _ detail => detail
  | ValueError msg => msg
  | JSONDecodeError => "Expecting value"
  | ValidationError msg => msg
  | CosmosResourceNotFoundError => "NotFound"
  | CosmosResourceExistsError => "Conflict"
  | CosmosHttpResponseError msg => msg
  | OtherError msg => msg
  end.

Definition is_HTTPException (e : Exn) : bool :=
  match e with HTTPException _ _ => true | _ => false end.

Definition is_ValueError (e : Exn) : bool :=
  match e with
  | ValueError _ | JSONDecodeError | ValidationError _ => true
  | _ => false
  end.

Definition is_CosmosHttpResponseError (e : Exn) : bool :=
  match e with
  | CosmosResourceNotFoundError | CosmosResourceExistsError
  | CosmosHttpResponseError _ => true
  | _ => false
  end.

Inductive Result (A : Type) : Type :=
| Ok (a : A)
| Raise (e : Exn).
Arguments Ok {A} a.
Arguments Raise {A} e.

Definition HTTP_400_BAD_REQUEST : Z := 400.
Definition HTTP_401_UNAUTHORIZED : Z := 401.
Definition HTTP_403_FORBIDDEN : Z := 403.
Definition HTTP_404_NOT_FOUND : Z := 404.
Definition HTTP_500_INTERNAL_SERVER_ERROR : Z := 500.

(** ** models.py *)

(** Timestamps.  The code stores [datetime.utcnow().isoformat()]; such
    strings order lexicographically as the instants do, so a timestamp is
    kept as the instant, a number of clock ticks. *)
Definition Time : Type := nat.

Module User.
Record doc : Type := {
  id : string;
  email : string;
  username : string;
  hashed_password : string;
  created_at : Time
}.
End User.

Module Media.
Record doc : Type := {
  id : string;
  mediaType : string;
  userId : string;
  originalFileName : string;
  fileName : string;
  mimeType : string;
  fileSize : Z;
  description : option string;
  blobUrl : string;
  tags : option (list JSON);
  thumbnailUrl : option string;
  uploadedAt : Time;
  updatedAt : Time
}.
End Media.

(** [ContentModification]: the body of an update request. *)
Record ContentModification : Type := {
  mod_tags : option (list string);
  mod_description : option string
}.

(** The multipart file of an upload request. *)
Module UploadFile.
Record t : Type := {
  filename : string;
  content_type : string;
  file : string
}.
End UploadFile.

Definition is_str (v : JSON) : bool :=
  match v with JStr _ => true | _ => false end.

(** The response model [ContentRecord], built from a stored document.  Of its field constraints
    two can fail on a stored document: [tags] is a list of strings, and
    [description] has at most 500 characters. *)
Definition ContentRecord (d : Media.doc) : Result Media.doc :=
  let tags_ok :=
    match Media.tags d with
    | None => true
    | Some ts => forallb is_str ts
    end in
  let description_ok :=
    match Media.description d with
    | None => true
    | Some t => Nat.leb (String.length t) 500
    end in
  if andb tags_ok description_ok then Ok d
  else Raise (ValidationError "validation error for ContentRecord").

Record AccountRegistration : Type := {
  reg_email : string;
  reg_username : string;
  reg_password : string
}.

Record CredentialsInput : Type := {
  cred_password : string;
  cred_email : string
}.

Record AccountProfile : Type := {
  profile_email : string;
  profile_username : string;
  profile_id : string;
  profile_createdAt : Time
}.

Record AuthenticationToken : Type := {
  user : AccountProfile;
  token : string
}.

(** [ContentCollection]. *)
Module Collection.
Record t : Type := {
  pageSize : Z;
  items : list Media.doc;
  page : Z;
  total : Z
}.
End Collection.

(** ** External collaborators: storage.py, utils.py, auth.py, uuid *)

(** [blob_storage] of storage.py.  Both operations may raise; each returns
    the blob container it leaves behind. *)
Class Storage : Type := {
  Blobs : Type;
  upload_file : string -> string -> string -> string -> Blobs ->
                Result (string * string) * Blobs;
  delete_file : string -> Blobs -> Result unit * Blobs
}.

(** utils.py. [generate_thumbnail] returns [None] when no preview can be
    derived. *)
Class Utils : Type := {
  validate_file_type : UploadFile.t -> Result string;
  validate_file_size : UploadFile.t -> Result Z;
  generate_thumbnail : string -> option string
}.

(** auth.py. *)
Class Auth : Type := {
  get_password_hash : string -> string;
  verify_password : string -> string -> bool;
  create_access_token : string -> string -> string
}.

(** [uuid.uuid4]: the value of the n-th call.  The generator is taken to
    never repeat a value. *)
Class Uuid : Type := {
  uuid_of : nat -> string;
  uuid_of_inj : forall m n, uuid_of m = uuid_of n -> m = n
}.

(** Python truthiness of an optional string. *)
Definition truthy (s : option string) : bool :=
  match s with
  | Some (String _ _) => true
  | _ => false
  end.

Inductive Level : Type := INFO | WARNING | ERROR.

Section Handlers.

Context {storage : Storage} {utils : Utils} {auth : Auth} {uuid : Uuid}.

Record World : Type := {
  users_container : list User.doc;
  media_container : list Media.doc;
  blob_container : Blobs;
  logs : list (Level * string);
  clock : Time;
  uuid_calls : nat
}.

Definition M (A : Type) : Type := World -> Result A * World.

Definition ret {A} (a : A) : M A := fun w => (Ok a, w).

Definition raise {A} (e : Exn) : M A := fun w => (Raise e, w).

Definition bind {A B} (m : M A) (k : A -> M B) : M B :=
  fun w =>
    match m w with
    | (Ok a, w') => k a w'
    | (Raise e, w') => (Raise e, w')
    end.

(** [try: body except ...: handler].  The handler sees the exception and
    the state the body left; a handler that matches no clause re-raises. *)
Definition try_except {A} (body : M A) (handler : Exn -> M A) : M A :=
  fun w =>
    match body w with
    | (Ok a, w') => (Ok a, w')
    | (Raise e, w') => handler e w'
    end.

Definition lift {A} (r : Result A) : M A := fun w => (r, w).

Declare Scope handler_scope.
Delimit Scope handler_scope with handler.
Notation "x <- m ;; k" := (bind m (fun x => k))
  (at level 100, m at next level, right associativity) : handler_scope.
Notation "m ;;; k" := (bind m (fun _ => k))
  (at level 100, right associativity) : handler_scope.
Open Scope handler_scope.

Definition set_users (c : list User.doc) (w : World) : World :=
  {| users_container := c; media_container := media_container w;
     blob_container := blob_container w; logs := logs w;
     clock := clock w; uuid_calls := uuid_calls w |}.

Definition set_media (c : list Media.doc) (w : World) : World :=
  {| users_container := users_container w; media_container := c;
     blob_container := blob_container w; logs := logs w;
     clock := clock w; uuid_calls := uuid_calls w |}.

Definition set_blobs (b : Blobs) (w : World) : World :=
  {| users_container := users_container w; media_container := media_container w;
     blob_container := b; logs := logs w;
     clock := clock w; uuid_calls := uuid_calls w |}.

(** [logging]: a record is appended to the log. *)
Definition logger (l : Level) (msg : string) : M unit :=
  fun w =>
    (Ok tt,
     {| users_container := users_container w; media_container := media_container w;
        blob_container := blob_container w; logs := logs w ++ [(l, msg)];
        clock := clock w; uuid_calls := uuid_calls w |}).

(** [datetime.utcnow()]: the clock of the world. *)
Definition utcnow : M Time := fun w => (Ok (clock w), w).

(** [str(uuid.uuid4())]: the next value of the generator. *)
Definition uuid4 : M string :=
  fun w =>
    (Ok (uuid_of (uuid_calls w)),
     {| users_container := users_container w; media_container := media_container w;
        blob_container := blob_container w; logs := logs w;
        clock := clock w; uuid_calls := S (uuid_calls w) |}).

Definition blob_upload (data user_id name mime : string) : M (string * string) :=
  fun w =>
    let (r, b) := upload_file data user_id name mime (blob_container w) in
    (r, set_blobs b w).

Definition blob_delete (name : string) : M unit :=
  fun w =>
    let (r, b) := delete_file name (blob_container w) in
    (r, set_blobs b w).

(** ** database.py: the containers *)

(** The [media] container is created with partition key [/userId]: within it
    an item is addressed by its partition-key value and its [id]. *)
Definition media_item_is (item partition_key : string) (d : Media.doc) : bool :=
  andb (String.eqb (Media.id d) item) (String.eqb (Media.userId d) partition_key).

Definition read_item (item partition_key : string) : M Media.doc :=
  fun w =>
    match find (media_item_is item partition_key) (media_container w) with
    | Some d => (Ok d, w)
    | None => (Raise CosmosResourceNotFoundError, w)
    end.

Definition create_item (body : Media.doc) : M Media.doc :=
  fun w =>
    if existsb (media_item_is (Media.id body) (Media.userId body)) (media_container w)
    then (Raise CosmosResourceExistsError, w)
    else (Ok body, set_media (media_container w ++ [body]) w).

Definition replace_item (item : string) (body : Media.doc) : M Media.doc :=
  fun w =>
    if existsb (media_item_is item (Media.userId body)) (media_container w)
    then (Ok body,
          set_media
            (map (fun d => if media_item_is item (Media.userId body) d then body else d)
                 (media_container w)) w)
    else (Raise CosmosResourceNotFoundError, w).

Definition delete_item (item partition_key : string) : M unit :=
  fun w =>
    if existsb (media_item_is item partition_key) (media_container w)
    then (Ok tt,
          set_media
            (filter (fun d => negb (media_item_is item partition_key d))
                    (media_container w)) w)
    else (Raise CosmosResourceNotFoundError, w).

(** The [users] container is created with partition key [/id]. *)
Definition users_create_item (body : User.doc) : M User.doc :=
  fun w =>
    if existsb (fun u => String.eqb (User.id u) (User.id body)) (users_container w)
    then (Raise CosmosResourceExistsError, w)
    else (Ok body, set_users (users_container w ++ [body]) w).

Definition users_read_item (item : string) : M User.doc :=
  fun w =>
    match find (fun u => String.eqb (User.id u) item) (users_container w) with
    | Some u => (Ok u, w)
    | None => (Raise CosmosResourceNotFoundError, w)
    end.

(** *** The SQL the client sends *)

(** The scalar expressions and conditions that occur in the queries of
    database.py.  An expression over a [null] or missing property is
    undefined, [None] here. *)
Inductive StrExpr : Type :=
| Param (value : string)
| m_originalFileName
| m_description
| LOWER (e : StrExpr).

Inductive Cond : Type :=
| userId_eq (value : string)
| mediaType_eq (value : string)
| CONTAINS (e1 e2 : StrExpr)
| ARRAY_CONTAINS_tags (value : string) (partial : bool)
| AND (c1 c2 : Cond)
| OR (c1 c2 : Cond).

Record Query : Type := {
  where_ : Cond;
  order_by_uploadedAt_desc : bool;
  offset_limit : option (Z * Z)
}.

Fixpoint eval_str (e : StrExpr) (d : Media.doc) : option string :=
  match e with
  | Param v => Some v
  | m_originalFileName => Some (Media.originalFileName d)
  | m_description => Media.description d
  | LOWER e' => option_map Str.lower (eval_str e' d)
  end.

(** [ARRAY_CONTAINS(array, value, partial)].  The third argument asks for a
    partial match of object elements against an object [value]; it has no
    effect on a string [value], which an element matches only by being the
    same string. *)
Definition array_contains (arr : list JSON) (value : string) (partial : bool) : bool :=
  existsb (fun v => match v with JStr s => String.eqb s value | _ => false end) arr.

Definition and3 (a b : option bool) : option bool :=
  match a, b with
  | Some false, _ | _, Some false => Some false
  | Some true, Some true => Some true
  | _, _ => None
  end.

Definition or3 (a b : option bool) : option bool :=
  match a, b with
  | Some true, _ | _, Some true => Some true
  | Some false, Some false => Some false
  | _, _ => None
  end.

Fixpoint eval_cond (c : Cond) (d : Media.doc) : option bool :=
  match c with
  | userId_eq v => Some (String.eqb (Media.userId d) v)
  | mediaType_eq v => Some (String.eqb (Media.mediaType d) v)
  | CONTAINS e1 e2 =>
      match eval_str e1 d, eval_str e2 d with
      | Some s, Some t => Some (Str.contains s t)
      | _, _ => None
      end
  | ARRAY_CONTAINS_tags v partial =>
      match Media.tags d with
      | Some arr => Some (array_contains arr v partial)
      | None => None
      end
  | AND c1 c2 => and3 (eval_cond c1 d) (eval_cond c2 d)
  | OR c1 c2 => or3 (eval_cond c1 d) (eval_cond c2 d)
  end.

(** A row is selected when the condition is true (not false, not undefined). *)
Definition selects (c : Cond) (d : Media.doc) : bool :=
  match eval_cond c d with Some true => true | _ => false end.

(** [ORDER BY m.uploadedAt DESC]: later uploads first; documents with equal
    timestamps keep the order the container holds them in. *)
Fixpoint insert_desc (d : Media.doc) (l : list Media.doc) : list Media.doc :=
  match l with
  | [] => [d]
  | x :: r =>
      if Nat.leb (Media.uploadedAt x) (Media.uploadedAt d)
      then d :: l
      else x :: insert_desc d r
  end.

Fixpoint order_by_desc (l : list Media.doc) : list Media.doc :=
  match l with
  | [] => []
  | d :: r => insert_desc d (order_by_desc r)
  end.

Definition ordered (q : Query) (l : list Media.doc) : list Media.doc :=
  if order_by_uploadedAt_desc q then order_by_desc l else l.

(** [query_items] for a [SELECT *] query.  [OFFSET] and [LIMIT] take
    non-negative counts; the service rejects the query otherwise. *)
Definition query_items (q : Query) : M (list Media.doc) :=
  fun w =>
    let rows := ordered q (filter (selects (where_ q)) (media_container w)) in
    match offset_limit q with
    | None => (Ok rows, w)
    | Some (off, lim) =>
        if orb (off <? 0)%Z (lim <? 0)%Z
        then (Raise (CosmosHttpResponseError "BadRequest: OFFSET LIMIT"), w)
        else (Ok (firstn (Z.to_nat lim) (skipn (Z.to_nat off) rows)), w)
    end.

(** [query_items] for the same query after
    [.replace("SELECT *", "SELECT VALUE COUNT(1)")]: one row, the number of
    selected documents (the [ORDER BY] it still carries does not change it). *)
Definition query_count (q : Query) : M (list Z) :=
  fun w =>
    (Ok [Z.of_nat (List.length (filter (selects (where_ q)) (media_container w)))], w).

(** *** [CosmosDBClient] *)

(** The common last clause, [except CosmosHttpResponseError: log; raise]. *)
Definition log_and_reraise {A} (what : string) (e : Exn) : M A :=
  if is_CosmosHttpResponseError e
  then logger ERROR (what ++ exn_str e) ;;; raise e
  else raise e.

Definition create_user (account_data : User.doc) : M User.doc :=
  try_except (users_create_item account_data)
    (fun e =>
       match e with
       | CosmosResourceExistsError => raise (ValueError "User already exists")
       | _ => log_and_reraise "User creation failed: " e
       end).

(** [SELECT * FROM users u WHERE u.email = @email], then the first row. *)
Definition get_user_by_email (email_address : string) : M (option User.doc) :=
  fun w =>
    let results :=
      filter (fun u => String.eqb (User.email u) email_address) (users_container w) in
    (Ok (match results with u :: _ => Some u | [] => None end), w).

Definition get_user_by_id (account_id : string) : M (option User.doc) :=
  try_except (u <- users_read_item account_id ;; ret (Some u))
    (fun e =>
       match e with
       | CosmosResourceNotFoundError => ret None
       | _ => log_and_reraise "User ID lookup failed: " e
       end).

Definition create_media (media_record : Media.doc) : M Media.doc :=
  try_except (create_item media_record)
    (log_and_reraise "Media creation failed: ").

Definition get_media_by_id (record_id owner_id : string) : M (option Media.doc) :=
  try_except (d <- read_item record_id owner_id ;; ret (Some d))
    (fun e =>
       match e with
       | CosmosResourceNotFoundError => ret None
       | _ => log_and_reraise "Media ID lookup failed: " e
       end).

Definition with_offset_limit (q : Query) (skip_count page_size : Z) : Query :=
  {| where_ := where_ q;
     order_by_uploadedAt_desc := order_by_uploadedAt_desc q;
     offset_limit := Some (skip_count, page_size) |}.

Definition first_or_zero (count_results : list Z) : Z :=
  match count_results with
  | n :: _ => n
  | [] => 0%Z
  end.

Definition get_user_media (user_id : string) (page page_size : Z)
    (media_type : option string) : M (list Media.doc * Z) :=
  try_except
    (let base_where := userId_eq user_id in
     let base_where :=
       match media_type with
       | Some (String _ _ as t) => AND base_where (mediaType_eq t)
       | _ => base_where
       end in
     let base_query :=
       {| where_ := base_where; order_by_uploadedAt_desc := true;
          offset_limit := None |} in
     count_results <- query_count base_query ;;
     let total_records := first_or_zero count_results in
     let skip_count := ((page - 1) * page_size)%Z in
     let paginated_query := with_offset_limit base_query skip_count page_size in
     records <- query_items paginated_query ;;
     ret (records, total_records))
    (log_and_reraise "User media retrieval failed: ").

(** The payload [modify_media_info] builds: [updatedAt] always, the other
    two keys only when the request carries them. *)
Record Modifications : Type := {
  set_updatedAt : Time;
  set_description : option string;
  set_tags : option (list string)
}.

(** [current_record.update(modifications)]. *)
Definition dict_update (current_record : Media.doc) (m : Modifications) : Media.doc :=
  {| Media.id := Media.id current_record;
     Media.mediaType := Media.mediaType current_record;
     Media.userId := Media.userId current_record;
     Media.originalFileName := Media.originalFileName current_record;
     Media.fileName := Media.fileName current_record;
     Media.mimeType := Media.mimeType current_record;
     Media.fileSize := Media.fileSize current_record;
     Media.description :=
       match set_description m with
       | Some t => Some t
       | None => Media.description current_record
       end;
     Media.blobUrl := Media.blobUrl current_record;
     Media.tags :=
       match set_tags m with
       | Some ts => Some (map JStr ts)
       | None => Media.tags current_record
       end;
     Media.thumbnailUrl := Media.thumbnailUrl current_record;
     Media.uploadedAt := Media.uploadedAt current_record;
     Media.updatedAt := set_updatedAt m |}.

Definition update_media (record_id owner_id : string) (modifications : Modifications)
    : M Media.doc :=
  try_except
    (current <- get_media_by_id record_id owner_id ;;
     match current with
     | None => raise (ValueError "Media not found")
     | Some current_record =>
         replace_item record_id (dict_update current_record modifications)
     end)
    (log_and_reraise "Media update failed: ").

Definition delete_media (record_id owner_id : string) : M bool :=
  try_except (delete_item record_id owner_id ;;; ret true)
    (fun e =>
       match e with
       | CosmosResourceNotFoundError => ret false
       | _ => log_and_reraise "Media deletion failed: " e
       end).

Definition search_where (user_id query : string) : Cond :=
  AND (userId_eq user_id)
      (OR (OR (CONTAINS (LOWER m_originalFileName) (LOWER (Param query)))
              (CONTAINS (LOWER m_description) (LOWER (Param query))))
          (ARRAY_CONTAINS_tags query true)).

Definition search_media (user_id query : string) (page page_size : Z)
    : M (list Media.doc * Z) :=
  try_except
    (let search_sql :=
       {| where_ := search_where user_id query;
          order_by_uploadedAt_desc := true; offset_limit := None |} in
     count_data <- query_count search_sql ;;
     let total_matches := first_or_zero count_data in
     let skip_count := ((page - 1) * page_size)%Z in
     let search_sql := with_offset_limit search_sql skip_count page_size in
     matches <- query_items search_sql ;;
     ret (matches, total_matches))
    (log_and_reraise "Media search failed: ").

(** ** routes_media.py *)

Definition internal_error {A} (log_prefix detail : string) (e : Exn) : M A :=
  logger ERROR (log_prefix ++ exn_str e) ;;;
  raise (HTTPException HTTP_500_INTERNAL_SERVER_ERROR detail).

(** The [tags] form field: decoded when present and non-empty.  Only
    [json.JSONDecodeError] is caught here. *)
Definition parse_tags (file_tags : option string) : M (option (list JSON)) :=
  match file_tags with
  | Some (String _ _ as text) =>
      try_except
        (match Json.loads text with
         | None => raise JSONDecodeError
         | Some (JArr items) => ret (Some items)
         | Some _ => raise (ValueError "Tags must be an array")
         end)
        (fun e =>
           match e with
           | JSONDecodeError =>
               raise (HTTPException HTTP_400_BAD_REQUEST
                        "Invalid tags format. Must be a JSON array.")
           | _ => raise e
           end)
  | _ => ret None
  end.

(** The thumbnail step of an upload: best effort, [None] on any failure. *)
Definition store_thumbnail (uploaded_file : UploadFile.t) (content_type current_user : string)
    : M (option string) :=
  if String.eqb content_type "image" then
    match generate_thumbnail (UploadFile.file uploaded_file) with
    | Some (String _ _ as preview_data) =>
        try_except
          (named <- blob_upload preview_data current_user
                      ("thumb_" ++ UploadFile.filename uploaded_file) "image/jpeg" ;;
           ret (Some (snd named)))
          (fun thumb_error =>
             logger WARNING ("Thumbnail creation failed: " ++ exn_str thumb_error) ;;;
             ret None)
    | _ => ret None
    end
  else ret None.

Definition process_file_upload (uploaded_file : UploadFile.t)
    (file_description file_tags : option string) (current_user : string)
    : M Media.doc :=
  try_except
    (content_type <- lift (validate_file_type uploaded_file) ;;
     size_in_bytes <- lift (validate_file_size uploaded_file) ;;
     parsed_tags <- parse_tags file_tags ;;
     stored <- blob_upload (UploadFile.file uploaded_file) current_user
                 (UploadFile.filename uploaded_file) (UploadFile.content_type uploaded_file) ;;
     let stored_name := fst stored in
     let access_url := snd stored in
     preview_url <- store_thumbnail uploaded_file content_type current_user ;;
     record_id <- uuid4 ;;
     current_time <- utcnow ;;
     let media_record :=
       {| Media.id := record_id;
          Media.mediaType := content_type;
          Media.userId := current_user;
          Media.originalFileName := UploadFile.filename uploaded_file;
          Media.fileName := stored_name;
          Media.mimeType := UploadFile.content_type uploaded_file;
          Media.fileSize := size_in_bytes;
          Media.description := file_description;
          Media.blobUrl := access_url;
          Media.tags := parsed_tags;
          Media.thumbnailUrl := preview_url;
          Media.uploadedAt := current_time;
          Media.updatedAt := current_time |} in
     persisted_media <- create_media media_record ;;
     lift (ContentRecord persisted_media))
    (fun e =>
       if is_HTTPException e then raise e
       else internal_error "File upload failed: "
              ("Failed to upload media: " ++ exn_str e) e).

Fixpoint validate_all (l : list Media.doc) : Result (list Media.doc) :=
  match l with
  | [] => Ok []
  | d :: r =>
      match ContentRecord d, validate_all r with
      | Ok d', Ok r' => Ok (d' :: r')
      | Raise e, _ => Raise e
      | _, Raise e => Raise e
      end
  end.

Definition find_media_by_query (search_term : string) (page_num items_per_page : Z)
    (owner_id : string) : M Collection.t :=
  try_except
    (found <- search_media owner_id search_term page_num items_per_page ;;
     media_results <- lift (validate_all (fst found)) ;;
     ret {| Collection.pageSize := items_per_page;
            Collection.items := media_results;
            Collection.page := page_num;
            Collection.total := snd found |})
    (internal_error "Media search failed: " "Failed to search media").

Definition retrieve_media_list (page_num items_per_page : Z)
    (content_type : option string) (owner_id : string) : M Collection.t :=
  try_except
    (found <- get_user_media owner_id page_num items_per_page content_type ;;
     collection <- lift (validate_all (fst found)) ;;
     ret {| Collection.pageSize := items_per_page;
            Collection.total := snd found;
            Collection.page := page_num;
            Collection.items := collection |})
    (internal_error "Media list retrieval failed: " "Failed to retrieve media list").

Definition fetch_media_details (media_id owner_id : string) : M Media.doc :=
  try_except
    (found <- get_media_by_id media_id owner_id ;;
     match found with
     | None => raise (HTTPException HTTP_404_NOT_FOUND "Media not found")
     | Some media_item =>
         if negb (String.eqb (Media.userId media_item) owner_id)
         then raise (HTTPException HTTP_403_FORBIDDEN
                       "You don't have permission to access this media")
         else lift (ContentRecord media_item)
     end)
    (fun e =>
       if is_HTTPException e then raise e
       else internal_error "Media retrieval error: " "Failed to retrieve media" e).

Definition modify_media_info (media_id : string) (metadata_updates : ContentModification)
    (owner_id : string) : M Media.doc :=
  try_except
    (found <- get_media_by_id media_id owner_id ;;
     match found with
     | None => raise (HTTPException HTTP_404_NOT_FOUND "Media not found")
     | Some existing_media =>
         if negb (String.eqb (Media.userId existing_media) owner_id)
         then raise (HTTPException HTTP_403_FORBIDDEN
                       "You don't have permission to update this media")
         else
           now <- utcnow ;;
           let update_payload :=
             {| set_updatedAt := now;
                set_description := mod_description metadata_updates;
                set_tags := mod_tags metadata_updates |} in
           modified_media <- update_media media_id owner_id update_payload ;;
           lift (ContentRecord modified_media)
     end)
    (fun e =>
       if is_HTTPException e then raise e
       else if is_ValueError e
       then raise (HTTPException HTTP_404_NOT_FOUND (exn_str e))
       else internal_error "Media update failed: " "Failed to update media" e).

(** The blob name [remove_media_file] computes for the thumbnail. *)
Definition thumb_identifier (media_record : Media.doc) : string :=
  let original_filename := Str.last_component "/" (Media.originalFileName media_record) in
  Str.replace (Media.fileName media_record) original_filename
              ("thumb_" ++ original_filename).

Definition remove_media_file (media_id owner_id : string) : M unit :=
  try_except
    (found <- get_media_by_id media_id owner_id ;;
     match found with
     | None => raise (HTTPException HTTP_404_NOT_FOUND "Media not found")
     | Some media_record =>
         if negb (String.eqb (Media.userId media_record) owner_id)
         then raise (HTTPException HTTP_403_FORBIDDEN
                       "You don't have permission to delete this media")
         else
           blob_delete (Media.fileName media_record) ;;;
           (if truthy (Media.thumbnailUrl media_record)
            then try_except
                   (blob_delete (thumb_identifier media_record))
                   (fun thumb_delete_error =>
                      logger WARNING
                        ("Thumbnail deletion failed: " ++ exn_str thumb_delete_error))
            else ret tt) ;;;
           delete_media media_id owner_id ;;;
           ret tt
     end)
    (fun e =>
       if is_HTTPException e then raise e
       else internal_error "Media deletion error: " "Failed to delete media" e).

(** ** routes_auth.py *)

Definition profile_of (account : User.doc) : AccountProfile :=
  {| profile_email := User.email account;
     profile_username := User.username account;
     profile_id := User.id account;
     profile_createdAt := User.created_at account |}.

Definition create_user_account (registration_data : AccountRegistration)
    : M AuthenticationToken :=
  try_except
    (logger INFO ("New registration request: " ++ reg_email registration_data) ;;;
     user_exists <- get_user_by_email (reg_email registration_data) ;;
     match user_exists with
     | Some _ =>
         logger WARNING ("Duplicate email detected: " ++ reg_email registration_data) ;;;
         raise (HTTPException HTTP_400_BAD_REQUEST "User with this email already exists")
     | None =>
         new_user_id <- uuid4 ;;
         let hashed_pwd := get_password_hash (reg_password registration_data) in
         timestamp <- utcnow ;;
         let user_record :=
           {| User.id := new_user_id;
              User.email := reg_email registration_data;
              User.username := reg_username registration_data;
              User.hashed_password := hashed_pwd;
              User.created_at := timestamp |} in
         saved_user <- create_user user_record ;;
         logger INFO ("Successfully registered: " ++ reg_email registration_data) ;;;
         let jwt_token :=
           create_access_token (reg_email registration_data) new_user_id in
         ret {| user := profile_of saved_user; token := jwt_token |}
     end)
    (fun e =>
       if is_HTTPException e then raise e
       else if is_ValueError e
       then logger ERROR ("Validation failed: " ++ exn_str e) ;;;
            raise (HTTPException HTTP_400_BAD_REQUEST (exn_str e))
       else internal_error "Registration failed: "
              ("Failed to register user: " ++ exn_str e) e).

Definition authenticate_user (credentials : CredentialsInput) : M AuthenticationToken :=
  try_except
    (logger INFO ("Authentication request: " ++ cred_email credentials) ;;;
     found <- get_user_by_email (cred_email credentials) ;;
     match found with
     | None =>
         logger WARNING ("Account not found: " ++ cred_email credentials) ;;;
         raise (HTTPException HTTP_401_UNAUTHORIZED "Invalid email or password")
     | Some account =>
         let password_valid :=
           verify_password (cred_password credentials) (User.hashed_password account) in
         if negb password_valid
         then logger WARNING ("Invalid credentials for: " ++ cred_email credentials) ;;;
              raise (HTTPException HTTP_401_UNAUTHORIZED "Invalid email or password")
         else
           let jwt_token :=
             create_access_token (User.email account) (User.id account) in
           logger INFO ("Authentication successful: " ++ User.email account) ;;;
           ret {| user := profile_of account; token := jwt_token |}
     end)
    (fun e =>
       if is_HTTPException e then raise e
       else internal_error "Authentication error: "
              ("Failed to login: " ++ exn_str e) e).

(** ** The service as a transition system *)

(** What can happen to the world: a request is served, or time passes. *)
Inductive Event : Type :=
| Tick (dt : nat)
| Register (registration_data : AccountRegistration)
| Login (credentials : CredentialsInput)
| Upload (uploaded_file : UploadFile.t) (file_description file_tags : option string)
         (current_user : string)
| Search (search_term : string) (page_num items_per_page : Z) (owner_id : string)
| Listing (page_num items_per_page : Z) (content_type : option string) (owner_id : string)
| Fetch (media_id owner_id : string)
| Modify (media_id : string) (metadata_updates : ContentModification) (owner_id : string)
| Remove (media_id owner_id : string).

Inductive Response : Type :=
| NoResponse
| TokenResponse (r : Result AuthenticationToken)
| MediaResponse (r : Result Media.doc)
| Created (r : Result Media.doc)
| CollectionResponse (r : Result Collection.t)
| NoContent (r : Result unit).

Definition advance (dt : nat) (w : World) : World :=
  {| users_container := users_container w; media_container := media_container w;
     blob_container := blob_container w; logs := logs w;
     clock := clock w + dt; uuid_calls := uuid_calls w |}.

Definition serve (ev : Event) (w : World) : Response * World :=
  match ev with
  | Tick dt => (NoResponse, advance dt w)
  | Register r => let (x, w') := create_user_account r w in (TokenResponse x, w')
  | Login c => let (x, w') := authenticate_user c w in (TokenResponse x, w')
  | Upload f d t u => let (x, w') := process_file_upload f d t u w in (Created x, w')
  | Search q p s u => let (x, w') := find_media_by_query q p s u w in (CollectionResponse x, w')
  | Listing p s t u => let (x, w') := retrieve_media_list p s t u w in (CollectionResponse x, w')
  | Fetch i u => let (x, w') := fetch_media_details i u w in (MediaResponse x, w')
  | Modify i m u => let (x, w') := modify_media_info i m u w in (MediaResponse x, w')
  | Remove i u => let (x, w') := remove_media_file i u w in (NoContent x, w')
  end.

Fixpoint run (evs : list Event) (w : World) : list Response * World :=
  match evs with
  | [] => ([], w)
  | ev :: rest =>
      let (r, w1) := serve ev w in
      let (rs, w2) := run rest w1 in
      (r :: rs, w2)
  end.

(** The service at start-up: empty containers. *)
Definition startup (b : Blobs) (t0 : Time) : World :=
  {| users_container := []; media_container := []; blob_container := b;
     logs := []; clock := t0; uuid_calls := 0 |}.

(** The records the uploads of a run returned. *)
Fixpoint uploaded (rs : list Response) : list Media.doc :=
  match rs with
  | [] => []
  | Created (Ok d) :: rest => d :: uploaded rest
  | _ :: rest => uploaded rest
  end.

(** ** Notions used in the statements *)

(** The container after [replace_item]: the addressed document gives way to
    [body]. *)
Definition replaced (item pk : string) (body : Media.doc) (l : list Media.doc)
    : list Media.doc :=
  map (fun d => if media_item_is item pk d then body else d) l.

(** The update payload of a request served at time [now]. *)
Definition payload (now : Time) (u : ContentModification) : Modifications :=
  {| set_updatedAt := now;
     set_description := mod_description u;
     set_tags := mod_tags u |}.

(** The order of [ORDER BY m.uploadedAt DESC]. *)
Definition later_first (a b : Media.doc) : Prop :=
  (Media.uploadedAt b <= Media.uploadedAt a)%nat.

(** The condition [get_user_media] builds: an empty [media_type] adds no
    clause. *)
Definition listing_where (user_id : string) (media_type : option string) : Cond :=
  match media_type with
  | Some (String _ _ as t) => AND (userId_eq user_id) (mediaType_eq t)
  | _ => userId_eq user_id
  end.

(** A computation is [calm] when it leaves the media container and the
    clock as they are and at most draws identifiers. *)
Definition calm {A} (m : M A) : Prop :=
  forall w,
    media_container (snd (m w)) = media_container w /\
    clock (snd (m w)) = clock w /\
    (uuid_calls w <= uuid_calls (snd (m w)))%nat.

(** What an upload does to the metadata: nothing, or one document appended
    whose id is a value drawn during the request and whose two timestamps
    are the time of the request; a record is returned only in the second
    case, and it is that document. *)
Definition upload_outcome (w : World) (r : Result Media.doc) (w' : World) : Prop :=
  clock w' = clock w /\
  (uuid_calls w <= uuid_calls w')%nat /\
  (media_container w' = media_container w \/
   exists d k,
     media_container w' = (media_container w ++ [d])%list /\
     (uuid_calls w <= k < uuid_calls w')%nat /\
     Media.id d = uuid_of k /\
     Media.uploadedAt d = clock w /\ Media.updatedAt d = clock w /\
     forall d0, r = Ok d0 -> d0 = d) /\
  (forall d0, r = Ok d0 -> media_container w' <> media_container w).

(** A computation [shrinks] the metadata when all it may do to the media
    container is drop documents. *)
Definition shrinks {A} (m : M A) : Prop :=
  forall w,
    (exists p, media_container (snd (m w)) = filter p (media_container w)) /\
    clock (snd (m w)) = clock w /\
    (uuid_calls w <= uuid_calls (snd (m w)))%nat.

(** An identifier is [minted] in [w] when one of the draws made so far
    returned it. *)
Definition minted (w : World) (i : string) : Prop :=
  exists k, (k < uuid_calls w)%nat /\ i = uuid_of k.

(** The invariant of the media container: ids were drawn from the
    generator and are pairwise distinct, and no document was updated before
    it was uploaded, nor after now. *)
Record consistent (w : World) : Prop := {
  ids_minted : Forall (fun d => minted w (Media.id d)) (media_container w);
  ids_distinct : NoDup (map Media.id (media_container w));
  stamps_ordered :
    Forall (fun d => (Media.uploadedAt d <= Media.updatedAt d <= clock w)%nat)
           (media_container w)
}.

(** How the metadata at [w'] descends from the metadata at [w]: a document
    is an earlier document with its id and upload time, or it carries an id
    drawn in between. *)
Definition descends (w w' : World) : Prop :=
  (clock w <= clock w')%nat /\
  (uuid_calls w <= uuid_calls w')%nat /\
  forall d', In d' (media_container w') ->
    (exists d, In d (media_container w) /\ Media.id d' = Media.id d /\
               Media.uploadedAt d' = Media.uploadedAt d) \/
    (exists k, (uuid_calls w <= k < uuid_calls w')%nat /\ Media.id d' = uuid_of k).

(** A record returned by an upload served between [w] and [w']. *)
Definition created_in (w w' : World) (d : Media.doc) : Prop :=
  (exists k, (uuid_calls w <= k < uuid_calls w')%nat /\ Media.id d = uuid_of k) /\
  Media.uploadedAt d = Media.updatedAt d.

End Handlers.

Arguments World {storage}.
Arguments M {storage} A.

(** ** A reference deployment *)

(** Modelled from the spec: the blob naming of [storage.upload_file], whose
    source (storage.py) is missing.  The stored name is "deterministically
    derivable from (userId, originalFileName)" and has a "base filename
    component": the owner's id, a slash, the file name as given. *)
Definition blob_name (user_id file_name : string) : string :=
  user_id ++ "/" ++ file_name.

Module Reference.

Definition has_blob (name : string) (b : list (string * string)) : bool :=
  existsb (fun kv => String.eqb (fst kv) name) b.

Definition drop_blob (name : string) (b : list (string * string))
    : list (string * string) :=
  filter (fun kv => negb (String.eqb (fst kv) name)) b.

(** A blob container held as an association list.  Uploading overwrites;
    deleting a blob that is not there raises. *)
#[export] Instance storage : Storage := {|
  Blobs := list (string * string);
  upload_file := fun data user_id file_name _ b =>
    let name := blob_name user_id file_name in
    (Ok (name, "https://blobs.example/" ++ name), (name, data) :: drop_blob name b);
  delete_file := fun name b =>
    if has_blob name b then (Ok tt, drop_blob name b)
    else (Raise (OtherError "BlobNotFound"), b)
|}.

Definition max_file_size : Z := 1000.

(** Type by declared MIME type; size by content length; a thumbnail for
    every non-empty content. *)
#[export] Instance utils : Utils := {|
  validate_file_type := fun f =>
    if String.prefix "image/" (UploadFile.content_type f) then Ok "image"
    else if String.prefix "video/" (UploadFile.content_type f) then Ok "video"
    else Raise (HTTPException HTTP_400_BAD_REQUEST "Unsupported file type");
  validate_file_size := fun f =>
    let n := Z.of_nat (String.length (UploadFile.file f)) in
    if (n <=? max_file_size)%Z then Ok n
    else Raise (HTTPException HTTP_400_BAD_REQUEST "File too large");
  generate_thumbnail := fun data =>
    match data with
    | EmptyString => None
    | String c _ => Some (String c EmptyString)
    end
|}.

#[export] Instance auth : Auth := {|
  get_password_hash := fun p => "hash:" ++ p;
  verify_password := fun p h => String.eqb h ("hash:" ++ p);
  create_access_token := fun email_address sub => "token:" ++ sub
|}.

(** Identifiers counted in unary: distinct calls give distinct strings. *)
Fixpoint tally (n : nat) : string :=
  match n with
  | O => "#"
  | S k => String "1" (tally k)
  end.

#[export] Instance uuid : Uuid.
Proof.
  refine {| uuid_of := tally |}.
  induction m as [|m IH]; destruct n as [|n]; simpl; intros E;
    try discriminate; try reflexivity.
  injection E as E. f_equal. exact (IH n E).
Defined.

End Reference.

Import Reference.

(** One photo of alice's, tagged "Sunset", with its two blobs. *)
Definition alice_photo : Media.doc :=
  {| Media.id := "m1"; Media.mediaType := "image"; Media.userId := "alice";
     Media.originalFileName := "IMG_0001.jpg";
     Media.fileName := "alice/IMG_0001.jpg"; Media.mimeType := "image/jpeg";
     Media.fileSize := 3%Z; Media.description := None;
     Media.blobUrl := "https://blobs.example/alice/IMG_0001.jpg";
     Media.tags := Some [JStr "Sunset"];
     Media.thumbnailUrl := Some "https://blobs.example/alice/thumb_IMG_0001.jpg";
     Media.uploadedAt := 10; Media.updatedAt := 10 |}.

Definition alice_world : World :=
  {| users_container := []; media_container := [alice_photo];
     blob_container := [("alice/IMG_0001.jpg", "abc"); ("alice/thumb_IMG_0001.jpg", "a")];
     logs := []; clock := 20; uuid_calls := 1 |}.

(** A three-byte JPEG upload named [name]. *)
Definition jpeg (name : string) : UploadFile.t :=
  {| UploadFile.filename := name; UploadFile.content_type := "image/jpeg";
     UploadFile.file := "abc" |}.

(** Three documents of one owner, held out of upload order. *)
Definition shot (i : string) (t : Time) : Media.doc :=
  {| Media.id := i; Media.mediaType := "image"; Media.userId := "alice";
     Media.originalFileName := i ++ ".jpg";
     Media.fileName := blob_name "alice" (i ++ ".jpg");
     Media.mimeType := "image/jpeg"; Media.fileSize := 3%Z;
     Media.description := None;
     Media.blobUrl := "https://blobs.example/alice/" ++ i ++ ".jpg";
     Media.tags := None; Media.thumbnailUrl := None;
     Media.uploadedAt := t; Media.updatedAt := t |}.

Definition gallery_world : World :=
  {| users_container := [];
     media_container := [shot "a" 10; shot "b" 30; shot "c" 20];
     blob_container := []; logs := []; clock := 40; uuid_calls := 3 |}.

(** The world of [alice_world] after its content blob was lost, and after
    its thumbnail blob was lost. *)
Definition content_lost_world : World :=
  {| users_container := []; media_container := [alice_photo];
     blob_container := [("alice/thumb_IMG_0001.jpg", "a")];
     logs := []; clock := 20; uuid_calls := 1 |}.

Definition thumbnail_lost_world : World :=
  {| users_container := []; media_container := [alice_photo];
     blob_container := [("alice/IMG_0001.jpg", "abc")];
     logs := []; clock := 20; uuid_calls := 1 |}.

(** An update that sets the description and leaves the tags out. *)
Definition caption : ContentModification :=
  {| mod_tags := None; mod_description := Some "Sunset at sea" |}.

Definition captioned_photo : Media.doc :=
  dict_update alice_photo (payload 20 caption).

Definition captioned_world : World :=
  {| users_container := []; media_container := [captioned_photo];
     blob_container := [("alice/IMG_0001.jpg", "abc"); ("alice/thumb_IMG_0001.jpg", "a")];
     logs := []; clock := 20; uuid_calls := 1 |}.

(** One registered account, and two logins that must fail. *)
Definition alice_account : User.doc :=
  {| User.id := "u1"; User.email := "alice@example.com"; User.username := "alice";
     User.hashed_password := get_password_hash "correct horse";
     User.created_at := 1 |}.

Definition members_world : World :=
  {| users_container := [alice_account]; media_container := [];
     blob_container := []; logs := []; clock := 5; uuid_calls := 1 |}.

Definition stranger : CredentialsInput :=
  {| cred_password := "guess"; cred_email := "mallory@example.com" |}.

Definition wrong_password : CredentialsInput :=
  {| cred_password := "guess"; cred_email := "alice@example.com" |}.

(** A short history: an upload, some time, a change of caption. *)
Definition history : list Event :=
  [ Upload (jpeg "cat.jpg") None (Some ("[" ++ quoted "pets" ++ "]")) "bob";
    Tick 7;
    Modify (uuid_of 0) caption "bob" ].

(** The record a second upload by bob returns after [history]. *)
Definition dog_record : Media.doc :=
  {| Media.id := uuid_of 1; Media.mediaType := "image"; Media.userId := "bob";
     Media.originalFileName := "dog.jpg"; Media.fileName := "bob/dog.jpg";
     Media.mimeType := "image/jpeg"; Media.fileSize := 3%Z;
     Media.description := None;
     Media.blobUrl := "https://blobs.example/bob/dog.jpg";
     Media.tags := None;
     Media.thumbnailUrl := Some "https://blobs.example/bob/thumb_dog.jpg";
     Media.uploadedAt := 10; Media.updatedAt := 10 |}.

(** ** The specification's reading of a search match *)

(** The match as the specification words it: the term is a substring of the
    file name or of the description, ignoring case, or equals a tag,
    ignoring case. *)
Definition spec_search_match (term : string) (d : Media.doc) : bool :=
  orb (orb (Str.contains (Str.lower (Media.originalFileName d)) (Str.lower term))
           (match Media.description d with
            | Some t => Str.contains (Str.lower t) (Str.lower term)
            | None => false
            end))
      (match Media.tags d with
       | Some ts =>
           existsb (fun v => match v with
                             | JStr t => String.eqb (Str.lower t) (Str.lower term)
                             | _ => false
                             end) ts
       | None => false
       end).

(** The match the query of [search_media] computes: tags compare exactly. *)
Definition code_search_match (term : string) (d : Media.doc) : bool :=
  orb (orb (Str.contains (Str.lower (Media.originalFileName d)) (Str.lower term))
           (match Media.description d with
            | Some t => Str.contains (Str.lower t) (Str.lower term)
            | None => false
            end))
      (match Media.tags d with
       | Some ts =>
           existsb (fun v => match v with
                             | JStr t => String.eqb t term
                             | _ => false
                             end) ts
       | None => false
       end).

(** ** Pages of a listing *)

(** The documents of [user_id], of media type [media_type] when one is
    given: the filter the specification gives [listMedia]. *)
Definition in_listing (user_id : string) (media_type : option string)
    (d : Media.doc) : bool :=
  andb (String.eqb (Media.userId d) user_id)
       (match media_type with
        | Some t => String.eqb (Media.mediaType d) t
        | None => true
        end).

(** The [k]-th window of [s] elements, counting from 0. *)
Definition window {A} (s k : nat) (l : list A) : list A :=
  firstn s (skipn (k * s) l).

(** The number of pages of [s] elements that [n] elements fill. *)
Definition page_count (n s : nat) : nat := (n + s - 1) / s.

Definition rows_of {W} (r : Result (list Media.doc * Z) * W) : list Media.doc :=
  match fst r with
  | Ok (l, _) => l
  | Raise _ => []
  end.

(** ** Notions for the endpoint properties *)

Section EndpointNotions.

Context {storage : Storage} {utils : Utils} {auth : Auth} {uuid : Uuid}.

(** A computation [preserves] a relation between worlds when the world it
    leaves is related to the world it started in. *)
Definition preserves {A} (R : World -> World -> Prop) (m : M A) : Prop :=
  forall w, R w (snd (m w)).

Definition preorder (R : World -> World -> Prop) : Prop :=
  (forall w, R w w) /\ (forall a b c, R a b -> R b c -> R a c).

(** Everything but the log is the same. *)
Definition same_data (w w' : World) : Prop :=
  users_container w' = users_container w /\
  media_container w' = media_container w /\
  blob_container w' = blob_container w /\
  clock w' = clock w /\
  uuid_calls w' = uuid_calls w.

(** The accounts are the same. *)
Definition same_users (w w' : World) : Prop :=
  users_container w' = users_container w.

(** The metadata, the accounts, the clock and the generator are the same:
    only blobs and the log may differ. *)
Definition same_index (w w' : World) : Prop :=
  users_container w' = users_container w /\
  media_container w' = media_container w /\
  clock w' = clock w /\
  uuid_calls w' = uuid_calls w.

(** The documents of every owner other than [user_id] are the same. *)
Definition others_kept (user_id : string) (w w' : World) : Prop :=
  forall d, Media.userId d <> user_id ->
            (In d (media_container w') <-> In d (media_container w)).

(** The [except] clauses of [process_file_upload]. *)
Definition upload_failed (e : Exn) : M Media.doc :=
  if is_HTTPException e then raise e
  else internal_error "File upload failed: "
         ("Failed to upload media: " ++ exn_str e) e.

(** The [except] clauses of [remove_media_file]. *)
Definition remove_failed (e : Exn) : M unit :=
  if is_HTTPException e then raise e
  else internal_error "Media deletion error: " "Failed to delete media" e.

(** The record [process_file_upload] builds. *)
Definition new_record (uploaded_file : UploadFile.t) (content_type : string)
    (size_in_bytes : Z) (file_description : option string)
    (parsed_tags : option (list JSON)) (stored : string * string)
    (preview_url : option string) (current_user record_id : string)
    (current_time : Time) : Media.doc :=
  {| Media.id := record_id;
     Media.mediaType := content_type;
     Media.userId := current_user;
     Media.originalFileName := UploadFile.filename uploaded_file;
     Media.fileName := fst stored;
     Media.mimeType := UploadFile.content_type uploaded_file;
     Media.fileSize := size_in_bytes;
     Media.description := file_description;
     Media.blobUrl := snd stored;
     Media.tags := parsed_tags;
     Media.thumbnailUrl := preview_url;
     Media.uploadedAt := current_time;
     Media.updatedAt := current_time |}.

(** The preview URL a thumbnail step returned. *)
Definition preview_of (r : Result (option string)) : option string :=
  match r with
  | Ok pv => pv
  | Raise _ => None
  end.

(** The identity a request is made under, for the requests that carry one. *)
Definition caller (ev : Event) : option string :=
  match ev with
  | Upload _ _ _ u | Search _ _ _ u | Listing _ _ _ u
  | Fetch _ u | Modify _ _ u | Remove _ u => Some u
  | Tick _ | Register _ | Login _ => None
  end.

End EndpointNotions.

Section AccountNotions.

Context {storage : Storage} {utils : Utils} {auth : Auth} {uuid : Uuid}.

(** The account record [create_user_account] builds. *)
Definition new_account (registration_data : AccountRegistration)
    (new_user_id : string) (timestamp : Time) : User.doc :=
  {| User.id := new_user_id;
     User.email := reg_email registration_data;
     User.username := reg_username registration_data;
     User.hashed_password := get_password_hash (reg_password registration_data);
     User.created_at := timestamp |}.

(** The credentials a registered user logs in with. *)
Definition credentials_of (registration_data : AccountRegistration) : CredentialsInput :=
  {| cred_password := reg_password registration_data;
     cred_email := reg_email registration_data |}.

(** No two accounts share an email or an id. *)
Definition accounts_distinct (w : World) : Prop :=
  NoDup (map User.email (users_container w)) /\
  NoDup (map User.id (users_container w)).

End AccountNotions.

(** [name] matches in [before ++ name] at a position inside [before]. *)
Fixpoint occurs_early (name before : string) : bool :=
  match before with
  | EmptyString => false
  | String _ rest =>
      orb (String.prefix name (before ++ name)) (occurs_early name rest)
  end.

(** ** Further worlds of the reference deployment *)

(** A blob container that holds one blob and refuses a second. *)
Definition capped_storage : Storage := {|
  Blobs := list (string * string);
  upload_file := fun data user_id file_name _ b =>
    let name := blob_name user_id file_name in
    if Nat.ltb (List.length b) 1
    then (Ok (name, "https://blobs.example/" ++ name), (name, data) :: b)
    else (Raise (OtherError "ContainerFull"), b);
  delete_file := fun name b =>
    if has_blob name b then (Ok tt, drop_blob name b)
    else (Raise (OtherError "BlobNotFound"), b)
|}.

Definition capped_empty : @World capped_storage :=
  {| users_container := []; media_container := [];
     blob_container := ([] : @Blobs capped_storage);
     logs := []; clock := 2; uuid_calls := 0 |}.

Definition capped_full : @World capped_storage :=
  {| users_container := []; media_container := [];
     blob_container := ([("carol/old.jpg", "zzz")] : @Blobs capped_storage);
     logs := []; clock := 2; uuid_calls := 0 |}.

(** The record of an upload to [capped_empty] whose thumbnail is refused. *)
Definition capped_record : Media.doc :=
  new_record (jpeg "cat.jpg") "image" 3%Z None None
    ("bob/cat.jpg", "https://blobs.example/bob/cat.jpg") None "bob" (uuid_of 0) 2.

(** A description of 501 characters. *)
Definition long_text : string := string_of_list_ascii (repeat "x"%char 501).

(** A stored document with that description, and a world that holds it. *)
Definition wordy_photo : Media.doc :=
  {| Media.id := "m7"; Media.mediaType := "image"; Media.userId := "bob";
     Media.originalFileName := "cat.jpg"; Media.fileName := "bob/cat.jpg";
     Media.mimeType := "image/jpeg"; Media.fileSize := 3%Z;
     Media.description := Some long_text;
     Media.blobUrl := "https://blobs.example/bob/cat.jpg";
     Media.tags := None; Media.thumbnailUrl := None;
     Media.uploadedAt := 4; Media.updatedAt := 4 |}.

Definition wordy_world : World :=
  {| users_container := []; media_container := [wordy_photo];
     blob_container := [("bob/cat.jpg", "abc")];
     logs := []; clock := 9; uuid_calls := 8 |}.

(** A text file, which the validator refuses. *)
Definition notes_txt : UploadFile.t :=
  {| UploadFile.filename := "notes.txt"; UploadFile.content_type := "text/plain";
     UploadFile.file := "abc" |}.

(** The record bob's upload of cat.jpg to [alice_world] returns, and the
    world it leaves. *)
Definition cat_record : Media.doc :=
  new_record (jpeg "cat.jpg") "image" 3%Z None None
    ("bob/cat.jpg", "https://blobs.example/bob/cat.jpg")
    (Some "https://blobs.example/bob/thumb_cat.jpg") "bob" (uuid_of 1) 20.

Definition cat_world : World :=
  snd (process_file_upload (jpeg "cat.jpg") None None "bob" alice_world).

(** Alice's photo beside a document of bob's. *)
Definition shared_world : World :=
  {| users_container := []; media_container := [alice_photo; wordy_photo];
     blob_container := [("alice/IMG_0001.jpg", "abc"); ("alice/thumb_IMG_0001.jpg", "a");
                        ("bob/cat.jpg", "abc")];
     logs := []; clock := 20; uuid_calls := 8 |}.

(** A new member, and the attempt to register alice's email again. *)
Definition bob_registration : AccountRegistration :=
  {| reg_email := "bob@example.com"; reg_username := "bob";
     reg_password := "tr0ub4dor" |}.

Definition alice_again : AccountRegistration :=
  {| reg_email := "alice@example.com"; reg_username := "alice2";
     reg_password := "other" |}.

Definition right_password : CredentialsInput :=
  {| cred_password := "correct horse"; cred_email := "alice@example.com" |}.

Definition alice_token : AuthenticationToken :=
  {| user := profile_of alice_account;
     token := create_access_token "alice@example.com" "u1" |}.

(** * Properties *)

Section Properties.

Context {storage : Storage} {utils : Utils} {auth : Auth} {uuid : Uuid}.

Implicit Types (w : World) (d : Media.doc).

(** ** Point reads *)

Lemma get_media_by_id_spec record_id owner_id w :
  get_media_by_id record_id owner_id w
  = (Ok (find (media_item_is record_id owner_id) (media_container w)), w).
Proof.
  unfold get_media_by_id, try_except, bind, read_item, ret.
  destruct (find _ _); reflexivity.
Qed.

Lemma media_item_is_true item pk d :
  media_item_is item pk d = true <-> Media.id d = item /\ Media.userId d = pk.
Proof.
  unfold media_item_is. rewrite andb_true_iff, !String.eqb_eq. tauto.
Qed.

Lemma found_is_owned item pk l d :
  find (media_item_is item pk) l = Some d ->
  In d l /\ Media.id d = item /\ Media.userId d = pk.
Proof.
  intros F. apply find_some in F. destruct F as [I F].
  apply media_item_is_true in F. tauto.
Qed.

Lemma fetch_media_details_spec media_id owner_id w :
  fetch_media_details media_id owner_id w
  = match find (media_item_is media_id owner_id) (media_container w) with
    | None => (Raise (HTTPException HTTP_404_NOT_FOUND "Media not found"), w)
    | Some d =>
        match ContentRecord d with
        | Ok d' => (Ok d', w)
        | Raise e =>
            internal_error "Media retrieval error: " "Failed to retrieve media" e w
        end
    end.
Proof.
  unfold fetch_media_details, try_except, bind.
  rewrite get_media_by_id_spec.
  destruct (find _ _) as [d|] eqn:F; [|reflexivity].
  apply found_is_owned in F. destruct F as (_ & _ & U).
  apply String.eqb_eq in U. rewrite U. simpl.
  unfold lift, ContentRecord.
  destruct (andb _ _); reflexivity.
Qed.

(** The ownership comparison of [fetch_media_details] never fires: a point
    read under the caller's partition key returns the caller's documents
    only. *)
Lemma fetch_never_forbidden media_id owner_id w detail :
  fst (fetch_media_details media_id owner_id w)
  <> Raise (HTTPException HTTP_403_FORBIDDEN detail).
Proof.
  rewrite fetch_media_details_spec.
  destruct (find _ _) as [d|]; [|discriminate].
  unfold ContentRecord. destruct (andb _ _); simpl; discriminate.
Qed.

(** ** Ordering and windows *)

Lemma insert_desc_perm d l : Permutation (insert_desc d l) (d :: l).
Proof.
  induction l as [|x l IH]; simpl; [apply Permutation_refl|].
  destruct (Nat.leb _ _); [apply Permutation_refl|].
  eapply Permutation_trans; [apply perm_skip, IH | apply perm_swap].
Qed.

Lemma order_by_desc_perm l : Permutation (order_by_desc l) l.
Proof.
  induction l as [|d l IH]; simpl; [constructor|].
  eapply Permutation_trans; [apply insert_desc_perm | apply perm_skip, IH].
Qed.

Lemma insert_desc_sorted d l :
  StronglySorted later_first l -> StronglySorted later_first (insert_desc d l).
Proof.
  induction 1 as [|x l S IH H]; simpl.
  - constructor; constructor.
  - destruct (Nat.leb (Media.uploadedAt x) (Media.uploadedAt d)) eqn:C.
    + apply Nat.leb_le in C. constructor.
      * constructor; [exact S | exact H].
      * constructor; [exact C|].
        eapply Forall_impl; [|exact H]. unfold later_first. intros; lia.
    + apply Nat.leb_gt in C. constructor; [exact IH|].
      apply (Permutation_Forall (Permutation_sym (insert_desc_perm d l))).
      constructor; [unfold later_first; lia | exact H].
Qed.

Lemma order_by_desc_sorted l : StronglySorted later_first (order_by_desc l).
Proof.
  induction l as [|d l IH]; simpl; [constructor|].
  apply insert_desc_sorted, IH.
Qed.

Lemma firstn_plus {A} (a b : nat) (l : list A) :
  firstn (a + b) l = (firstn a l ++ firstn b (skipn a l))%list.
Proof.
  revert l. induction a as [|a IH]; intros l; [reflexivity|].
  destruct l as [|x l]; simpl.
  - rewrite firstn_nil. reflexivity.
  - f_equal. apply IH.
Qed.

Lemma windows_concat {A} (s n : nat) (l : list A) :
  List.concat (map (fun k => window s k l) (seq 0 n)) = firstn (n * s) l.
Proof.
  induction n as [|n IH]; [reflexivity|].
  rewrite seq_S, map_app, concat_app, IH. simpl.
  rewrite app_nil_r. unfold window.
  replace (s + n * s)%nat with (n * s + s)%nat by lia.
  symmetry. apply firstn_plus.
Qed.

Lemma page_count_covers n s : (1 <= s -> n <= page_count n s * s)%nat.
Proof.
  intros S. unfold page_count.
  pose proof (Nat.mul_succ_div_gt (n + s - 1) s ltac:(lia)) as H. nia.
Qed.

Lemma windows_partition {A} (s : nat) (l : list A) :
  (1 <= s)%nat ->
  List.concat (map (fun k => window s k l) (seq 0 (page_count (List.length l) s))) = l.
Proof.
  intros S. rewrite windows_concat. apply firstn_all2.
  apply page_count_covers, S.
Qed.

(** ** Queries *)

Lemma paged_query_spec c off lim w :
  (0 <= off)%Z -> (0 <= lim)%Z ->
  query_items
    (with_offset_limit
       {| where_ := c; order_by_uploadedAt_desc := true; offset_limit := None |}
       off lim) w
  = (Ok (firstn (Z.to_nat lim)
           (skipn (Z.to_nat off)
              (order_by_desc (filter (selects c) (media_container w))))), w).
Proof.
  intros O L. unfold query_items, with_offset_limit, ordered. simpl.
  destruct (Z.ltb_spec off 0); [lia|].
  destruct (Z.ltb_spec lim 0); [lia|]. reflexivity.
Qed.

Lemma offset_is_window page page_size :
  (1 <= page)%Z -> (0 <= page_size)%Z ->
  Z.to_nat ((page - 1) * page_size) = ((Z.to_nat page - 1) * Z.to_nat page_size)%nat.
Proof.
  intros P S. rewrite Z2Nat.inj_mul by lia. f_equal. lia.
Qed.

Lemma get_user_media_spec user_id page page_size media_type w :
  (1 <= page)%Z -> (0 <= page_size)%Z ->
  let matching :=
    filter (selects (listing_where user_id media_type)) (media_container w) in
  get_user_media user_id page page_size media_type w
  = (Ok (window (Z.to_nat page_size) (Z.to_nat page - 1) (order_by_desc matching),
         Z.of_nat (List.length matching)), w).
Proof.
  intros P S matching.
  unfold get_user_media, try_except, bind.
  fold (listing_where user_id media_type).
  unfold query_count at 1. cbn [where_ first_or_zero].
  rewrite paged_query_spec by nia.
  rewrite offset_is_window by lia. reflexivity.
Qed.

Lemma selects_listing user_id media_type d :
  media_type <> Some "" ->
  selects (listing_where user_id media_type) d = in_listing user_id media_type d.
Proof.
  intros NE. unfold selects, listing_where, in_listing.
  destruct media_type as [[|c t]|]; simpl.
  - congruence.
  - destruct (String.eqb (Media.userId d) user_id),
             (String.eqb (Media.mediaType d) (String c t)); reflexivity.
  - rewrite andb_true_r. destruct (String.eqb _ _); reflexivity.
Qed.

Lemma selects_search user_id query d :
  selects (search_where user_id query) d
  = andb (String.eqb (Media.userId d) user_id) (code_search_match query d).
Proof.
  unfold selects, search_where, code_search_match.
  cbn [eval_cond eval_str option_map].
  destruct (Media.description d) as [t|], (Media.tags d) as [ts|];
    cbn [option_map]; unfold array_contains;
    repeat match goal with
           | |- context [String.eqb ?a ?b] => destruct (String.eqb a b)
           | |- context [Str.contains ?a ?b] => destruct (Str.contains a b)
           | |- context [existsb ?f ?l] => destruct (existsb f l)
           end; reflexivity.
Qed.

Lemma search_media_spec user_id query page page_size w :
  (1 <= page)%Z -> (0 <= page_size)%Z ->
  let matching :=
    filter (fun d => andb (String.eqb (Media.userId d) user_id)
                          (code_search_match query d)) (media_container w) in
  search_media user_id query page page_size w
  = (Ok (window (Z.to_nat page_size) (Z.to_nat page - 1) (order_by_desc matching),
         Z.of_nat (List.length matching)), w).
Proof.
  intros P S matching.
  unfold search_media, try_except, bind.
  unfold query_count at 1. cbn [where_ first_or_zero].
  rewrite paged_query_spec by nia.
  rewrite offset_is_window by lia.
  unfold matching.
  rewrite (filter_ext _ _ (selects_search user_id query)). reflexivity.
Qed.

Lemma order_by_desc_length l : List.length (order_by_desc l) = List.length l.
Proof. apply Permutation_length, order_by_desc_perm. Qed.

Lemma window_past_the_end {A} (s k : nat) (l : list A) :
  (List.length l <= k * s)%nat -> window s k l = [].
Proof.
  intros H. unfold window. rewrite skipn_all2 by exact H. apply firstn_nil.
Qed.

(** C4. For a page size between 1 and 100 and an optional type filter, the
    rows that [get_user_media] pages through are the owner's documents of
    that type, latest upload first; page [p >= 1] holds the rows at positions
    [(p-1)*s .. (p-1)*s + s), the total is the number of all such documents
    whatever the page, and pages 1 to ceil(N/s) put end to end give every
    row once, in order. *)
Theorem listing_pages_partition_the_ordered_rows
    user_id media_type page_size w :
  (1 <= page_size <= 100)%Z ->
  media_type <> Some "" ->
  let matching := filter (in_listing user_id media_type) (media_container w) in
  let rows := order_by_desc matching in
  let s := Z.to_nat page_size in
  Permutation rows matching /\
  StronglySorted later_first rows /\
  (forall page, (1 <= page)%Z ->
     get_user_media user_id page page_size media_type w
     = (Ok (firstn s (skipn ((Z.to_nat page - 1) * s) rows),
            Z.of_nat (List.length matching)), w)) /\
  List.concat
    (map (fun p => rows_of (get_user_media user_id (Z.of_nat p) page_size media_type w))
         (seq 1 (page_count (List.length matching) s)))
  = rows.
Proof.
  intros Hs NE matching rows s.
  assert (E : filter (selects (listing_where user_id media_type)) (media_container w)
              = matching).
  { apply filter_ext. intros d. apply selects_listing, NE. }
  assert (G : forall page, (1 <= page)%Z ->
     get_user_media user_id page page_size media_type w
     = (Ok (window s (Z.to_nat page - 1) rows, Z.of_nat (List.length matching)), w)).
  { intros page P. rewrite get_user_media_spec by lia. cbv zeta.
    rewrite E. reflexivity. }
  split; [apply order_by_desc_perm|].
  split; [apply order_by_desc_sorted|].
  split; [exact G|].
  transitivity
    (List.concat (map (fun k => window s k rows)
                      (seq 0 (page_count (List.length rows) s)))).
  - unfold rows at 2. rewrite order_by_desc_length.
    rewrite <- seq_shift, map_map. f_equal. apply map_ext_in.
    intros k _. rewrite G by lia. unfold rows_of. cbn [fst].
    rewrite Nat2Z.id, Nat.sub_1_r. reflexivity.
  - apply windows_partition. lia.
Qed.

(** C10. A page that starts at or past the end of the result is served, not
    refused: with N documents selected by the listing filter (or by the
    search), and (page-1)*page_size >= N, [get_user_media] (or
    [search_media]) returns no rows together with the total N. *)
Theorem page_past_the_end_is_empty_with_total
    user_id media_type query page page_size w :
  (1 <= page)%Z -> (1 <= page_size)%Z ->
  let listed :=
    List.length (filter (selects (listing_where user_id media_type)) (media_container w)) in
  let found :=
    List.length (filter (selects (search_where user_id query)) (media_container w)) in
  ((Z.of_nat listed <= (page - 1) * page_size)%Z ->
   get_user_media user_id page page_size media_type w = (Ok ([], Z.of_nat listed), w)) /\
  ((Z.of_nat found <= (page - 1) * page_size)%Z ->
   search_media user_id query page page_size w = (Ok ([], Z.of_nat found), w)).
Proof.
  intros P S listed found. split; intros H.
  - rewrite get_user_media_spec by lia. cbv zeta.
    rewrite window_past_the_end; [reflexivity|].
    rewrite order_by_desc_length. fold listed. nia.
  - rewrite search_media_spec by lia. cbv zeta.
    rewrite <- (filter_ext _ _ (selects_search user_id query)).
    rewrite window_past_the_end; [reflexivity|].
    rewrite order_by_desc_length. fold found. nia.
Qed.

(** ** Updates *)

Lemma find_existsb {A} (p : A -> bool) l x :
  find p l = Some x -> existsb p l = true.
Proof.
  intros F. apply find_some in F. apply existsb_exists. exists x. exact F.
Qed.

Lemma find_none_existsb {A} (p : A -> bool) l :
  find p l = None -> existsb p l = false.
Proof.
  intros F. destruct (existsb p l) eqn:E; [|reflexivity].
  apply existsb_exists in E. destruct E as (x & I & Px).
  rewrite (find_none _ _ F _ I) in Px. discriminate.
Qed.

Lemma update_media_spec record_id owner_id m w :
  update_media record_id owner_id m w
  = match find (media_item_is record_id owner_id) (media_container w) with
    | None => (Raise (ValueError "Media not found"), w)
    | Some current =>
        (Ok (dict_update current m),
         set_media (replaced record_id owner_id (dict_update current m)
                             (media_container w)) w)
    end.
Proof.
  unfold update_media, try_except, bind.
  rewrite get_media_by_id_spec.
  destruct (find _ _) as [cur|] eqn:F; [|reflexivity].
  unfold replace_item. simpl Media.userId.
  destruct (found_is_owned _ _ _ _ F) as (_ & _ & U). rewrite U.
  rewrite (find_existsb _ _ _ F). reflexivity.
Qed.

Lemma modify_media_info_spec media_id u owner_id w :
  modify_media_info media_id u owner_id w
  = match find (media_item_is media_id owner_id) (media_container w) with
    | None => (Raise (HTTPException HTTP_404_NOT_FOUND "Media not found"), w)
    | Some old =>
        let new := dict_update old (payload (clock w) u) in
        let w' := set_media (replaced media_id owner_id new (media_container w)) w in
        match ContentRecord new with
        | Ok r => (Ok r, w')
        | Raise e => (Raise (HTTPException HTTP_404_NOT_FOUND (exn_str e)), w')
        end
    end.
Proof.
  unfold modify_media_info, try_except, bind.
  rewrite get_media_by_id_spec.
  destruct (find _ _) as [old|] eqn:F; [|reflexivity].
  destruct (found_is_owned _ _ _ _ F) as (_ & _ & U).
  apply String.eqb_eq in U. rewrite U. cbn [negb]. cbv beta iota.
  unfold utcnow. cbv beta iota. rewrite update_media_spec, F.
  fold (payload (clock w) u).
  unfold lift, ContentRecord. cbv zeta.
  destruct (andb _ _); reflexivity.
Qed.

Lemma find_replaced item pk body l old :
  find (media_item_is item pk) l = Some old ->
  media_item_is item pk body = true ->
  find (media_item_is item pk) (replaced item pk body l) = Some body.
Proof.
  intros F B. induction l as [|x l IH]; simpl in *; [discriminate|].
  destruct (media_item_is item pk x) eqn:X.
  - rewrite B. reflexivity.
  - rewrite X. apply IH. exact F.
Qed.

Lemma in_replaced_other item pk body l d :
  media_item_is item pk d = false ->
  media_item_is item pk body = true ->
  In d (replaced item pk body l) <-> In d l.
Proof.
  intros D B. unfold replaced. rewrite in_map_iff. split.
  - intros (x & E & I). destruct (media_item_is item pk x) eqn:X.
    + subst d. congruence.
    + subst x. exact I.
  - intros I. exists d. rewrite D. auto.
Qed.

(** ** Deletion *)

Lemma delete_media_spec record_id owner_id w :
  delete_media record_id owner_id w
  = if existsb (media_item_is record_id owner_id) (media_container w)
    then (Ok true,
          set_media (filter (fun d => negb (media_item_is record_id owner_id d))
                            (media_container w)) w)
    else (Ok false, w).
Proof.
  unfold delete_media, try_except, bind, delete_item.
  destruct (existsb _ _); reflexivity.
Qed.

Lemma find_after_delete item pk l :
  find (media_item_is item pk)
       (filter (fun d => negb (media_item_is item pk d)) l) = None.
Proof.
  induction l as [|x l IH]; simpl; [reflexivity|].
  destruct (media_item_is item pk x) eqn:X; simpl; [exact IH|].
  rewrite X. exact IH.
Qed.

(** C6. A successful update changes, in the stored record, nothing but
    [description], [tags] and [updatedAt]: the id, the media type, the size,
    the owner, both file names, both URLs, the MIME type and the upload time
    are those of the record before; a field the request leaves out keeps its
    value; and every other document of the container is untouched. *)
Theorem update_touches_only_description_tags_updatedAt
    media_id u owner_id w r w' :
  modify_media_info media_id u owner_id w = (Ok r, w') ->
  exists old,
    find (media_item_is media_id owner_id) (media_container w) = Some old /\
    find (media_item_is media_id owner_id) (media_container w') = Some r /\
    (Media.id r = Media.id old /\
     Media.mediaType r = Media.mediaType old /\
     Media.fileSize r = Media.fileSize old /\
     Media.userId r = Media.userId old /\
     Media.originalFileName r = Media.originalFileName old /\
     Media.fileName r = Media.fileName old /\
     Media.blobUrl r = Media.blobUrl old /\
     Media.thumbnailUrl r = Media.thumbnailUrl old /\
     Media.mimeType r = Media.mimeType old /\
     Media.uploadedAt r = Media.uploadedAt old) /\
    (mod_description u = None -> Media.description r = Media.description old) /\
    (mod_tags u = None -> Media.tags r = Media.tags old) /\
    (forall d, media_item_is media_id owner_id d = false ->
               (In d (media_container w') <-> In d (media_container w))).
Proof.
  rewrite modify_media_info_spec.
  destruct (find _ _) as [old|] eqn:F; [|discriminate].
  cbv zeta. unfold ContentRecord.
  destruct (andb _ _); [|discriminate].
  intros E. injection E as <- <-.
  assert (B : media_item_is media_id owner_id
                (dict_update old (payload (clock w) u)) = true).
  { apply media_item_is_true. simpl. apply found_is_owned in F. tauto. }
  exists old. split; [reflexivity|]. split.
  { simpl. eapply find_replaced; eassumption. }
  split; [simpl; repeat split|]. split; [|split].
  - intros N. simpl. rewrite N. reflexivity.
  - intros N. simpl. rewrite N. reflexivity.
  - intros d D. simpl. apply in_replaced_other; assumption.
Qed.

Lemma remove_when_content_blob_fails media_id owner_id w d e b :
  find (media_item_is media_id owner_id) (media_container w) = Some d ->
  delete_file (Media.fileName d) (blob_container w) = (Raise e, b) ->
  remove_media_file media_id owner_id w
  = (if is_HTTPException e then raise e
     else internal_error "Media deletion error: " "Failed to delete media" e)
      (set_blobs b w).
Proof.
  intros F D.
  assert (U : String.eqb (Media.userId d) owner_id = true).
  { apply String.eqb_eq. apply found_is_owned in F. tauto. }
  unfold remove_media_file, try_except, bind.
  rewrite get_media_by_id_spec, F, U. cbn [negb]. cbv beta iota.
  unfold blob_delete at 1. rewrite D. reflexivity.
Qed.

Lemma remove_when_thumbnail_blob_fails media_id owner_id w d b1 e b2 :
  find (media_item_is media_id owner_id) (media_container w) = Some d ->
  delete_file (Media.fileName d) (blob_container w) = (Ok tt, b1) ->
  truthy (Media.thumbnailUrl d) = true ->
  delete_file (thumb_identifier d) b1 = (Raise e, b2) ->
  remove_media_file media_id owner_id w
  = (Ok tt,
     set_media
       (filter (fun x => negb (media_item_is media_id owner_id x)) (media_container w))
       (snd (logger WARNING ("Thumbnail deletion failed: " ++ exn_str e)
                    (set_blobs b2 w)))).
Proof.
  intros F D1 T D2.
  assert (U : String.eqb (Media.userId d) owner_id = true).
  { apply String.eqb_eq. apply found_is_owned in F. tauto. }
  unfold remove_media_file, try_except, bind.
  rewrite get_media_by_id_spec, F, U. cbn [negb]. cbv beta iota.
  unfold blob_delete at 1. rewrite D1, T.
  unfold blob_delete. cbn [blob_container set_blobs]. rewrite D2.
  unfold logger. rewrite delete_media_spec.
  cbn [media_container set_blobs].
  rewrite (find_existsb _ _ _ F). reflexivity.
Qed.

(** C5. On a record the caller owns: when the deletion of the content blob
    raises, the request fails and the metadata container is as before; when
    the content blob is deleted and only the deletion of the thumbnail blob
    raises, a warning is logged, the request succeeds and the record is gone
    from the container. *)
Theorem delete_surfaces_content_failure_and_tolerates_thumbnail_failure
    media_id owner_id w d :
  find (media_item_is media_id owner_id) (media_container w) = Some d ->
  (forall e b,
      delete_file (Media.fileName d) (blob_container w) = (Raise e, b) ->
      fst (remove_media_file media_id owner_id w)
      = Raise (if is_HTTPException e then e
               else HTTPException HTTP_500_INTERNAL_SERVER_ERROR "Failed to delete media") /\
      media_container (snd (remove_media_file media_id owner_id w))
      = media_container w) /\
  (forall b1 e b2,
      delete_file (Media.fileName d) (blob_container w) = (Ok tt, b1) ->
      truthy (Media.thumbnailUrl d) = true ->
      delete_file (thumb_identifier d) b1 = (Raise e, b2) ->
      fst (remove_media_file media_id owner_id w) = Ok tt /\
      In (WARNING, "Thumbnail deletion failed: " ++ exn_str e)
         (logs (snd (remove_media_file media_id owner_id w))) /\
      find (media_item_is media_id owner_id)
           (media_container (snd (remove_media_file media_id owner_id w))) = None /\
      media_container (snd (remove_media_file media_id owner_id w))
      = filter (fun x => negb (media_item_is media_id owner_id x)) (media_container w)).
Proof.
  intros F.
  assert (U : String.eqb (Media.userId d) owner_id = true).
  { apply String.eqb_eq. apply found_is_owned in F. tauto. }
  split.
  - intros e b D.
    rewrite (remove_when_content_blob_fails media_id owner_id w d e b F D).
    destruct e; simpl; split; reflexivity.
  - intros b1 e b2 D1 T D2.
    rewrite (remove_when_thumbnail_blob_fails media_id owner_id w d b1 e b2 F D1 T D2).
    cbn [fst snd logs media_container set_media set_blobs].
    split; [reflexivity|]. split; [|split].
    + apply in_or_app. right. left. reflexivity.
    + apply find_after_delete.
    + reflexivity.
Qed.

(** ** Login *)

Lemma get_user_by_email_unknown email_address w :
  (forall u, In u (users_container w) -> User.email u <> email_address) ->
  get_user_by_email email_address w = (Ok None, w).
Proof.
  intros H. unfold get_user_by_email.
  replace (filter _ (users_container w)) with (@nil User.doc); [reflexivity|].
  symmetry. induction (users_container w) as [|u l IH]; [reflexivity|]. simpl.
  destruct (String.eqb_spec (User.email u) email_address) as [E|_].
  - exfalso. apply (H u); [left; reflexivity | exact E].
  - apply IH. intros v I. apply H. right. exact I.
Qed.

Lemma get_user_by_email_known email_address w :
  (exists u, In u (users_container w) /\ User.email u = email_address) ->
  exists account,
    get_user_by_email email_address w = (Ok (Some account), w) /\
    In account (users_container w) /\ User.email account = email_address.
Proof.
  intros (u & I & E). unfold get_user_by_email.
  destruct (filter _ (users_container w)) as [|a r] eqn:F.
  - exfalso. assert (X : In u (@nil User.doc)); [|exact X].
    rewrite <- F. apply filter_In. split; [exact I|].
    apply String.eqb_eq, E.
  - exists a. split; [reflexivity|].
    assert (X : In a (filter (fun u => String.eqb (User.email u) email_address)
                             (users_container w))).
    { rewrite F. left. reflexivity. }
    apply filter_In in X. destruct X as [X Y].
    apply String.eqb_eq in Y. tauto.
Qed.

(** C9. A login with an email that no account has and a login with an
    existing email and a password that verifies against none of the accounts
    holding it get the same answer: status 401 with the one message
    "Invalid email or password". *)
Theorem login_failures_are_indistinguishable unknown known w1 w2 :
  (forall u, In u (users_container w1) -> User.email u <> cred_email unknown) ->
  (exists u, In u (users_container w2) /\ User.email u = cred_email known) ->
  (forall u, In u (users_container w2) -> User.email u = cred_email known ->
             verify_password (cred_password known) (User.hashed_password u) = false) ->
  fst (authenticate_user unknown w1) = fst (authenticate_user known w2) /\
  fst (authenticate_user unknown w1)
  = Raise (HTTPException HTTP_401_UNAUTHORIZED "Invalid email or password").
Proof.
  intros U K V.
  assert (A1 : fst (authenticate_user unknown w1)
               = Raise (HTTPException HTTP_401_UNAUTHORIZED "Invalid email or password")).
  { unfold authenticate_user, try_except, bind, logger.
    rewrite get_user_by_email_unknown; [reflexivity|].
    exact U. }
  assert (A2 : fst (authenticate_user known w2)
               = Raise (HTTPException HTTP_401_UNAUTHORIZED "Invalid email or password")).
  { destruct (get_user_by_email_known (cred_email known) w2 K) as (a & G & I & E).
    unfold authenticate_user, try_except, bind, logger.
    unfold get_user_by_email in *. cbn [users_container] in *.
    injection G as G. rewrite G.
    rewrite (V a I E). reflexivity. }
  rewrite A1, A2. split; reflexivity.
Qed.

(** ** Tags of an upload *)

Lemma parse_tags_undecodable c text w :
  Json.loads (String c text) = None ->
  parse_tags (Some (String c text)) w
  = (Raise (HTTPException HTTP_400_BAD_REQUEST
              "Invalid tags format. Must be a JSON array."), w).
Proof.
  intros L. unfold parse_tags, try_except. rewrite L. reflexivity.
Qed.

Lemma parse_tags_not_an_array c text v w :
  Json.loads (String c text) = Some v -> is_list v = false ->
  parse_tags (Some (String c text)) w
  = (Raise (ValueError "Tags must be an array"), w).
Proof.
  intros L N. unfold parse_tags, try_except. rewrite L.
  destruct v; try reflexivity. discriminate.
Qed.

(** Tags that do not decode are refused with 400 before any write. *)
Lemma upload_with_undecodable_tags f description c text user_id w t n :
  validate_file_type f = Ok t -> validate_file_size f = Ok n ->
  Json.loads (String c text) = None ->
  process_file_upload f description (Some (String c text)) user_id w
  = (Raise (HTTPException HTTP_400_BAD_REQUEST
              "Invalid tags format. Must be a JSON array."), w).
Proof.
  intros T N L. unfold process_file_upload, try_except, bind, lift.
  rewrite T, N, (parse_tags_undecodable c text w L). reflexivity.
Qed.

(** Tags that decode to something other than an array are refused too, and
    before any write, but through the handler of unexpected errors: the
    answer is 500. *)
Lemma upload_with_non_array_tags f description c text v user_id w t n :
  validate_file_type f = Ok t -> validate_file_size f = Ok n ->
  Json.loads (String c text) = Some v -> is_list v = false ->
  process_file_upload f description (Some (String c text)) user_id w
  = (Raise (HTTPException HTTP_500_INTERNAL_SERVER_ERROR
              "Failed to upload media: Tags must be an array"),
     snd (logger ERROR "File upload failed: Tags must be an array" w)).
Proof.
  intros T N L A. unfold process_file_upload, try_except, bind, lift.
  rewrite T, N, (parse_tags_not_an_array c text v w L A). reflexivity.
Qed.

(** ** What a computation leaves alone *)

Lemma calm_ret {A} (a : A) : calm (ret a).
Proof. intros w. simpl. auto. Qed.

Lemma calm_raise {A} e : calm (@raise _ A e).
Proof. intros w. simpl. auto. Qed.

Lemma calm_lift {A} (r : Result A) : calm (lift r).
Proof. intros w. simpl. auto. Qed.

Lemma calm_logger l msg : calm (logger l msg).
Proof. intros w. simpl. auto. Qed.

Lemma calm_utcnow : calm utcnow.
Proof. intros w. simpl. auto. Qed.

Lemma calm_uuid4 : calm uuid4.
Proof. intros w. simpl. auto. Qed.

Lemma calm_blob_upload data user_id name mime : calm (blob_upload data user_id name mime).
Proof. intros w. unfold blob_upload. destruct (upload_file _ _ _ _ _). simpl. auto. Qed.

Lemma calm_blob_delete name : calm (blob_delete name).
Proof. intros w. unfold blob_delete. destruct (delete_file _ _). simpl. auto. Qed.

Lemma calm_read_item item pk : calm (read_item item pk).
Proof. intros w. unfold read_item. destruct (find _ _); simpl; auto. Qed.

Lemma calm_query_count q : calm (query_count q).
Proof. intros w. simpl. auto. Qed.

Lemma calm_query_items q : calm (query_items q).
Proof.
  intros w. unfold query_items.
  destruct (offset_limit q) as [[off lim]|]; [destruct (orb _ _)|]; simpl; auto.
Qed.

Lemma calm_get_user_by_email email_address : calm (get_user_by_email email_address).
Proof. intros w. simpl. auto. Qed.

Lemma calm_users_create_item body : calm (users_create_item body).
Proof. intros w. unfold users_create_item. destruct (existsb _ _); simpl; auto. Qed.

Lemma calm_bind {A B} (m : M A) (k : A -> M B) :
  calm m -> (forall a, calm (k a)) -> calm (bind m k).
Proof.
  intros Hm Hk w. unfold bind. specialize (Hm w).
  destruct (m w) as [[a|e] w1]; simpl in Hm.
  - specialize (Hk a w1). destruct Hm as (? & ? & ?), Hk as (? & ? & ?).
    repeat split; try congruence; lia.
  - exact Hm.
Qed.

Lemma calm_try {A} (body : M A) (handler : Exn -> M A) :
  calm body -> (forall e, calm (handler e)) -> calm (try_except body handler).
Proof.
  intros Hm Hk w. unfold try_except. specialize (Hm w).
  destruct (body w) as [[a|e] w1]; simpl in Hm.
  - exact Hm.
  - specialize (Hk e w1). destruct Hm as (? & ? & ?), Hk as (? & ? & ?).
    repeat split; try congruence; lia.
Qed.

Lemma calm_log_and_reraise {A} what e : calm (@log_and_reraise _ A what e).
Proof.
  unfold log_and_reraise. destruct (is_CosmosHttpResponseError e).
  - apply calm_bind; [apply calm_logger | intros; apply calm_raise].
  - apply calm_raise.
Qed.

Lemma calm_internal_error {A} prefix detail e : calm (@internal_error _ A prefix detail e).
Proof.
  unfold internal_error.
  apply calm_bind; [apply calm_logger | intros; apply calm_raise].
Qed.

Create HintDb calm discriminated.
#[local] Hint Resolve calm_ret calm_raise calm_lift calm_logger calm_utcnow
  calm_uuid4 calm_blob_upload calm_blob_delete calm_read_item calm_query_count
  calm_query_items calm_get_user_by_email calm_users_create_item
  calm_log_and_reraise calm_internal_error : calm.

(** Splits a computation along its binds, handlers and case analyses and
    closes the leaves with the [calm] database. *)
Ltac calm_steps :=
  cbv zeta;
  repeat first
    [ solve [auto with calm]
    | apply calm_bind; [|intros ?]
    | apply calm_try; [|intros ?]
    | match goal with
      | |- calm (match ?x with _ => _ end) => destruct x
      end ].

Lemma calm_get_media_by_id record_id owner_id : calm (get_media_by_id record_id owner_id).
Proof. unfold get_media_by_id. calm_steps. Qed.

Lemma calm_get_user_media user_id page page_size media_type :
  calm (get_user_media user_id page page_size media_type).
Proof. unfold get_user_media. calm_steps. Qed.

Lemma calm_search_media user_id query page page_size :
  calm (search_media user_id query page page_size).
Proof. unfold search_media. calm_steps. Qed.

Lemma calm_create_user account_data : calm (create_user account_data).
Proof. unfold create_user. calm_steps. Qed.

Lemma calm_parse_tags file_tags : calm (parse_tags file_tags).
Proof. unfold parse_tags. calm_steps. Qed.

Lemma calm_store_thumbnail f content_type current_user :
  calm (store_thumbnail f content_type current_user).
Proof. unfold store_thumbnail. calm_steps. Qed.

#[local] Hint Resolve calm_get_media_by_id calm_get_user_media calm_search_media
  calm_create_user calm_parse_tags calm_store_thumbnail : calm.

Lemma calm_fetch_media_details media_id owner_id :
  calm (fetch_media_details media_id owner_id).
Proof. unfold fetch_media_details. calm_steps. Qed.

Lemma calm_find_media_by_query search_term page_num items_per_page owner_id :
  calm (find_media_by_query search_term page_num items_per_page owner_id).
Proof. unfold find_media_by_query. calm_steps. Qed.

Lemma calm_retrieve_media_list page_num items_per_page content_type owner_id :
  calm (retrieve_media_list page_num items_per_page content_type owner_id).
Proof. unfold retrieve_media_list. calm_steps. Qed.

Lemma calm_authenticate_user credentials : calm (authenticate_user credentials).
Proof. unfold authenticate_user. calm_steps. Qed.

Lemma calm_create_user_account registration_data :
  calm (create_user_account registration_data).
Proof. unfold create_user_account. calm_steps. Qed.

(** ** Inversion of computations *)

Lemma bind_inv {A B} (m : M A) (k : A -> M B) w r w' :
  bind m k w = (r, w') ->
  (exists a w1, m w = (Ok a, w1) /\ k a w1 = (r, w')) \/
  (exists e, m w = (Raise e, w') /\ r = Raise e).
Proof.
  unfold bind. destruct (m w) as [[a|e] w1]; intros H.
  - left. exists a, w1. auto.
  - right. exists e. injection H as <- <-. auto.
Qed.

Lemma try_inv {A} (body : M A) (handler : Exn -> M A) w r w' :
  try_except body handler w = (r, w') ->
  (exists a, body w = (Ok a, w') /\ r = Ok a) \/
  (exists e w1, body w = (Raise e, w1) /\ handler e w1 = (r, w')).
Proof.
  unfold try_except. destruct (body w) as [[a|e] w1]; intros H.
  - left. exists a. injection H as <- <-. auto.
  - right. exists e, w1. auto.
Qed.

Lemma calm_inv {A} (m : M A) w r w' :
  calm m -> m w = (r, w') ->
  media_container w' = media_container w /\ clock w' = clock w /\
  (uuid_calls w <= uuid_calls w')%nat.
Proof. intros C E. specialize (C w). rewrite E in C. exact C. Qed.

Lemma create_media_inv body w r w' :
  create_media body w = (r, w') ->
  clock w' = clock w /\ uuid_calls w' = uuid_calls w /\
  ((r = Ok body /\ media_container w' = (media_container w ++ [body])%list) \/
   ((exists e, r = Raise e) /\ media_container w' = media_container w)).
Proof.
  unfold create_media, try_except, create_item.
  destruct (existsb _ _); simpl; intros H; injection H as <- <-; simpl.
  - split; [reflexivity|]. split; [reflexivity|]. right. eauto.
  - split; [reflexivity|]. split; [reflexivity|]. left. auto.
Qed.

Lemma ContentRecord_inv d r : ContentRecord d = Ok r -> r = d.
Proof.
  unfold ContentRecord. destruct (andb _ _); [|discriminate].
  intros H. injection H as <-. reflexivity.
Qed.

(** ** The effect of an upload *)

Lemma app_one_neq {A} (l : list A) x : (l ++ [x])%list <> l.
Proof.
  intros E. apply (f_equal (@List.length A)) in E.
  rewrite length_app in E. simpl in E. lia.
Qed.

Lemma process_file_upload_outcome f description file_tags user_id w r w' :
  process_file_upload f description file_tags user_id w = (r, w') ->
  upload_outcome w r w'.
Proof.
  unfold process_file_upload. intros H.
  match type of H with
  | try_except ?b _ _ = _ => set (body := b) in H
  end.
  assert (B : forall x w1, body w = (x, w1) -> upload_outcome w x w1).
  { clear H r w'. intros r w' H. unfold body in H. clear body.
    assert (quit : forall A e (m : M A) w0,
               calm m -> m w = (Raise e, w0) -> upload_outcome w (Raise e) w0).
    { intros A e m w0 C E. destruct (calm_inv m w _ _ C E) as (? & ? & ?).
      repeat split; auto; intros; discriminate. }
    apply bind_inv in H. destruct H as [(t & w1 & H1 & H) | (e & H1 & ->)];
      [|eapply quit; [apply calm_lift | exact H1]].
    injection H1 as H1 <-.
    apply bind_inv in H. destruct H as [(n & w2 & H2 & H) | (e & H2 & ->)];
      [|eapply quit; [apply calm_lift | exact H2]].
    injection H2 as H2 <-.
    apply bind_inv in H. destruct H as [(tags & w3 & H3 & H) | (e & H3 & ->)];
      [|eapply quit; [apply calm_parse_tags | exact H3]].
    apply (calm_inv _ _ _ _ (calm_parse_tags _)) in H3. destruct H3 as (M3 & C3 & U3).
    apply bind_inv in H. destruct H as [(st & w4 & H4 & H) | (e & H4 & ->)].
    2:{ apply (calm_inv _ _ _ _ (calm_blob_upload _ _ _ _)) in H4.
        destruct H4 as (M4 & C4 & U4).
        repeat split; try congruence; try lia; left; congruence. }
    apply (calm_inv _ _ _ _ (calm_blob_upload _ _ _ _)) in H4.
    destruct H4 as (M4 & C4 & U4).
    apply bind_inv in H. destruct H as [(pv & w5 & H5 & H) | (e & H5 & ->)].
    2:{ apply (calm_inv _ _ _ _ (calm_store_thumbnail _ _ _)) in H5.
        destruct H5 as (M5 & C5 & U5).
        repeat split; try congruence; try lia; left; congruence. }
    apply (calm_inv _ _ _ _ (calm_store_thumbnail _ _ _)) in H5.
    destruct H5 as (M5 & C5 & U5).
    apply bind_inv in H. destruct H as [(i & w6 & H6 & H) | (e & H6 & ->)];
      [|discriminate H6].
    unfold uuid4 in H6. injection H6 as <- <-.
    apply bind_inv in H. destruct H as [(now & w7 & H7 & H) | (e & H7 & ->)];
      [|discriminate H7].
    unfold utcnow in H7. injection H7 as <- <-.
    apply bind_inv in H. destruct H as [(pm & w8 & H8 & H) | (e & H8 & ->)].
    - apply create_media_inv in H8. simpl in H8.
      destruct H8 as (C8 & U8 & [(E8 & M8) | ((e & E8) & _)]); [|discriminate E8].
      injection E8 as E8. subst pm. unfold lift in H. injection H as <- <-.
      assert (N : media_container w8 <> media_container w).
      { rewrite M8, M5, M4, M3. apply app_one_neq. }
      split; [congruence|]. split; [lia|]. split; [|intros; exact N].
      right. eexists. exists (uuid_calls w5).
      split; [rewrite M8, M5, M4, M3; reflexivity|].
      split; [lia|]. simpl. split; [reflexivity|].
      split; [congruence|]. split; [congruence|].
      intros d0 E. apply ContentRecord_inv. exact E.
    - apply create_media_inv in H8. simpl in H8.
      destruct H8 as (C8 & U8 & [(E8 & _) | (_ & M8)]); [discriminate E8|].
      split; [congruence|]. split; [lia|].
      split; [left; congruence | intros; discriminate]. }
  apply try_inv in H. destruct H as [(a & Hb & ->) | (e & w1 & Hb & Hh)].
  - apply B, Hb.
  - apply B in Hb. destruct Hb as (C1 & U1 & Mo & _).
    assert (Hw : exists e', r = Raise e' /\
                 media_container w' = media_container w1 /\
                 clock w' = clock w1 /\ uuid_calls w' = uuid_calls w1).
    { destruct (is_HTTPException e);
        [unfold raise in Hh | unfold internal_error, bind, logger, raise in Hh];
        injection Hh as <- <-; simpl; eauto. }
    destruct Hw as (e' & -> & Mh & Chh & Uh).
    split; [congruence|]. split; [lia|]. split; [|intros; discriminate].
    destruct Mo as [Mo | (d & k & Mo & K & I & T1 & T2 & _)].
    + left. congruence.
    + right. exists d, k. repeat split; try congruence; try lia.
Qed.

(** ** The effect of a deletion *)

Lemma filter_all {A} (l : list A) : filter (fun _ => true) l = l.
Proof. induction l; simpl; congruence. Qed.

Lemma filter_filter {A} (p q : A -> bool) l :
  filter p (filter q l) = filter (fun x => andb (q x) (p x)) l.
Proof.
  induction l as [|x l IH]; [reflexivity|]. simpl.
  destruct (q x); simpl; [destruct (p x)|]; congruence.
Qed.

Lemma calm_shrinks {A} (m : M A) : calm m -> shrinks m.
Proof.
  intros C w. destruct (C w) as (Mw & Cw & Uw).
  split; [|auto]. exists (fun _ => true). rewrite filter_all. exact Mw.
Qed.

Lemma shrinks_bind {A B} (m : M A) (k : A -> M B) :
  shrinks m -> (forall a, shrinks (k a)) -> shrinks (bind m k).
Proof.
  intros Hm Hk w. unfold bind. specialize (Hm w).
  destruct (m w) as [[a|e] w1]; simpl in Hm; [|exact Hm].
  specialize (Hk a w1).
  destruct Hm as ((p & Mp) & ? & ?), Hk as ((q & Mq) & ? & ?).
  split; [|split; [congruence | lia]].
  eexists. rewrite Mq, Mp. apply filter_filter.
Qed.

Lemma shrinks_try {A} (body : M A) (handler : Exn -> M A) :
  shrinks body -> (forall e, shrinks (handler e)) -> shrinks (try_except body handler).
Proof.
  intros Hm Hk w. unfold try_except. specialize (Hm w).
  destruct (body w) as [[a|e] w1]; simpl in Hm; [exact Hm|].
  specialize (Hk e w1).
  destruct Hm as ((p & Mp) & ? & ?), Hk as ((q & Mq) & ? & ?).
  split; [|split; [congruence | lia]].
  eexists. rewrite Mq, Mp. apply filter_filter.
Qed.

Lemma shrinks_delete_media record_id owner_id : shrinks (delete_media record_id owner_id).
Proof.
  intros w. rewrite delete_media_spec.
  destruct (existsb _ _); simpl; (split; [|auto]).
  - eexists. reflexivity.
  - exists (fun _ => true). symmetry. apply filter_all.
Qed.

Lemma shrinks_remove_media_file media_id owner_id :
  shrinks (remove_media_file media_id owner_id).
Proof.
  unfold remove_media_file.
  repeat first
    [ apply shrinks_delete_media
    | solve [apply calm_shrinks; auto with calm]
    | apply shrinks_bind; [|intros ?]
    | apply shrinks_try; [|intros ?]
    | match goal with
      | |- shrinks (match ?x with _ => _ end) => destruct x
      end ].
Qed.

(** ** Invariants of the service *)

Lemma descends_refl w : descends w w.
Proof. repeat split; auto. intros d I. left. exists d. auto. Qed.

Lemma descends_trans w1 w2 w3 : descends w1 w2 -> descends w2 w3 -> descends w1 w3.
Proof.
  intros (C1 & U1 & D1) (C2 & U2 & D2). split; [lia|]. split; [lia|].
  intros d3 I3. destruct (D2 d3 I3) as [(d2 & I2 & E2 & T2) | (k & K & E)].
  - destruct (D1 d2 I2) as [(d1 & I1 & E1 & T1) | (k & K & E)].
    + left. exists d1. repeat split; congruence.
    + right. exists k. split; [lia | congruence].
  - right. exists k. split; [lia | exact E].
Qed.

Lemma minted_mono w w' i :
  (uuid_calls w <= uuid_calls w')%nat -> minted w i -> minted w' i.
Proof. intros U (k & K & E). exists k. split; [lia | exact E]. Qed.

Lemma consistent_same_media w w' :
  media_container w' = media_container w ->
  (clock w <= clock w')%nat -> (uuid_calls w <= uuid_calls w')%nat ->
  consistent w -> consistent w'.
Proof.
  intros Mw Cw Uw [I N S]. split; rewrite Mw.
  - eapply Forall_impl; [|exact I]. intros d. apply minted_mono, Uw.
  - exact N.
  - eapply Forall_impl; [|exact S]. simpl. intros; lia.
Qed.

Lemma descends_same_media w w' :
  media_container w' = media_container w ->
  (clock w <= clock w')%nat -> (uuid_calls w <= uuid_calls w')%nat ->
  descends w w'.
Proof.
  intros Mw Cw Uw. split; [exact Cw|]. split; [exact Uw|].
  intros d I. left. exists d. rewrite <- Mw. auto.
Qed.

Lemma NoDup_map_filter {A B} (f : A -> B) (p : A -> bool) l :
  NoDup (map f l) -> NoDup (map f (filter p l)).
Proof.
  induction l as [|x l IH]; simpl; [auto|].
  intros N. apply NoDup_cons_iff in N. destruct N as [X N].
  destruct (p x); [|auto]. simpl. constructor; [|auto].
  intros I. apply X. apply in_map_iff in I. destruct I as (y & E & I).
  apply filter_In in I. apply in_map_iff. exists y. tauto.
Qed.

Lemma Forall_filter_keep {A} (P : A -> Prop) (p : A -> bool) l :
  Forall P l -> Forall P (filter p l).
Proof.
  intros F. apply Forall_forall. intros x I. apply filter_In in I.
  rewrite Forall_forall in F. apply F. tauto.
Qed.

Lemma consistent_shrunk w w' p :
  media_container w' = filter p (media_container w) ->
  clock w' = clock w -> (uuid_calls w <= uuid_calls w')%nat ->
  consistent w -> consistent w'.
Proof.
  intros Mw Cw Uw [I N S]. split; rewrite Mw.
  - apply Forall_filter_keep.
    eapply Forall_impl; [|exact I]. intros d. apply minted_mono, Uw.
  - apply NoDup_map_filter, N.
  - apply Forall_filter_keep. rewrite Cw. exact S.
Qed.

Lemma descends_shrunk w w' p :
  media_container w' = filter p (media_container w) ->
  clock w' = clock w -> (uuid_calls w <= uuid_calls w')%nat ->
  descends w w'.
Proof.
  intros Mw Cw Uw. split; [lia|]. split; [exact Uw|].
  intros d I. rewrite Mw in I. apply filter_In in I.
  left. exists d. tauto.
Qed.

Lemma in_replaced item pk body l d :
  In d (replaced item pk body l) -> d = body \/ In d l.
Proof.
  unfold replaced. rewrite in_map_iff. intros (x & E & I).
  destruct (media_item_is item pk x); subst; auto.
Qed.

Lemma map_id_replaced item pk body l :
  Media.id body = item ->
  map Media.id (replaced item pk body l) = map Media.id l.
Proof.
  intros B. unfold replaced. rewrite map_map. apply map_ext. intros x.
  destruct (media_item_is item pk x) eqn:X; [|reflexivity].
  apply media_item_is_true in X. destruct X. congruence.
Qed.

Lemma modify_keeps_consistent media_id u owner_id w :
  consistent w ->
  consistent (snd (modify_media_info media_id u owner_id w)) /\
  descends w (snd (modify_media_info media_id u owner_id w)).
Proof.
  intros Cw. rewrite modify_media_info_spec.
  destruct (find _ _) as [old|] eqn:F; [|split; [exact Cw | apply descends_refl]].
  destruct (found_is_owned _ _ _ _ F) as (Io & Eo & _).
  set (new := dict_update old (payload (clock w) u)).
  assert (X : consistent (set_media (replaced media_id owner_id new (media_container w)) w)
              /\ descends w (set_media (replaced media_id owner_id new (media_container w)) w)).
  { destruct Cw as [I N S]. rewrite Forall_forall in I, S. split; [split|]; simpl.
    - apply Forall_forall. intros d Hd. apply in_replaced in Hd.
      destruct Hd as [-> | Hd]; [|exact (I d Hd)]. exact (I old Io).
    - rewrite map_id_replaced; [exact N | exact Eo].
    - apply Forall_forall. intros d Hd. apply in_replaced in Hd.
      destruct Hd as [-> | Hd]; [|exact (S d Hd)].
      simpl. specialize (S old Io). lia.
    - unfold descends. simpl. split; [lia|]. split; [lia|]. intros d Hd. left.
      apply in_replaced in Hd. destruct Hd as [-> | Hd]; [|exists d; auto].
      exists old. auto. }
  cbv zeta. fold new. destruct (ContentRecord new); exact X.
Qed.

Lemma upload_keeps_consistent f description file_tags user_id w :
  consistent w ->
  let r := fst (process_file_upload f description file_tags user_id w) in
  let w' := snd (process_file_upload f description file_tags user_id w) in
  consistent w' /\ descends w w' /\
  forall d, r = Ok d ->
    (exists k, (uuid_calls w <= k < uuid_calls w')%nat /\ Media.id d = uuid_of k) /\
    Media.uploadedAt d = Media.updatedAt d /\ In d (media_container w').
Proof.
  intros Cw r w'.
  destruct (process_file_upload_outcome f description file_tags user_id w r w')
    as (C & U & Mo & Ne).
  { unfold r, w'. apply surjective_pairing. }
  destruct Mo as [Mo | (d & k & Mo & K & I & T1 & T2 & Same)].
  - split; [apply (consistent_same_media w); auto; lia|].
    split; [apply descends_same_media; auto; lia|].
    intros d E. exfalso. exact (Ne d E Mo).
  - destruct Cw as [Iw Nw Sw]. split; [split|split]; try rewrite Mo.
    + apply Forall_app. split.
      * eapply Forall_impl; [|exact Iw]. intros x. apply minted_mono, U.
      * constructor; [|constructor]. exists k. split; [lia | exact I].
    + rewrite map_app. apply NoDup_app; [exact Nw | |].
      * simpl. constructor; [intros [] | constructor].
      * intros a Ia [Ea | []]. apply in_map_iff in Ia.
        destruct Ia as (x & Ex & Ix). rewrite Forall_forall in Iw.
        destruct (Iw x Ix) as (j & J & Ej).
        assert (j = k) by (apply uuid_of_inj; congruence). lia.
    + apply Forall_app. split.
      * eapply Forall_impl; [|exact Sw]. simpl. intros; lia.
      * constructor; [lia | constructor].
    + split; [lia|]. split; [exact U|]. intros x Ix. rewrite Mo in Ix.
      apply in_app_or in Ix. destruct Ix as [Ix | [<- | []]].
      * left. exists x. auto.
      * right. exists k. auto.
    + intros d0 E. rewrite (Same d0 E). split; [exists k; auto|].
      split; [congruence|]. apply in_or_app. right. left. reflexivity.
Qed.

Lemma calm_keeps_consistent {A} (m : M A) w :
  calm m -> consistent w -> consistent (snd (m w)) /\ descends w (snd (m w)).
Proof.
  intros C Cw. destruct (C w) as (Mw & Kw & Uw). split.
  - apply (consistent_same_media w); auto; lia.
  - apply descends_same_media; auto; lia.
Qed.

Lemma serve_keeps_consistent ev w :
  consistent w ->
  consistent (snd (serve ev w)) /\ descends w (snd (serve ev w)) /\
  forall d, fst (serve ev w) = Created (Ok d) -> created_in w (snd (serve ev w)) d.
Proof.
  intros Cw.
  assert (Q : forall A (m : M A) (wrap : Result A -> Response),
             calm m -> (forall x d, wrap x <> Created (Ok d)) ->
             consistent (snd (let (x, w') := m w in (wrap x, w'))) /\
             descends w (snd (let (x, w') := m w in (wrap x, w'))) /\
             forall d, fst (let (x, w') := m w in (wrap x, w')) = Created (Ok d) ->
                       created_in w (snd (let (x, w') := m w in (wrap x, w'))) d).
  { intros A m wrap C NW. destruct (calm_keeps_consistent m w C Cw) as (X & Y).
    destruct (m w) as [x w1]; simpl in *.
    split; [exact X|]. split; [exact Y|]. intros d E. destruct (NW x d E). }
  destruct ev; simpl.
  - split; [|split; [|discriminate]].
    + apply (consistent_same_media w); simpl; auto; lia.
    + apply descends_same_media; simpl; auto; lia.
  - apply Q; [apply calm_create_user_account | discriminate].
  - apply Q; [apply calm_authenticate_user | discriminate].
  - destruct (upload_keeps_consistent uploaded_file file_description file_tags
                current_user w Cw) as (X & Y & Z).
    destruct (process_file_upload _ _ _ _ w) as [x w1]; simpl in *.
    split; [exact X|]. split; [exact Y|]. intros d E. injection E as ->.
    destruct (Z d eq_refl) as (K & T & _). split; assumption.
  - apply Q; [apply calm_find_media_by_query | discriminate].
  - apply Q; [apply calm_retrieve_media_list | discriminate].
  - apply Q; [apply calm_fetch_media_details | discriminate].
  - destruct (modify_keeps_consistent media_id metadata_updates owner_id w Cw) as (X & Y).
    destruct (modify_media_info _ _ _ w) as [x w1]; simpl in *.
    split; [exact X|]. split; [exact Y|]. discriminate.
  - destruct (shrinks_remove_media_file media_id owner_id w) as ((p & Mp) & Kp & Up).
    destruct (remove_media_file _ _ w) as [x w1]; simpl in *.
    split; [eapply consistent_shrunk; eauto|].
    split; [eapply descends_shrunk; eauto | discriminate].
Qed.

Lemma created_in_widen w0 w1 w2 w3 d :
  (uuid_calls w0 <= uuid_calls w1)%nat -> (uuid_calls w2 <= uuid_calls w3)%nat ->
  created_in w1 w2 d -> created_in w0 w3 d.
Proof.
  intros A B ((k & K & E) & T). split; [|exact T]. exists k. split; [lia | exact E].
Qed.

Lemma run_keeps_consistent evs : forall w,
  consistent w ->
  consistent (snd (run evs w)) /\ descends w (snd (run evs w)) /\
  Forall (created_in w (snd (run evs w))) (uploaded (fst (run evs w))) /\
  NoDup (map Media.id (uploaded (fst (run evs w)))).
Proof.
  induction evs as [|ev evs IH]; intros w Cw; simpl.
  - split; [exact Cw|]. split; [apply descends_refl|]. split; constructor.
  - destruct (serve_keeps_consistent ev w Cw) as (C1 & D1 & U1).
    destruct (serve ev w) as [r w1]; simpl in *.
    destruct (IH w1 C1) as (C2 & D2 & U2 & N2).
    destruct (run evs w1) as [rs w2]; simpl in *.
    assert (L1 : (uuid_calls w <= uuid_calls w1)%nat) by apply D1.
    assert (L2 : (uuid_calls w1 <= uuid_calls w2)%nat) by apply D2.
    assert (W : Forall (created_in w w2) (uploaded rs)).
    { eapply Forall_impl; [|exact U2]. intros d.
      apply created_in_widen; [exact L1 | lia]. }
    split; [exact C2|]. split; [eapply descends_trans; eauto|].
    destruct r as [| | |[d|e] | |]; simpl; try (split; assumption).
    specialize (U1 d eq_refl). split.
    + constructor; [|exact W]. eapply created_in_widen; [| |exact U1]; lia.
    + constructor; [|exact N2]. intros I. apply in_map_iff in I.
      destruct I as (x & Ex & Ix). rewrite Forall_forall in U2.
      destruct (U2 x Ix) as ((j & J & Ej) & _).
      destruct U1 as ((k & K & Ek) & _).
      assert (j = k) by (apply uuid_of_inj; congruence). lia.
Qed.

Lemma startup_consistent b t0 : consistent (startup b t0).
Proof. split; simpl; constructor. Qed.

Lemma NoDup_map_same {A B} (f : A -> B) l x y :
  NoDup (map f l) -> In x l -> In y l -> f x = f y -> x = y.
Proof.
  induction l as [|a l IH]; simpl; [tauto|].
  intros N Ix Iy E. apply NoDup_cons_iff in N. destruct N as [Na N].
  destruct Ix as [-> | Ix], Iy as [-> | Iy]; auto.
  - exfalso. apply Na. rewrite E. apply in_map, Iy.
  - exfalso. apply Na. rewrite <- E. apply in_map, Ix.
Qed.

Lemma upload_time_is_kept w w' d d' :
  consistent w -> descends w w' ->
  In d (media_container w) -> In d' (media_container w') ->
  Media.id d' = Media.id d -> Media.uploadedAt d' = Media.uploadedAt d.
Proof.
  intros [I N _] (_ & _ & D) Id Id' E.
  destruct (D d' Id') as [(d0 & I0 & E0 & T0) | (k & K & Ek)].
  - rewrite T0. f_equal. apply (NoDup_map_same Media.id _ _ _ N I0 Id). congruence.
  - rewrite Forall_forall in I. destruct (I d Id) as (j & J & Ej).
    assert (j = k) by (apply uuid_of_inj; congruence). lia.
Qed.

(** C7. In every run of the service from start-up: an upload that succeeds
    returns a record whose id is the id of no record returned by an earlier
    upload and of no stored record, and whose [uploadedAt] and [updatedAt]
    are equal; the ids the uploads returned are pairwise distinct; every
    stored record has [updatedAt >= uploadedAt]; and whatever happens next,
    a stored record that is still stored has the [uploadedAt] it had. *)
Theorem upload_ids_are_fresh_and_upload_time_is_kept b t0 evs :
  let rs := fst (run evs (startup b t0)) in
  let w := snd (run evs (startup b t0)) in
  (forall f description file_tags user_id d,
      fst (process_file_upload f description file_tags user_id w) = Ok d ->
      ~ In (Media.id d) (map Media.id (uploaded rs)) /\
      ~ In (Media.id d) (map Media.id (media_container w)) /\
      Media.uploadedAt d = Media.updatedAt d) /\
  NoDup (map Media.id (uploaded rs)) /\
  Forall (fun d => (Media.uploadedAt d <= Media.updatedAt d)%nat) (media_container w) /\
  (forall more d d',
      In d (media_container w) ->
      In d' (media_container (snd (run more w))) ->
      Media.id d' = Media.id d ->
      Media.uploadedAt d' = Media.uploadedAt d /\
      (Media.uploadedAt d' <= Media.updatedAt d')%nat).
Proof.
  intros rs w.
  destruct (run_keeps_consistent evs (startup b t0) (startup_consistent b t0))
    as (Cw & _ & Uw & Nw).
  fold w in Cw, Uw. fold rs in Uw, Nw.
  split; [|split; [exact Nw|split]].
  - intros f description file_tags user_id d E.
    destruct (upload_keeps_consistent f description file_tags user_id w Cw)
      as (_ & _ & Z).
    destruct (Z d E) as ((k & K & Ek) & T & _).
    split; [|split; [|exact T]]; intros I; apply in_map_iff in I;
      destruct I as (x & Ex & Ix).
    + rewrite Forall_forall in Uw. destruct (Uw x Ix) as ((j & J & Ej) & _).
      assert (j = k) by (apply uuid_of_inj; congruence). lia.
    + destruct Cw as [Iw _ _]. rewrite Forall_forall in Iw.
      destruct (Iw x Ix) as (j & J & Ej).
      assert (j = k) by (apply uuid_of_inj; congruence). lia.
  - destruct Cw as [_ _ S]. eapply Forall_impl; [|exact S]. simpl. intros; lia.
  - intros more d d' Id Id' E.
    destruct (run_keeps_consistent more w Cw) as (C' & D' & _).
    split; [exact (upload_time_is_kept w _ d d' Cw D' Id Id' E)|].
    destruct C' as [_ _ S]. rewrite Forall_forall in S.
    specialize (S d' Id'). cbv beta in S. lia.
Qed.

(** ** Requests under another owner's identity *)

(** When the caller's partition holds no document with the requested id,
    the three handlers answer 404, whoever else owns a document with that
    id. *)
Lemma not_in_callers_partition_is_not_found media_id owner_id u w :
  find (media_item_is media_id owner_id) (media_container w) = None ->
  fst (fetch_media_details media_id owner_id w)
  = Raise (HTTPException HTTP_404_NOT_FOUND "Media not found") /\
  fst (modify_media_info media_id u owner_id w)
  = Raise (HTTPException HTTP_404_NOT_FOUND "Media not found") /\
  fst (remove_media_file media_id owner_id w)
  = Raise (HTTPException HTTP_404_NOT_FOUND "Media not found").
Proof.
  intros F. rewrite fetch_media_details_spec, modify_media_info_spec, F.
  split; [reflexivity|]. split; [reflexivity|].
  unfold remove_media_file, try_except, bind.
  rewrite get_media_by_id_spec, F. reflexivity.
Qed.

Lemma other_owners_document_is_not_found media_id owner_id w d :
  NoDup (map Media.id (media_container w)) ->
  In d (media_container w) -> Media.id d = media_id -> Media.userId d <> owner_id ->
  find (media_item_is media_id owner_id) (media_container w) = None.
Proof.
  intros N I E U.
  destruct (find _ _) as [x|] eqn:F; [|reflexivity]. exfalso.
  destruct (found_is_owned _ _ _ _ F) as (Ix & Ex & Ux).
  apply U. rewrite <- Ux. f_equal.
  apply (NoDup_map_same Media.id _ _ _ N I Ix). congruence.
Qed.

(** ** The thumbnail name at deletion *)

Lemma replace_skips_rest old new r :
  Str.replace_nonempty old new r (String.length r) = "".
Proof. induction r as [|c r IH]; simpl; [reflexivity | exact IH]. Qed.

Lemma prefix_refl s : String.prefix s s = true.
Proof.
  induction s as [|c s IH]; simpl; [reflexivity|].
  destruct (Ascii.ascii_dec c c); [exact IH | congruence].
Qed.

Lemma append_empty_r s : s ++ "" = s.
Proof. induction s as [|c s IH]; simpl; congruence. Qed.

(** A file name that occurs in the stored name only as its last component
    is replaced there and nowhere else. *)
Lemma replace_last_component c f new before :
  (forall a b, before = a ++ b -> b <> "" ->
               String.prefix (String c f) (b ++ String c f) = false) ->
  Str.replace (before ++ String c f) (String c f) new = before ++ new.
Proof.
  unfold Str.replace. induction before as [|x p IH]; intros H.
  - cbn [append Str.replace_nonempty]. rewrite prefix_refl.
    cbn [String.length Nat.sub]. rewrite Nat.sub_0_r, replace_skips_rest.
    apply append_empty_r.
  - cbn [append Str.replace_nonempty].
    change (String x (p ++ String c f)) with (String x p ++ String c f).
    rewrite (H "" (String x p) eq_refl) by discriminate.
    cbn [append]. f_equal. apply IH. intros a b E NE.
    apply (H (String x a) b); [simpl; congruence | exact NE].
Qed.

Lemma append_assoc (a b c : string) : (a ++ b) ++ c = a ++ (b ++ c).
Proof. induction a as [|x a IH]; simpl; congruence. Qed.

Lemma last_component_whole sep s :
  Str.mem sep s = false -> Str.last_component sep s = s.
Proof.
  destruct s as [|c r]; [reflexivity|]. simpl. intros H.
  apply orb_false_iff in H. destruct H as [C R]. rewrite R, C. reflexivity.
Qed.

(** Where the derivation works: the file name holds no slash and occurs in
    the stored name [blob_name user_id name] only at its end.  The name
    computed at deletion is then the name the thumbnail was stored under. *)
Lemma thumbnail_name_recovered d user_id c f :
  Media.originalFileName d = String c f ->
  Media.fileName d = blob_name user_id (String c f) ->
  Str.mem "/" (String c f) = false ->
  (forall a b, user_id ++ "/" = a ++ b -> b <> "" ->
               String.prefix (String c f) (b ++ String c f) = false) ->
  thumb_identifier d = blob_name user_id ("thumb_" ++ String c f).
Proof.
  intros O F NS H. unfold thumb_identifier, blob_name in *.
  rewrite O, F, (last_component_whole _ _ NS).
  rewrite <- (append_assoc user_id "/" (String c f)).
  rewrite (replace_last_component c f _ (user_id ++ "/") H).
  apply append_assoc.
Qed.

End Properties.

(** * Properties of the endpoints *)

Section Endpoints.

Context {storage : Storage} {utils : Utils} {auth : Auth} {uuid : Uuid}.

Implicit Types (w : World) (d : Media.doc).

(** ** Relations a computation preserves *)

Lemma preserves_ret {A} R (a : A) : preorder R -> preserves R (ret a).
Proof. intros [Rr _] w. apply Rr. Qed.

Lemma preserves_raise {A} R e : preorder R -> preserves R (@raise _ A e).
Proof. intros [Rr _] w. apply Rr. Qed.

Lemma preserves_lift {A} R (r : Result A) : preorder R -> preserves R (lift r).
Proof. intros [Rr _] w. apply Rr. Qed.

Lemma preserves_bind {A B} R (m : M A) (k : A -> M B) :
  preorder R -> preserves R m -> (forall a, preserves R (k a)) ->
  preserves R (bind m k).
Proof.
  intros [_ Rt] Hm Hk w. unfold bind. specialize (Hm w).
  destruct (m w) as [[a|e] w1]; simpl in Hm; [|exact Hm].
  exact (Rt _ _ _ Hm (Hk a w1)).
Qed.

Lemma preserves_try {A} R (body : M A) (handler : Exn -> M A) :
  preorder R -> preserves R body -> (forall e, preserves R (handler e)) ->
  preserves R (try_except body handler).
Proof.
  intros [_ Rt] Hm Hk w. unfold try_except. specialize (Hm w).
  destruct (body w) as [[a|e] w1]; simpl in Hm; [exact Hm|].
  exact (Rt _ _ _ Hm (Hk e w1)).
Qed.

Lemma same_data_preorder : preorder same_data.
Proof.
  split; [intros w; repeat split|].
  intros a b c (U1 & M1 & B1 & C1 & I1) (U2 & M2 & B2 & C2 & I2).
  repeat split; congruence.
Qed.

Lemma same_users_preorder : preorder same_users.
Proof. split; unfold same_users; [reflexivity | congruence]. Qed.

Lemma same_index_preorder : preorder same_index.
Proof.
  split; [intros w; repeat split|].
  intros a b c (U1 & M1 & C1 & I1) (U2 & M2 & C2 & I2).
  repeat split; congruence.
Qed.

Lemma others_kept_preorder user_id : preorder (others_kept user_id).
Proof.
  split; [intros w d _; reflexivity|].
  intros a b c H1 H2 d N. rewrite (H2 d N). apply H1, N.
Qed.

(** A primitive that touches one component of the world: unfold it and
    read the relation off the resulting record. *)
Ltac primitive :=
  let w := fresh "w" in
  intros w;
  unfold logger, utcnow, uuid4, blob_upload, blob_delete, read_item,
    query_items, query_count, get_user_by_email, users_read_item,
    users_create_item, create_item, replace_item, delete_item, ret, raise, lift;
  repeat match goal with
         | |- context [match ?x with _ => _ end] => destruct x
         end;
  unfold same_data, same_users, same_index, others_kept;
  simpl; repeat split; auto; tauto.

(** A computation built from binds, handlers and case analyses over
    primitives. *)
Ltac composite pre :=
  cbv zeta;
  repeat first
    [ assumption
    | apply (preserves_bind _ _ _ pre); [|intros ?]
    | apply (preserves_try _ _ _ pre); [|intros ?]
    | match goal with
      | |- preserves _ (match ?x with _ => _ end) => destruct x
      end
    | solve [primitive] ].

Lemma preserves_log_and_reraise {A} R what e :
  preorder R -> (forall l msg, preserves R (logger l msg)) ->
  preserves R (@log_and_reraise _ A what e).
Proof.
  intros P L. unfold log_and_reraise. destruct (is_CosmosHttpResponseError e).
  - apply (preserves_bind _ _ _ P); [apply L | intros; apply preserves_raise, P].
  - apply preserves_raise, P.
Qed.

Lemma preserves_internal_error {A} R prefix detail e :
  preorder R -> (forall l msg, preserves R (logger l msg)) ->
  preserves R (@internal_error _ A prefix detail e).
Proof.
  intros P L. unfold internal_error.
  apply (preserves_bind _ _ _ P); [apply L | intros; apply preserves_raise, P].
Qed.

(** *** Requests that only read *)

Lemma reads_get_media_by_id record_id owner_id :
  preserves same_data (get_media_by_id record_id owner_id).
Proof.
  unfold get_media_by_id, log_and_reraise. composite same_data_preorder.
Qed.

Lemma reads_get_user_media user_id page page_size media_type :
  preserves same_data (get_user_media user_id page page_size media_type).
Proof.
  unfold get_user_media, log_and_reraise. composite same_data_preorder.
Qed.

Lemma reads_search_media user_id query page page_size :
  preserves same_data (search_media user_id query page page_size).
Proof.
  unfold search_media, log_and_reraise. composite same_data_preorder.
Qed.

(** X5. The endpoints that only read (login, search, listing, fetch) leave
    the accounts, the metadata, the blobs, the clock and the identifier
    generator exactly as they were: whatever they answer, only the log can
    differ afterwards. *)
Theorem reading_endpoints_change_nothing_but_the_log :
  (forall credentials, preserves same_data (authenticate_user credentials)) /\
  (forall search_term page_num items_per_page owner_id,
      preserves same_data
        (find_media_by_query search_term page_num items_per_page owner_id)) /\
  (forall page_num items_per_page content_type owner_id,
      preserves same_data
        (retrieve_media_list page_num items_per_page content_type owner_id)) /\
  (forall media_id owner_id,
      preserves same_data (fetch_media_details media_id owner_id)).
Proof.
  split; [|split; [|split]].
  - intros credentials.
    unfold authenticate_user, internal_error. composite same_data_preorder.
  - intros search_term page_num items_per_page owner_id.
    pose proof (reads_search_media owner_id search_term page_num items_per_page).
    unfold find_media_by_query, internal_error. composite same_data_preorder.
  - intros page_num items_per_page content_type owner_id.
    pose proof (reads_get_user_media owner_id page_num items_per_page content_type).
    unfold retrieve_media_list, internal_error. composite same_data_preorder.
  - intros media_id owner_id.
    pose proof (reads_get_media_by_id media_id owner_id).
    unfold fetch_media_details, internal_error. composite same_data_preorder.
Qed.

(** ** The upload, step by step *)

Lemma parse_tags_pure file_tags w : snd (parse_tags file_tags w) = w.
Proof.
  unfold parse_tags, try_except.
  destruct file_tags as [[|c text]|]; try reflexivity.
  destruct (Json.loads _) as [[]|]; reflexivity.
Qed.

Lemma store_thumbnail_spec f content_type user_id w :
  store_thumbnail f content_type user_id w
  = if String.eqb content_type "image" then
      match generate_thumbnail (UploadFile.file f) with
      | Some (String c r) =>
          match upload_file (String c r) user_id ("thumb_" ++ UploadFile.filename f)
                  "image/jpeg" (blob_container w) with
          | (Ok named, b) => (Ok (Some (snd named)), set_blobs b w)
          | (Raise e, b) =>
              (Ok None,
               snd (logger WARNING ("Thumbnail creation failed: " ++ exn_str e)
                      (set_blobs b w)))
          end
      | _ => (Ok None, w)
      end
    else (Ok None, w).
Proof.
  unfold store_thumbnail. destruct (String.eqb content_type "image"); [|reflexivity].
  destruct (generate_thumbnail _) as [[|c r]|]; try reflexivity.
  unfold try_except, bind, blob_upload.
  destruct (upload_file _ _ _ _ _) as [[named|e] b]; reflexivity.
Qed.

Lemma store_thumbnail_never_raises f content_type user_id w :
  exists pv, fst (store_thumbnail f content_type user_id w) = Ok pv /\
             (pv <> None -> content_type = "image").
Proof.
  rewrite store_thumbnail_spec.
  destruct (String.eqb_spec content_type "image") as [E|_];
    [|exists None; split; [reflexivity | congruence]].
  destruct (generate_thumbnail _) as [[|c r]|];
    try (exists None; split; [reflexivity | congruence]).
  destruct (upload_file _ _ _ _ _) as [[named|e] b]; simpl; eauto.
Qed.

Lemma store_thumbnail_same_index f content_type user_id :
  preserves same_index (store_thumbnail f content_type user_id).
Proof.
  intros w. rewrite store_thumbnail_spec. unfold same_index.
  destruct (String.eqb content_type "image"); [|simpl; auto].
  destruct (generate_thumbnail _) as [[|c r]|]; try (simpl; auto; fail).
  destruct (upload_file _ _ _ _ _) as [[named|e] b]; simpl; auto.
Qed.

(** [process_file_upload] as one case analysis: each step that can raise,
    in the order of the source, with the world it has reached. *)
Lemma process_file_upload_spec f description file_tags user_id w :
  process_file_upload f description file_tags user_id w
  = match validate_file_type f with
    | Raise e => upload_failed e w
    | Ok t =>
    match validate_file_size f with
    | Raise e => upload_failed e w
    | Ok n =>
    match fst (parse_tags file_tags w) with
    | Raise e => upload_failed e w
    | Ok tags =>
    match upload_file (UploadFile.file f) user_id (UploadFile.filename f)
            (UploadFile.content_type f) (blob_container w) with
    | (Raise e, b) => upload_failed e (set_blobs b w)
    | (Ok stored, b) =>
        let thumb := store_thumbnail f t user_id (set_blobs b w) in
        let w3 := snd (uuid4 (snd thumb)) in
        let d := new_record f t n description tags stored (preview_of (fst thumb))
                   user_id (uuid_of (uuid_calls w)) (clock w) in
        if existsb (media_item_is (Media.id d) user_id) (media_container w)
        then upload_failed CosmosResourceExistsError
               (snd (logger ERROR "Media creation failed: Conflict" w3))
        else match ContentRecord d with
             | Ok r => (Ok r, set_media (media_container w ++ [d]) w3)
             | Raise e => upload_failed e (set_media (media_container w ++ [d]) w3)
             end
    end end end end.
Proof.
  unfold process_file_upload, try_except, bind, lift.
  fold upload_failed.
  destruct (validate_file_type f) as [t|e]; [|reflexivity].
  destruct (validate_file_size f) as [n|e]; [|reflexivity].
  pose proof (parse_tags_pure file_tags w) as P.
  destruct (parse_tags file_tags w) as [[tags|e] w1]; simpl in P; subst w1;
    [|reflexivity].
  cbn [fst]. unfold blob_upload at 1.
  destruct (upload_file _ _ _ _ _) as [[stored|e] b]; [|reflexivity].
  cbv zeta.
  destruct (store_thumbnail_never_raises f t user_id (set_blobs b w)) as (pv & T & _).
  destruct (store_thumbnail_same_index f t user_id (set_blobs b w))
    as (_ & Mt & Ct & Ut).
  destruct (store_thumbnail f t user_id (set_blobs b w)) as [rt w2].
  simpl in T, Mt, Ct, Ut. subst rt. cbn [fst snd preview_of].
  unfold uuid4, utcnow. cbn [fst snd clock uuid_calls].
  rewrite Ut, Ct. fold (new_record f t n description tags stored pv user_id
                          (uuid_of (uuid_calls w)) (clock w)).
  unfold create_media, try_except, create_item.
  cbn [media_container]. rewrite Mt.
  set (d := new_record _ _ _ _ _ _ _ _ _ _).
  change (Media.userId d) with user_id.
  unfold upload_failed.
  destruct (existsb _ _); [reflexivity|].
  destruct (ContentRecord d); reflexivity.
Qed.

Lemma upload_failed_not_ok e w d w' : upload_failed e w = (Ok d, w') -> False.
Proof.
  unfold upload_failed, internal_error, bind, logger, raise.
  destruct (is_HTTPException e); discriminate.
Qed.

(** What is known once an upload has answered with a record. *)
Lemma upload_success_inv f description file_tags user_id w d w' :
  process_file_upload f description file_tags user_id w = (Ok d, w') ->
  exists t n tags stored b,
    validate_file_type f = Ok t /\
    validate_file_size f = Ok n /\
    fst (parse_tags file_tags w) = Ok tags /\
    upload_file (UploadFile.file f) user_id (UploadFile.filename f)
      (UploadFile.content_type f) (blob_container w) = (Ok stored, b) /\
    d = new_record f t n description tags stored
          (preview_of (fst (store_thumbnail f t user_id (set_blobs b w))))
          user_id (uuid_of (uuid_calls w)) (clock w) /\
    existsb (media_item_is (Media.id d) user_id) (media_container w) = false /\
    ContentRecord d = Ok d /\
    w' = set_media (media_container w ++ [d])
           (snd (uuid4 (snd (store_thumbnail f t user_id (set_blobs b w))))).
Proof.
  rewrite process_file_upload_spec.
  destruct (validate_file_type f) as [t|e];
    [|intros H; destruct (upload_failed_not_ok _ _ _ _ H)].
  destruct (validate_file_size f) as [n|e];
    [|intros H; destruct (upload_failed_not_ok _ _ _ _ H)].
  destruct (fst (parse_tags file_tags w)) as [tags|e];
    [|intros H; destruct (upload_failed_not_ok _ _ _ _ H)].
  destruct (upload_file _ _ _ _ _) as [[stored|e] b];
    [|intros H; destruct (upload_failed_not_ok _ _ _ _ H)].
  cbv zeta.
  set (d0 := new_record _ _ _ _ _ _ _ _ _ _).
  destruct (existsb _ _) eqn:X;
    [intros H; destruct (upload_failed_not_ok _ _ _ _ H)|].
  destruct (ContentRecord d0) as [r|e] eqn:V;
    [|intros H; destruct (upload_failed_not_ok _ _ _ _ H)].
  intros H. injection H as <- <-.
  pose proof (ContentRecord_inv _ _ V) as ->.
  exists t, n, tags, stored, b. repeat split; auto.
Qed.

Lemma find_app_fresh {A} (p : A -> bool) l x :
  existsb p l = false -> p x = true -> find p (l ++ [x]) = Some x.
Proof.
  induction l as [|a l IH]; simpl; intros E P.
  - rewrite P. reflexivity.
  - apply orb_false_iff in E. destruct E as [Ea El]. rewrite Ea. auto.
Qed.

(** X6. An upload that fails type or size validation with an HTTP error is
    refused with that very error and leaves the world exactly as it was: no
    blob, no record, no identifier drawn, nothing logged. *)
Theorem upload_refused_by_validation_writes_nothing
    f description file_tags user_id w status_code detail :
  validate_file_type f = Raise (HTTPException status_code detail) \/
  ((exists t, validate_file_type f = Ok t) /\
   validate_file_size f = Raise (HTTPException status_code detail)) ->
  process_file_upload f description file_tags user_id w
  = (Raise (HTTPException status_code detail), w).
Proof.
  intros [T | ((t & T) & S)]; rewrite process_file_upload_spec, T;
    [|rewrite S]; reflexivity.
Qed.

(** X7. When the blob store refuses the content, the upload fails (with the
    store's HTTP error, or else with 500) and no record is written, no
    identifier is drawn and no account is touched. *)
Theorem upload_without_content_blob_leaves_no_record
    f description file_tags user_id w t n tags e b :
  validate_file_type f = Ok t ->
  validate_file_size f = Ok n ->
  fst (parse_tags file_tags w) = Ok tags ->
  upload_file (UploadFile.file f) user_id (UploadFile.filename f)
    (UploadFile.content_type f) (blob_container w) = (Raise e, b) ->
  let out := process_file_upload f description file_tags user_id w in
  fst out = Raise (if is_HTTPException e then e
                   else HTTPException HTTP_500_INTERNAL_SERVER_ERROR
                          ("Failed to upload media: " ++ exn_str e)) /\
  same_index w (snd out).
Proof.
  intros T S P U out. unfold out.
  rewrite process_file_upload_spec, T, S, P, U.
  unfold upload_failed, same_index.
  destruct (is_HTTPException e); simpl; auto.
Qed.

(** X8. A record returned by an upload can be fetched at once by its id
    under the uploader's identity, and it carries what was uploaded: the
    owner, the file name, the MIME type, the description, and the type and
    size the validators returned. *)
Theorem uploaded_record_is_fetched_back f description file_tags user_id w d w' :
  process_file_upload f description file_tags user_id w = (Ok d, w') ->
  fetch_media_details (Media.id d) user_id w' = (Ok d, w') /\
  Media.userId d = user_id /\
  Media.originalFileName d = UploadFile.filename f /\
  Media.mimeType d = UploadFile.content_type f /\
  Media.description d = description /\
  validate_file_type f = Ok (Media.mediaType d) /\
  validate_file_size f = Ok (Media.fileSize d).
Proof.
  intros H.
  destruct (upload_success_inv _ _ _ _ _ _ _ H)
    as (t & n & tags & stored & b & T & S & _ & _ & D & X & V & W).
  assert (U : Media.userId d = user_id) by (rewrite D; reflexivity).
  split.
  - rewrite fetch_media_details_spec. rewrite W at 1. cbn [media_container set_media].
    rewrite (find_app_fresh _ _ d X), V; [reflexivity|].
    apply media_item_is_true. auto.
  - rewrite D. simpl. repeat split; assumption.
Qed.

(** X9. Only images get a thumbnail: a record returned by an upload with a
    [thumbnailUrl] has media type "image". *)
Theorem thumbnail_only_for_images f description file_tags user_id w d w' :
  process_file_upload f description file_tags user_id w = (Ok d, w') ->
  Media.thumbnailUrl d <> None -> Media.mediaType d = "image".
Proof.
  intros H N.
  destruct (upload_success_inv _ _ _ _ _ _ _ H)
    as (t & n & tags & stored & b & _ & _ & _ & _ & D & _).
  rewrite D in N |- *. simpl in *.
  destruct (store_thumbnail_never_raises f t user_id (set_blobs b w)) as (pv & E & I).
  rewrite E in N. apply I, N.
Qed.

(** X10. A thumbnail that cannot be stored does not fail the upload: when
    the content blob is stored and the blob store refuses the thumbnail, the
    record is created without [thumbnailUrl], returned, and a warning is
    logged. *)
Theorem failed_thumbnail_upload_is_tolerated
    f description file_tags user_id w n tags stored b c r e b' :
  validate_file_type f = Ok "image" ->
  validate_file_size f = Ok n ->
  fst (parse_tags file_tags w) = Ok tags ->
  upload_file (UploadFile.file f) user_id (UploadFile.filename f)
    (UploadFile.content_type f) (blob_container w) = (Ok stored, b) ->
  generate_thumbnail (UploadFile.file f) = Some (String c r) ->
  upload_file (String c r) user_id ("thumb_" ++ UploadFile.filename f)
    "image/jpeg" b = (Raise e, b') ->
  let d := new_record f "image" n description tags stored None user_id
             (uuid_of (uuid_calls w)) (clock w) in
  existsb (media_item_is (Media.id d) user_id) (media_container w) = false ->
  ContentRecord d = Ok d ->
  let out := process_file_upload f description file_tags user_id w in
  fst out = Ok d /\
  In d (media_container (snd out)) /\
  In (WARNING, "Thumbnail creation failed: " ++ exn_str e) (logs (snd out)).
Proof.
  intros T S P U G U2 d X V out. unfold out.
  rewrite process_file_upload_spec, T, S, P, U. cbv zeta.
  rewrite store_thumbnail_spec. cbn [String.eqb Ascii.eqb Bool.eqb].
  rewrite G. cbn [blob_container set_blobs]. rewrite U2.
  cbn [fst snd preview_of]. fold d. rewrite X, V.
  cbn [fst snd media_container set_media logs uuid4 logger set_blobs].
  split; [reflexivity|]. split; apply in_or_app; right; left; reflexivity.
Qed.

Lemma long_description_is_invalid d text :
  Media.description d = Some text -> (500 < String.length text)%nat ->
  exists e, ContentRecord d = Raise e.
Proof.
  intros D L. unfold ContentRecord. rewrite D.
  replace (Nat.leb (String.length text) 500) with false
    by (symmetry; apply Nat.leb_gt, L).
  rewrite andb_false_r. eauto.
Qed.

(** X11. An upload whose description is longer than 500 characters is
    stored all the same (the form field has no limit) and only then fails
    the response model: the answer is 500, and the record, with that
    description, is in the container. *)
Theorem oversized_description_is_stored_then_refused
    f text file_tags user_id w t n tags stored b :
  validate_file_type f = Ok t ->
  validate_file_size f = Ok n ->
  fst (parse_tags file_tags w) = Ok tags ->
  upload_file (UploadFile.file f) user_id (UploadFile.filename f)
    (UploadFile.content_type f) (blob_container w) = (Ok stored, b) ->
  (500 < String.length text)%nat ->
  existsb (media_item_is (uuid_of (uuid_calls w)) user_id) (media_container w) = false ->
  let out := process_file_upload f (Some text) file_tags user_id w in
  (exists detail, fst out = Raise (HTTPException HTTP_500_INTERNAL_SERVER_ERROR detail)) /\
  exists d, In d (media_container (snd out)) /\
            Media.id d = uuid_of (uuid_calls w) /\
            Media.userId d = user_id /\
            Media.description d = Some text.
Proof.
  intros T S P U L X out. unfold out.
  rewrite process_file_upload_spec, T, S, P, U. cbv zeta.
  set (d := new_record _ _ _ _ _ _ _ _ _ _).
  change (Media.id d) with (uuid_of (uuid_calls w)). rewrite X.
  destruct (long_description_is_invalid d text eq_refl L) as (e & V). rewrite V.
  assert (N : is_HTTPException e = false).
  { unfold ContentRecord in V. destruct (andb _ _); [discriminate|].
    injection V as <-. reflexivity. }
  unfold upload_failed. rewrite N. simpl. split; [eauto|].
  exists d. split; [apply in_or_app; right; left; reflexivity|]. auto.
Qed.

Lemma validate_all_fails rows d :
  In d rows -> (exists e, ContentRecord d = Raise e) ->
  exists e, validate_all rows = Raise e.
Proof.
  induction rows as [|x rows IH]; simpl; [tauto|].
  intros [-> | I] (e & V).
  - rewrite V. eauto.
  - destruct (IH I (ex_intro _ e V)) as (e' & E). rewrite E.
    destruct (ContentRecord x); eauto.
Qed.

(** X12. One stored document that the response model refuses fails every
    page it is on: the listing and the search answer 500 when any row of the
    page does not validate. *)
Theorem one_invalid_row_fails_the_page
    user_id page_num items_per_page content_type search_term w d :
  (exists e, ContentRecord d = Raise e) ->
  (In d (rows_of (get_user_media user_id page_num items_per_page content_type w)) ->
   fst (retrieve_media_list page_num items_per_page content_type user_id w)
   = Raise (HTTPException HTTP_500_INTERNAL_SERVER_ERROR "Failed to retrieve media list")) /\
  (In d (rows_of (search_media user_id search_term page_num items_per_page w)) ->
   fst (find_media_by_query search_term page_num items_per_page user_id w)
   = Raise (HTTPException HTTP_500_INTERNAL_SERVER_ERROR "Failed to search media")).
Proof.
  intros V. split; intros I.
  - unfold retrieve_media_list, try_except, bind, rows_of in *.
    destruct (get_user_media _ _ _ _ w) as [[[rows total]|e] w1]; simpl in I; [|tauto].
    unfold lift. cbn [fst].
    destruct (validate_all_fails rows d I V) as (e & E). rewrite E. reflexivity.
  - unfold find_media_by_query, try_except, bind, rows_of in *.
    destruct (search_media _ _ _ _ w) as [[[rows total]|e] w1]; simpl in I; [|tauto].
    unfold lift. cbn [fst].
    destruct (validate_all_fails rows d I V) as (e & E). rewrite E. reflexivity.
Qed.

(** X13. After an upload that returned a record, the uploader's unfiltered
    listing counts one document more than before, on every page. *)
Theorem upload_adds_one_to_the_listing_total
    f description file_tags user_id w d w' page page_size :
  process_file_upload f description file_tags user_id w = (Ok d, w') ->
  (1 <= page)%Z -> (0 <= page_size)%Z ->
  exists rows rows' total,
    get_user_media user_id page page_size None w = (Ok (rows, total), w) /\
    get_user_media user_id page page_size None w' = (Ok (rows', (total + 1)%Z), w').
Proof.
  intros H P S.
  destruct (upload_success_inv _ _ _ _ _ _ _ H)
    as (t & n & tags & stored & b & _ & _ & _ & _ & D & _ & _ & W).
  assert (U : Media.userId d = user_id) by (rewrite D; reflexivity).
  rewrite !get_user_media_spec by assumption. cbv zeta.
  do 3 eexists. split; [reflexivity|]. f_equal. f_equal. f_equal.
  rewrite W. cbn [media_container set_media].
  rewrite filter_app, length_app. simpl.
  unfold selects at 2. simpl. rewrite U, String.eqb_refl. simpl. lia.
Qed.

(** ** What a listing can contain *)

Lemma in_firstn {A} n (l : list A) x : In x (firstn n l) -> In x l.
Proof.
  revert l. induction n as [|n IH]; intros [|a l]; simpl; try tauto.
  intros [E | I]; auto.
Qed.

Lemma in_skipn {A} n (l : list A) x : In x (skipn n l) -> In x l.
Proof.
  revert l. induction n as [|n IH]; intros [|a l]; simpl; try tauto.
  intros I. right. apply IH, I.
Qed.

Lemma in_query_rows q w rows w' d :
  query_items q w = (Ok rows, w') -> In d rows ->
  In d (media_container w) /\ selects (where_ q) d = true.
Proof.
  unfold query_items, ordered. intros H I.
  assert (X : In d (filter (selects (where_ q)) (media_container w)));
    [|apply filter_In in X; exact X].
  destruct (offset_limit q) as [[off lim]|].
  - destruct (orb _ _); [discriminate|]. injection H as <- _.
    apply in_firstn, in_skipn in I.
    destruct (order_by_uploadedAt_desc q); [|exact I].
    exact (Permutation_in _ (order_by_desc_perm _) I).
  - injection H as <- _.
    destruct (order_by_uploadedAt_desc q); [|exact I].
    exact (Permutation_in _ (order_by_desc_perm _) I).
Qed.

Lemma selects_listing_owner user_id media_type d :
  selects (listing_where user_id media_type) d = true -> Media.userId d = user_id.
Proof.
  unfold selects, listing_where.
  destruct media_type as [[|c t]|]; simpl;
    destruct (String.eqb_spec (Media.userId d) user_id); auto;
    try discriminate.
Qed.

(** X14. A listing or a search made for one user returns documents of that
    user only, each of them a document of the container, whatever the page,
    the page size, the type filter or the search term. *)
Theorem listed_rows_belong_to_the_caller user_id page page_size w d :
  (forall media_type,
      In d (rows_of (get_user_media user_id page page_size media_type w)) ->
      Media.userId d = user_id /\ In d (media_container w)) /\
  (forall query,
      In d (rows_of (search_media user_id query page page_size w)) ->
      Media.userId d = user_id /\ In d (media_container w)).
Proof.
  split.
  - intros media_type. unfold rows_of, get_user_media, try_except, bind.
    fold (listing_where user_id media_type).
    unfold query_count at 1. cbv beta iota zeta.
    destruct (query_items _ w) as [[rows|e] w1] eqn:Q.
    + cbn [fst ret]. intros I.
      destruct (in_query_rows _ _ _ _ d Q I) as (M & S). split; [|exact M].
      exact (selects_listing_owner _ _ _ S).
    + unfold log_and_reraise.
      destruct (is_CosmosHttpResponseError e); simpl; tauto.
  - intros query. unfold rows_of, search_media, try_except, bind.
    unfold query_count at 1. cbv beta iota zeta.
    destruct (query_items _ w) as [[rows|e] w1] eqn:Q.
    + cbn [fst ret]. intros I.
      destruct (in_query_rows _ _ _ _ d Q I) as (M & S). split; [|exact M].
      cbn [where_ with_offset_limit] in S. rewrite selects_search in S.
      apply andb_true_iff in S. apply String.eqb_eq, S.
    + unfold log_and_reraise.
      destruct (is_CosmosHttpResponseError e); simpl; tauto.
Qed.

(** X15. Search results are paged like listings: for a page size of at
    least 1, the rows are the owner's documents the query matches, latest
    upload first; page [p >= 1] is the window at offset [(p-1)*s]; the total
    is the number of all matches; and pages 1 to ceil(N/s) put end to end
    give every match once. *)
Theorem search_pages_partition_the_ordered_matches user_id query page_size w :
  (1 <= page_size)%Z ->
  let matching :=
    filter (fun d => andb (String.eqb (Media.userId d) user_id)
                          (code_search_match query d)) (media_container w) in
  let rows := order_by_desc matching in
  let s := Z.to_nat page_size in
  Permutation rows matching /\
  StronglySorted later_first rows /\
  (forall page, (1 <= page)%Z ->
     search_media user_id query page page_size w
     = (Ok (firstn s (skipn ((Z.to_nat page - 1) * s) rows),
            Z.of_nat (List.length matching)), w)) /\
  List.concat
    (map (fun p => rows_of (search_media user_id query (Z.of_nat p) page_size w))
         (seq 1 (page_count (List.length matching) s)))
  = rows.
Proof.
  intros Hs matching rows s.
  assert (G : forall page, (1 <= page)%Z ->
     search_media user_id query page page_size w
     = (Ok (window s (Z.to_nat page - 1) rows, Z.of_nat (List.length matching)), w)).
  { intros page P. rewrite search_media_spec by lia. reflexivity. }
  split; [apply order_by_desc_perm|].
  split; [apply order_by_desc_sorted|].
  split; [exact G|].
  transitivity
    (List.concat (map (fun k => window s k rows)
                      (seq 0 (page_count (List.length rows) s)))).
  - unfold rows at 2. rewrite order_by_desc_length.
    rewrite <- seq_shift, map_map. f_equal. apply map_ext_in.
    intros k _. rewrite G by lia. unfold rows_of. cbn [fst].
    rewrite Nat2Z.id, Nat.sub_1_r. reflexivity.
  - apply windows_partition. lia.
Qed.

Lemma contains_empty s : Str.contains s "" = true.
Proof. destruct s; reflexivity. Qed.

(** X16. Searching for the empty term is listing without a filter: the
    empty string is a substring of every file name, so [search_media] with
    term "" answers as [get_user_media] without media type does, rows and
    total, on every page. *)
Theorem empty_search_is_the_unfiltered_listing user_id page page_size w :
  fst (search_media user_id "" page page_size w)
  = fst (get_user_media user_id page page_size None w).
Proof.
  assert (F : filter (selects (search_where user_id "")) (media_container w)
              = filter (selects (userId_eq user_id)) (media_container w)).
  { apply filter_ext. intros d. rewrite selects_search.
    unfold code_search_match. change (Str.lower "") with "".
    rewrite contains_empty. unfold selects. simpl.
    destruct (String.eqb _ _); reflexivity. }
  unfold search_media, get_user_media, try_except, bind, query_count,
    query_items, with_offset_limit, ordered.
  cbn [where_ order_by_uploadedAt_desc offset_limit first_or_zero].
  rewrite F.
  destruct (orb _ _); reflexivity.
Qed.

(** ** Accounts *)

Lemma no_account_with_email email_address (l : list User.doc) :
  (forall u, In u l -> User.email u <> email_address) ->
  filter (fun u => String.eqb (User.email u) email_address) l = [].
Proof.
  induction l as [|u l IH]; intros H; [reflexivity|]. simpl.
  destruct (String.eqb_spec (User.email u) email_address) as [E|_].
  - destruct (H u (or_introl eq_refl) E).
  - apply IH. intros v I. apply H. right. exact I.
Qed.

Lemma no_account_with_id i (l : list User.doc) :
  (forall u, In u l -> User.id u <> i) ->
  existsb (fun u => String.eqb (User.id u) i) l = false.
Proof.
  intros H. destruct (existsb _ l) eqn:E; [|reflexivity].
  apply existsb_exists in E. destruct E as (u & I & E).
  apply String.eqb_eq in E. destruct (H u I E).
Qed.

(** [create_user_account] as one case analysis. *)
Lemma create_user_account_spec r w :
  create_user_account r w
  = let w0 := snd (logger INFO ("New registration request: " ++ reg_email r) w) in
    match filter (fun u => String.eqb (User.email u) (reg_email r)) (users_container w) with
    | _ :: _ =>
        (Raise (HTTPException HTTP_400_BAD_REQUEST "User with this email already exists"),
         snd (logger WARNING ("Duplicate email detected: " ++ reg_email r) w0))
    | [] =>
        let account := new_account r (uuid_of (uuid_calls w)) (clock w) in
        let w1 := snd (uuid4 w0) in
        if existsb (fun u => String.eqb (User.id u) (User.id account)) (users_container w)
        then (Raise (HTTPException HTTP_400_BAD_REQUEST "User already exists"),
              snd (logger ERROR "Validation failed: User already exists" w1))
        else (Ok {| user := profile_of account;
                    token := create_access_token (reg_email r) (User.id account) |},
              snd (logger INFO ("Successfully registered: " ++ reg_email r)
                     (set_users (users_container w ++ [account]) w1)))
    end.
Proof.
  unfold create_user_account, try_except, bind, logger at 1, get_user_by_email.
  cbn [users_container fst snd]. cbv zeta.
  destruct (filter _ (users_container w)) as [|u l]; [|reflexivity].
  unfold uuid4, utcnow, create_user, try_except, users_create_item.
  cbn [users_container uuid_calls clock fst snd].
  fold (new_account r (uuid_of (uuid_calls w)) (clock w)).
  destruct (existsb _ _); reflexivity.
Qed.

(** X1. Registering an email that an account already has is refused with
    400 "User with this email already exists"; no account is written, no
    identifier is drawn, nothing but the log changes. *)
Theorem duplicate_email_is_refused_without_a_write r w :
  (exists u, In u (users_container w) /\ User.email u = reg_email r) ->
  fst (create_user_account r w)
  = Raise (HTTPException HTTP_400_BAD_REQUEST "User with this email already exists") /\
  same_data w (snd (create_user_account r w)).
Proof.
  intros (u & I & E). rewrite create_user_account_spec. cbv zeta.
  destruct (filter _ (users_container w)) as [|a l] eqn:F.
  - exfalso. assert (X : In u (@nil User.doc)); [|exact X].
    rewrite <- F. apply filter_In. split; [exact I | apply String.eqb_eq, E].
  - split; [reflexivity | repeat split].
Qed.

(** X2. Registration and login round-trip: for a new email (and an id the
    generator has not given to an account), with a password hash that
    verifies, the registration succeeds, and a login with the same email and
    password then returns the same profile and the same token. *)
Theorem registered_user_can_log_in r w :
  (forall u, In u (users_container w) -> User.email u <> reg_email r) ->
  (forall u, In u (users_container w) -> User.id u <> uuid_of (uuid_calls w)) ->
  verify_password (reg_password r) (get_password_hash (reg_password r)) = true ->
  exists tok,
    fst (create_user_account r w) = Ok tok /\
    fst (authenticate_user (credentials_of r) (snd (create_user_account r w))) = Ok tok /\
    profile_id (user tok) = uuid_of (uuid_calls w) /\
    profile_email (user tok) = reg_email r.
Proof.
  intros E I V. rewrite create_user_account_spec. cbv zeta.
  rewrite (no_account_with_email _ _ E).
  cbn [User.id new_account]. rewrite (no_account_with_id _ _ I).
  eexists. split; [reflexivity|]. cbn [fst snd]. split; [|split; reflexivity].
  unfold authenticate_user, try_except, bind, logger, get_user_by_email.
  cbn [users_container set_users uuid4 fst snd credentials_of cred_email cred_password].
  rewrite filter_app, (no_account_with_email _ _ E).
  cbn [filter app User.email new_account]. rewrite String.eqb_refl.
  cbn [User.hashed_password new_account]. rewrite V. reflexivity.
Qed.

(** X4. A login succeeds only with a password that verifies: whenever
    [authenticate_user] returns a token, the container holds an account with
    the given email whose hash the given password verifies against, and the
    answer is that account's profile and a token for its email and id. *)
Theorem login_succeeds_only_with_a_verified_password credentials w tok :
  fst (authenticate_user credentials w) = Ok tok ->
  exists account,
    In account (users_container w) /\
    User.email account = cred_email credentials /\
    verify_password (cred_password credentials) (User.hashed_password account) = true /\
    user tok = profile_of account /\
    token tok = create_access_token (User.email account) (User.id account).
Proof.
  unfold authenticate_user, try_except, bind, logger, get_user_by_email.
  cbn [users_container fst snd].
  destruct (filter _ (users_container w)) as [|a l] eqn:F; [discriminate|].
  assert (X : In a (filter (fun u => String.eqb (User.email u) (cred_email credentials))
                           (users_container w))) by (rewrite F; left; reflexivity).
  apply filter_In in X. destruct X as (I & E). apply String.eqb_eq in E.
  destruct (verify_password _ _) eqn:V; [|discriminate].
  cbn [negb fst]. intros H. injection H as <-.
  exists a. auto.
Qed.

Lemma NoDup_snoc {A} (l : list A) x : NoDup l -> ~ In x l -> NoDup (l ++ [x]).
Proof.
  intros N X. apply NoDup_app; [exact N | constructor; [intros [] | constructor] |].
  intros a Ia [<- | []]. exact (X Ia).
Qed.

Lemma registration_keeps_accounts_distinct r w :
  accounts_distinct w -> accounts_distinct (snd (create_user_account r w)).
Proof.
  intros [Ne Ni]. rewrite create_user_account_spec. cbv zeta.
  destruct (filter _ (users_container w)) as [|a l] eqn:F; [|split; assumption].
  destruct (existsb _ (users_container w)) eqn:X; [split; assumption|].
  unfold accounts_distinct. cbn [snd logger users_container set_users].
  rewrite !map_app. cbn [map]. split; apply NoDup_snoc; auto.
  - intros I. apply in_map_iff in I. destruct I as (u & E & I).
    assert (Y : In u (filter (fun u => String.eqb (User.email u) (reg_email r))
                             (users_container w))).
    { apply filter_In. split; [exact I | apply String.eqb_eq, E]. }
    rewrite F in Y. exact Y.
  - intros I. apply in_map_iff in I. destruct I as (u & E & I).
    assert (Y : existsb (fun u => String.eqb (User.id u)
                  (User.id (new_account r (uuid_of (uuid_calls w)) (clock w))))
                  (users_container w) = true).
    { apply existsb_exists. exists u. split; [exact I | apply String.eqb_eq, E]. }
    congruence.
Qed.

Lemma upload_same_users f description file_tags user_id :
  preserves same_users (process_file_upload f description file_tags user_id).
Proof.
  unfold process_file_upload, parse_tags, store_thumbnail, create_media,
    log_and_reraise, internal_error.
  composite same_users_preorder.
Qed.

Lemma modify_same_users media_id u owner_id :
  preserves same_users (modify_media_info media_id u owner_id).
Proof.
  unfold modify_media_info, update_media, get_media_by_id, log_and_reraise,
    internal_error.
  composite same_users_preorder.
Qed.

Lemma remove_same_users media_id owner_id :
  preserves same_users (remove_media_file media_id owner_id).
Proof.
  unfold remove_media_file, delete_media, get_media_by_id, log_and_reraise,
    internal_error.
  composite same_users_preorder.
Qed.

Lemma reading_same_users :
  (forall c, preserves same_users (authenticate_user c)) /\
  (forall q p s u, preserves same_users (find_media_by_query q p s u)) /\
  (forall p s t u, preserves same_users (retrieve_media_list p s t u)) /\
  (forall i u, preserves same_users (fetch_media_details i u)).
Proof.
  split; [|split; [|split]]; intros.
  - unfold authenticate_user, internal_error. composite same_users_preorder.
  - unfold find_media_by_query, search_media, log_and_reraise, internal_error.
    composite same_users_preorder.
  - unfold retrieve_media_list, get_user_media, log_and_reraise, internal_error.
    composite same_users_preorder.
  - unfold fetch_media_details, get_media_by_id, log_and_reraise, internal_error.
    composite same_users_preorder.
Qed.

Lemma serve_keeps_accounts_distinct ev w :
  accounts_distinct w -> accounts_distinct (snd (serve ev w)).
Proof.
  intros A.
  assert (Q : forall X (m : M X) (wrap : Result X -> Response),
             preserves same_users m ->
             accounts_distinct (snd (let (x, w') := m w in (wrap x, w')))).
  { intros X m wrap P. specialize (P w). destruct (m w) as [x w1].
    unfold accounts_distinct, same_users in *. simpl in *. rewrite P. exact A. }
  destruct reading_same_users as (R1 & R2 & R3 & R4).
  destruct ev; simpl.
  - exact A.
  - pose proof (registration_keeps_accounts_distinct registration_data w A) as H.
    destruct (create_user_account registration_data w). exact H.
  - apply Q, R1.
  - apply Q, upload_same_users.
  - apply Q, R2.
  - apply Q, R3.
  - apply Q, R4.
  - apply Q, modify_same_users.
  - apply Q, remove_same_users.
Qed.

(** X3. Accounts stay distinct: if no two accounts share an email or an id,
    the same holds after any sequence of requests.  Registration checks the
    email first and the container refuses an id it already holds; no other
    request writes an account. *)
Theorem accounts_stay_distinct evs w :
  accounts_distinct w -> accounts_distinct (snd (run evs w)).
Proof.
  revert w. induction evs as [|ev evs IH]; intros w A; [exact A|].
  simpl. pose proof (serve_keeps_accounts_distinct ev w A) as A1.
  destruct (serve ev w) as [r w1]. specialize (IH w1 A1).
  destruct (run evs w1) as [rs w2]. exact IH.
Qed.

(** ** Deleting and updating *)

(** [remove_media_file] as one case analysis. *)
Lemma remove_media_file_spec media_id owner_id w :
  remove_media_file media_id owner_id w
  = match find (media_item_is media_id owner_id) (media_container w) with
    | None => (Raise (HTTPException HTTP_404_NOT_FOUND "Media not found"), w)
    | Some d =>
        match delete_file (Media.fileName d) (blob_container w) with
        | (Raise e, b) => remove_failed e (set_blobs b w)
        | (Ok _, b) =>
            let w2 :=
              if truthy (Media.thumbnailUrl d) then
                match delete_file (thumb_identifier d) b with
                | (Ok _, b2) => set_blobs b2 w
                | (Raise e, b2) =>
                    snd (logger WARNING ("Thumbnail deletion failed: " ++ exn_str e)
                           (set_blobs b2 w))
                end
              else set_blobs b w in
            (Ok tt,
             set_media (filter (fun x => negb (media_item_is media_id owner_id x))
                               (media_container w)) w2)
        end
    end.
Proof.
  unfold remove_media_file, try_except, bind.
  rewrite get_media_by_id_spec.
  destruct (find _ _) as [d|] eqn:F; [|reflexivity].
  destruct (found_is_owned _ _ _ _ F) as (_ & _ & U).
  apply String.eqb_eq in U. rewrite U. cbn [negb]. cbv beta iota.
  unfold blob_delete at 1.
  destruct (delete_file (Media.fileName d) _) as [[[]|e] b]; [|reflexivity].
  cbv zeta. destruct (truthy (Media.thumbnailUrl d)).
  - unfold blob_delete. cbn [blob_container set_blobs].
    destruct (delete_file (thumb_identifier d) b) as [[[]|e] b2];
      unfold logger; rewrite delete_media_spec;
      cbn [media_container set_blobs]; rewrite (find_existsb _ _ _ F); reflexivity.
  - unfold ret. rewrite delete_media_spec.
    cbn [media_container set_blobs]. rewrite (find_existsb _ _ _ F). reflexivity.
Qed.

Lemma remove_failed_not_ok e w w' : remove_failed e w = (Ok tt, w') -> False.
Proof.
  unfold remove_failed, internal_error, bind, logger, raise.
  destruct (is_HTTPException e); discriminate.
Qed.

(** X17. A request for an id the caller has no document under is answered
    404 "Media not found" by get, update and delete alike, and changes
    nothing at all: no blob is deleted, no record written, nothing logged. *)
Theorem absent_id_is_not_found_and_nothing_changes media_id owner_id u w :
  find (media_item_is media_id owner_id) (media_container w) = None ->
  fetch_media_details media_id owner_id w
  = (Raise (HTTPException HTTP_404_NOT_FOUND "Media not found"), w) /\
  modify_media_info media_id u owner_id w
  = (Raise (HTTPException HTTP_404_NOT_FOUND "Media not found"), w) /\
  remove_media_file media_id owner_id w
  = (Raise (HTTPException HTTP_404_NOT_FOUND "Media not found"), w).
Proof.
  intros F.
  rewrite fetch_media_details_spec, modify_media_info_spec, remove_media_file_spec, F.
  repeat split.
Qed.

(** X18. A deleted record is gone: after a delete that succeeded, a fetch
    and a second delete of the same id under the same identity both answer
    404 "Media not found". *)
Theorem deleted_record_is_not_found_again media_id owner_id w w' :
  remove_media_file media_id owner_id w = (Ok tt, w') ->
  fetch_media_details media_id owner_id w'
  = (Raise (HTTPException HTTP_404_NOT_FOUND "Media not found"), w') /\
  remove_media_file media_id owner_id w'
  = (Raise (HTTPException HTTP_404_NOT_FOUND "Media not found"), w').
Proof.
  intros H.
  assert (F : find (media_item_is media_id owner_id) (media_container w') = None).
  { rewrite remove_media_file_spec in H.
    destruct (find _ (media_container w)) as [d|]; [|discriminate].
    destruct (delete_file (Media.fileName d) _) as [[[]|e] b];
      [|destruct (remove_failed_not_ok _ _ _ H)].
    injection H as <-. apply find_after_delete. }
  rewrite fetch_media_details_spec, remove_media_file_spec, F. split; reflexivity.
Qed.

(** X19. A delete removes nothing but the addressed record: whatever it
    answers, every document other than the caller's document with that id is
    in the container afterwards exactly if it was before, and accounts, clock
    and generator are untouched. *)
Theorem delete_touches_only_the_addressed_record media_id owner_id w d :
  media_item_is media_id owner_id d = false ->
  let w' := snd (remove_media_file media_id owner_id w) in
  (In d (media_container w') <-> In d (media_container w)) /\
  users_container w' = users_container w /\
  clock w' = clock w /\ uuid_calls w' = uuid_calls w.
Proof.
  intros N w'. unfold w'. rewrite remove_media_file_spec.
  destruct (find _ (media_container w)) as [x|]; [|simpl; tauto].
  destruct (delete_file (Media.fileName x) _) as [[[]|e] b].
  - cbv zeta. cbn [snd media_container set_media users_container clock uuid_calls].
    split.
    + rewrite filter_In, N. simpl. tauto.
    + destruct (truthy _); [|simpl; auto].
      destruct (delete_file (thumb_identifier x) b) as [[[]|e] b2]; simpl; auto.
  - unfold remove_failed, internal_error, bind, logger, raise.
    destruct (is_HTTPException e); simpl; tauto.
Qed.

(** X20. An update that succeeded is what a fetch then returns: the record
    the update answered with is the record stored under that id. *)
Theorem updated_record_is_fetched_back media_id u owner_id w r w' :
  modify_media_info media_id u owner_id w = (Ok r, w') ->
  fetch_media_details media_id owner_id w' = (Ok r, w') /\
  Media.updatedAt r = clock w.
Proof.
  rewrite modify_media_info_spec.
  destruct (find _ (media_container w)) as [old|] eqn:F; [|discriminate].
  cbv zeta. destruct (ContentRecord _) as [x|e] eqn:V; [|discriminate].
  intros H. injection H as <- <-.
  pose proof (ContentRecord_inv _ _ V) as E. subst x.
  split; [|reflexivity].
  rewrite fetch_media_details_spec. cbn [media_container set_media].
  rewrite (find_replaced _ _ _ _ old F), V; [reflexivity|].
  apply media_item_is_true. simpl. apply found_is_owned in F. tauto.
Qed.

(** ** One owner's requests and the other owners' documents *)

Lemma upload_failed_media e w :
  media_container (snd (upload_failed e w)) = media_container w.
Proof.
  unfold upload_failed, internal_error, bind, logger, raise.
  destruct (is_HTTPException e); reflexivity.
Qed.

Lemma upload_media_effect f description file_tags user_id w :
  let w' := snd (process_file_upload f description file_tags user_id w) in
  media_container w' = media_container w \/
  exists d, Media.userId d = user_id /\
            media_container w' = (media_container w ++ [d])%list.
Proof.
  cbv zeta. rewrite process_file_upload_spec.
  destruct (validate_file_type f) as [t|e]; [|left; apply upload_failed_media].
  destruct (validate_file_size f) as [n|e]; [|left; apply upload_failed_media].
  destruct (fst (parse_tags file_tags w)) as [tags|e]; [|left; apply upload_failed_media].
  destruct (upload_file _ _ _ _ _) as [[stored|e] b];
    [|left; rewrite upload_failed_media; reflexivity].
  cbv zeta.
  destruct (store_thumbnail_same_index f t user_id (set_blobs b w)) as (_ & Mt & _).
  set (d := new_record _ _ _ _ _ _ _ _ _ _).
  destruct (existsb _ _).
  - left. rewrite upload_failed_media. simpl. exact Mt.
  - right. exists d. split; [reflexivity|].
    destruct (ContentRecord d); [reflexivity|]. rewrite upload_failed_media. reflexivity.
Qed.

Lemma not_owned_not_addressed media_id owner_id d :
  Media.userId d <> owner_id -> media_item_is media_id owner_id d = false.
Proof.
  intros N. destruct (media_item_is media_id owner_id d) eqn:E; [|reflexivity].
  apply media_item_is_true in E. tauto.
Qed.

(** X21. A request made under one identity never adds, removes or alters a
    document of another owner: after an upload, search, listing, fetch,
    update or delete by [u], the documents whose [userId] is not [u] are
    exactly those there were; a registration, a login or the passing of time
    leaves the whole media container as it is. *)
Theorem requests_leave_other_owners_documents_alone ev w :
  match caller ev with
  | Some u => others_kept u w (snd (serve ev w))
  | None => media_container (snd (serve ev w)) = media_container w
  end.
Proof.
  assert (Q : forall X (m : M X) (wrap : Result X -> Response) u,
             calm m -> others_kept u w (snd (let (x, w') := m w in (wrap x, w')))).
  { intros X m wrap u C. destruct (C w) as (Mw & _). destruct (m w) as [x w1].
    simpl in *. intros d _. rewrite Mw. reflexivity. }
  destruct ev; simpl.
  - reflexivity.
  - destruct (calm_create_user_account registration_data w) as (Mw & _).
    destruct (create_user_account registration_data w). exact Mw.
  - destruct (calm_authenticate_user credentials w) as (Mw & _).
    destruct (authenticate_user credentials w). exact Mw.
  - pose proof (upload_media_effect uploaded_file file_description file_tags
                  current_user w) as E. cbv zeta in E.
    destruct (process_file_upload _ _ _ _ w) as [x w1]. simpl in *.
    intros d N. destruct E as [-> | (x0 & U & ->)]; [reflexivity|].
    rewrite in_app_iff. simpl. split; [|tauto].
    intros [I | [<- | []]]; [exact I | contradiction].
  - apply Q, calm_find_media_by_query.
  - apply Q, calm_retrieve_media_list.
  - apply Q, calm_fetch_media_details.
  - pose proof (modify_media_info_spec media_id metadata_updates owner_id w) as E.
    destruct (modify_media_info _ _ _ w) as [x w1]. simpl.
    destruct (find _ (media_container w)) as [old|] eqn:F.
    + cbv zeta in E.
      assert (M1 : media_container w1
                   = replaced media_id owner_id
                       (dict_update old (payload (clock w) metadata_updates))
                       (media_container w)).
      { destruct (ContentRecord _); injection E as _ ->; reflexivity. }
      intros d N. rewrite M1. apply in_replaced_other.
      * apply not_owned_not_addressed, N.
      * apply media_item_is_true. simpl. apply found_is_owned in F. tauto.
    + injection E as _ ->. intros d _. reflexivity.
  - pose proof (remove_media_file_spec media_id owner_id w) as E.
    destruct (remove_media_file _ _ w) as [x w1]. simpl.
    intros d N.
    destruct (find _ (media_container w)) as [old|].
    + destruct (delete_file (Media.fileName old) _) as [[[]|e] b].
      * injection E as _ ->. cbn [media_container set_media].
        rewrite filter_In, (not_owned_not_addressed _ _ _ N). simpl. tauto.
      * unfold remove_failed, internal_error, bind, logger, raise in E.
        destruct (is_HTTPException e); injection E as _ ->; reflexivity.
    + injection E as _ ->. reflexivity.
Qed.

(** ** The thumbnail name, where the derivation works *)

Lemma occurs_early_splits name before :
  occurs_early name before = false ->
  forall a b, before = a ++ b -> b <> "" ->
              String.prefix name (b ++ name) = false.
Proof.
  induction before as [|x p IH]; intros H a b E NE.
  - destruct a; [|discriminate]. simpl in E. congruence.
  - simpl in H. apply orb_false_iff in H. destruct H as [H1 H2].
    destruct a as [|y a]; simpl in E.
    + subst b. exact H1.
    + injection E as _ E. exact (IH H2 a b E NE).
Qed.

(** X22. When the last path component of the original file name occurs in
    the stored name only as its ending, the name [remove_media_file]
    computes for the thumbnail is the stored name with "thumb_" put before
    that component. *)
Theorem thumb_identifier_prefixes_the_last_component d before c f :
  Str.last_component "/" (Media.originalFileName d) = String c f ->
  Media.fileName d = before ++ String c f ->
  occurs_early (String c f) before = false ->
  thumb_identifier d = before ++ "thumb_" ++ String c f.
Proof.
  intros L F O. unfold thumb_identifier. rewrite L, F.
  apply replace_last_component. apply occurs_early_splits, O.
Qed.

(** ** Looking accounts up *)

Lemma unique_match {A} (key : A -> string) (l : list A) a :
  NoDup (map key l) -> In a l ->
  filter (fun u => String.eqb (key u) (key a)) l = [a] /\
  find (fun u => String.eqb (key u) (key a)) l = Some a.
Proof.
  induction l as [|x l IH]; simpl; [tauto|].
  intros N I. apply NoDup_cons_iff in N. destruct N as [X N].
  assert (Out : forall y, In y l -> String.eqb (key y) (key x) = false).
  { intros y Iy. apply String.eqb_neq. intros E. apply X. rewrite <- E.
    apply in_map, Iy. }
  destruct I as [-> | I].
  - rewrite String.eqb_refl. split; [|reflexivity]. f_equal.
    clear IH N X. induction l as [|y l IH]; [reflexivity|]. simpl.
    rewrite (Out y (or_introl eq_refl)). apply IH.
    intros z Iz. apply Out. right. exact Iz.
  - assert (E : String.eqb (key x) (key a) = false).
    { rewrite String.eqb_sym. apply Out, I. }
    rewrite E. apply IH; assumption.
Qed.

(** X23. While accounts are distinct, both lookups return the account
    itself: [get_user_by_email] with its email and [get_user_by_id] with its
    id find that account and no other, and leave the world as it is. *)
Theorem distinct_accounts_are_found_by_email_and_by_id w account :
  accounts_distinct w -> In account (users_container w) ->
  get_user_by_email (User.email account) w = (Ok (Some account), w) /\
  get_user_by_id (User.id account) w = (Ok (Some account), w).
Proof.
  intros [Ne Ni] I. split.
  - unfold get_user_by_email.
    rewrite (proj1 (unique_match User.email _ account Ne I)). reflexivity.
  - unfold get_user_by_id, try_except, bind, users_read_item.
    rewrite (proj2 (unique_match User.id _ account Ni I)). reflexivity.
Qed.

(** ** The collection a listing answers with *)

Lemma validate_all_inv rows out : validate_all rows = Ok out -> out = rows.
Proof.
  revert out. induction rows as [|d rows IH]; simpl; intros out H.
  - injection H as <-. reflexivity.
  - destruct (ContentRecord d) as [d'|e] eqn:V; [|discriminate].
    destruct (validate_all rows) as [rows'|e]; [|discriminate].
    injection H as <-. rewrite (ContentRecord_inv _ _ V), (IH _ eq_refl). reflexivity.
Qed.

(** X24. A listing or search that succeeds answers with exactly what the
    repository returned: the rows of [get_user_media] (of [search_media]) in
    their order, its total, and the page and page size of the request. *)
Theorem collection_is_the_repository_result
    search_term page_num items_per_page content_type owner_id w c w' :
  (retrieve_media_list page_num items_per_page content_type owner_id w = (Ok c, w') ->
   get_user_media owner_id page_num items_per_page content_type w
   = (Ok (Collection.items c, Collection.total c), w') /\
   Collection.page c = page_num /\ Collection.pageSize c = items_per_page) /\
  (find_media_by_query search_term page_num items_per_page owner_id w = (Ok c, w') ->
   search_media owner_id search_term page_num items_per_page w
   = (Ok (Collection.items c, Collection.total c), w') /\
   Collection.page c = page_num /\ Collection.pageSize c = items_per_page).
Proof.
  split.
  - unfold retrieve_media_list, try_except, bind, lift, ret, internal_error, logger, raise.
    destruct (get_user_media _ _ _ _ w) as [[[rows total]|e] w1]; [|discriminate].
    cbn [fst snd]. destruct (validate_all rows) as [out|e] eqn:V; [|discriminate].
    intros H. injection H as <- <-. simpl.
    rewrite (validate_all_inv _ _ V). auto.
  - unfold find_media_by_query, try_except, bind, lift, ret, internal_error, logger, raise.
    destruct (search_media _ _ _ _ w) as [[[rows total]|e] w1]; [|discriminate].
    cbn [fst snd]. destruct (validate_all rows) as [out|e] eqn:V; [|discriminate].
    intros H. injection H as <- <-. simpl.
    rewrite (validate_all_inv _ _ V). auto.
Qed.

(** X25. An update is written before the response is validated: when the
    stored record has a description longer than 500 characters and the
    request does not replace it, the update is answered 404, yet the stored
    record now carries the new [updatedAt]. *)
Theorem update_of_an_invalid_record_is_written_then_refused
    media_id u owner_id w old text :
  find (media_item_is media_id owner_id) (media_container w) = Some old ->
  Media.description old = Some text -> (500 < String.length text)%nat ->
  mod_description u = None ->
  let out := modify_media_info media_id u owner_id w in
  (exists detail, fst out = Raise (HTTPException HTTP_404_NOT_FOUND detail)) /\
  exists stored,
    find (media_item_is media_id owner_id) (media_container (snd out)) = Some stored /\
    Media.updatedAt stored = clock w /\
    Media.description stored = Some text.
Proof.
  intros F D L N out. unfold out. rewrite modify_media_info_spec, F. cbv zeta.
  set (new := dict_update old (payload (clock w) u)).
  assert (Dn : Media.description new = Some text).
  { unfold new. simpl. rewrite N. exact D. }
  destruct (long_description_is_invalid new text Dn L) as (e & V). rewrite V.
  cbn [fst snd media_container set_media]. split; [eauto|].
  exists new. split; [|split; [reflexivity | exact Dn]].
  apply (find_replaced _ _ _ _ old F).
  apply media_item_is_true. simpl. apply found_is_owned in F. tauto.
Qed.

End Endpoints.

(** * The claims on the reference deployment *)

(** C1. A record of alice's requested under bob's identity: the point read
    is made under bob's partition key and finds nothing, so get, update and
    delete all answer 404 "Media not found", not 403. *)
Theorem cross_owner_requests_answer_404 :
  In alice_photo (media_container alice_world) /\
  Media.userId alice_photo = "alice" /\
  fst (fetch_media_details "m1" "bob" alice_world)
  = Raise (HTTPException 404 "Media not found") /\
  fst (modify_media_info "m1" caption "bob" alice_world)
  = Raise (HTTPException 404 "Media not found") /\
  fst (remove_media_file "m1" "bob" alice_world)
  = Raise (HTTPException 404 "Media not found").
Proof.
  split; [left; reflexivity|]. split; [reflexivity|].
  apply (not_in_callers_partition_is_not_found "m1" "bob" caption alice_world).
  reflexivity.
Qed.

(** C2. Tags that are valid JSON but not an array: the upload is refused
    before any write, with status 500 and not 400. *)
Theorem object_tags_answer_500 :
  Json.loads "{}" = Some (JObj []) /\
  fst (process_file_upload (jpeg "cat.jpg") None (Some "{}") "bob" alice_world)
  = Raise (HTTPException 500 "Failed to upload media: Tags must be an array") /\
  media_container
    (snd (process_file_upload (jpeg "cat.jpg") None (Some "{}") "bob" alice_world))
  = media_container alice_world /\
  blob_container
    (snd (process_file_upload (jpeg "cat.jpg") None (Some "{}") "bob" alice_world))
  = blob_container alice_world.
Proof.
  split; [reflexivity|].
  rewrite (upload_with_non_array_tags (jpeg "cat.jpg") None "{" "}" (JObj []) "bob"
             alice_world "image" 3%Z) by reflexivity.
  repeat split.
Qed.

(** C3. A record tagged "Sunset" and a search for "sunset": the term equals
    a tag when case is ignored, and occurs neither in the file name nor in a
    description, and the search returns nothing. *)
Theorem tag_search_is_case_sensitive :
  Media.userId alice_photo = "alice" /\
  spec_search_match "sunset" alice_photo = true /\
  search_media "alice" "sunset" 1 20 alice_world = (Ok ([], 0%Z), alice_world) /\
  search_media "alice" "Sunset" 1 20 alice_world = (Ok ([alice_photo], 1%Z), alice_world).
Proof.
  split; [reflexivity|]. split; [reflexivity|].
  split; rewrite search_media_spec by lia; reflexivity.
Qed.

(** C8. An upload named "photos/cat.jpg": the thumbnail is stored under
    "bob/thumb_photos/cat.jpg", the name computed at deletion is
    "bob/photos/thumb_cat.jpg", and after the deletion the thumbnail blob is
    still in the blob container. *)
Theorem thumbnail_name_is_not_recovered :
  let up := process_file_upload (jpeg "photos/cat.jpg") None None "bob"
              (startup [] 0) in
  let down := remove_media_file (uuid_of 0) "bob" (snd up) in
  exists d,
    fst up = Ok d /\
    Media.thumbnailUrl d <> None /\
    has_blob (blob_name "bob" ("thumb_" ++ Media.originalFileName d))
             (blob_container (snd up)) = true /\
    thumb_identifier d = "bob/photos/thumb_cat.jpg" /\
    thumb_identifier d <> blob_name "bob" ("thumb_" ++ Media.originalFileName d) /\
    fst down = Ok tt /\
    media_container (snd down) = [] /\
    blob_container (snd down) = [("bob/thumb_photos/cat.jpg", "a")].
Proof.
  eexists. split; [vm_compute; reflexivity|].
  repeat split; try discriminate; vm_compute; reflexivity.
Qed.

(** The listing of the gallery in pages of two: (b, c) then (a). *)
Lemma gallery_pages_partition :
  (1 <= 2 <= 100)%Z /\
  @None string <> Some "" /\
  get_user_media "alice" 2 2 None gallery_world
  = (Ok ([shot "a" 10], 3%Z), gallery_world) /\
  List.concat
    (map (fun p => rows_of (get_user_media "alice" (Z.of_nat p) 2 None gallery_world))
         (seq 1 2))
  = [shot "b" 30; shot "c" 20; shot "a" 10].
Proof.
  assert (S : (1 <= 2 <= 100)%Z) by lia.
  assert (N : @None string <> Some "") by discriminate.
  split; [exact S|]. split; [exact N|].
  destruct (listing_pages_partition_the_ordered_rows "alice" None 2 gallery_world S N)
    as (_ & _ & G & P).
  split; [exact (G 2%Z ltac:(lia)) | exact P].
Defined.

(** Deleting alice's photo when the content blob is gone, and when only the
    thumbnail blob is gone. *)
Lemma lost_blobs_on_delete :
  find (media_item_is "m1" "alice") (media_container content_lost_world)
  = Some alice_photo /\
  (fst (remove_media_file "m1" "alice" content_lost_world)
   = Raise (HTTPException 500 "Failed to delete media") /\
   media_container (snd (remove_media_file "m1" "alice" content_lost_world))
   = [alice_photo]) /\
  (fst (remove_media_file "m1" "alice" thumbnail_lost_world) = Ok tt /\
   In (WARNING, "Thumbnail deletion failed: BlobNotFound")
      (logs (snd (remove_media_file "m1" "alice" thumbnail_lost_world))) /\
   media_container (snd (remove_media_file "m1" "alice" thumbnail_lost_world)) = []).
Proof.
  split; [reflexivity|]. split.
  - apply (proj1 (delete_surfaces_content_failure_and_tolerates_thumbnail_failure
                    (storage := Reference.storage)
                    "m1" "alice" content_lost_world alice_photo eq_refl)
             (OtherError "BlobNotFound") [("alice/thumb_IMG_0001.jpg", "a")] eq_refl).
  - destruct (proj2 (delete_surfaces_content_failure_and_tolerates_thumbnail_failure
                       (storage := Reference.storage)
                       "m1" "alice" thumbnail_lost_world alice_photo eq_refl)
                (@nil (string * string)) (OtherError "BlobNotFound")
                (@nil (string * string)) eq_refl eq_refl eq_refl)
      as (R & L & _ & M).
    split; [exact R|]. split; [exact L | exact M].
Defined.

(** Captioning alice's photo. *)
Lemma caption_changes_description_only :
  modify_media_info "m1" caption "alice" alice_world = (Ok captioned_photo, captioned_world) /\
  Media.fileName captioned_photo = Media.fileName alice_photo /\
  Media.uploadedAt captioned_photo = Media.uploadedAt alice_photo /\
  Media.tags captioned_photo = Media.tags alice_photo /\
  Media.description captioned_photo = Some "Sunset at sea".
Proof.
  assert (E : modify_media_info "m1" caption "alice" alice_world
              = (Ok captioned_photo, captioned_world)) by reflexivity.
  split; [exact E|].
  destruct (update_touches_only_description_tags_updatedAt
              "m1" caption "alice" alice_world captioned_photo captioned_world E)
    as (old & F & _ & K & _ & T & _).
  assert (O : old = alice_photo) by (injection F as <-; reflexivity).
  rewrite O in K, T.
  split; [apply K|]. split; [apply K|]. split; [exact (T eq_refl) | reflexivity].
Defined.

(** A run in which an upload succeeds and the record is later modified, and
    a further upload from there. *)
Lemma second_upload_gets_a_new_id :
  fst (process_file_upload (jpeg "dog.jpg") None None "bob"
         (snd (run history (startup [] 3))))
  = Ok dog_record /\
  map Media.id (uploaded (fst (run history (startup [] 3)))) = [uuid_of 0] /\
  map (fun d => (Media.uploadedAt d, Media.updatedAt d))
      (media_container (snd (run history (startup [] 3)))) = [(3, 10)] /\
  ~ In (uuid_of 1) (map Media.id (uploaded (fst (run history (startup [] 3))))).
Proof.
  assert (E : fst (process_file_upload (jpeg "dog.jpg") None None "bob"
                     (snd (run history (startup [] 3)))) = Ok dog_record)
    by reflexivity.
  split; [exact E|]. split; [reflexivity|]. split; [reflexivity|].
  apply (proj1 (upload_ids_are_fresh_and_upload_time_is_kept
                  (storage := Reference.storage) [] 3 history)
           (jpeg "dog.jpg") None None "bob" dog_record E).
Defined.

(** Two failed logins: no such account, and alice's account with a wrong
    password. *)
Lemma failed_logins_look_alike :
  (forall u, In u (users_container members_world) -> User.email u <> cred_email stranger) /\
  (exists u, In u (users_container members_world) /\ User.email u = cred_email wrong_password) /\
  fst (authenticate_user stranger members_world)
  = fst (authenticate_user wrong_password members_world) /\
  fst (authenticate_user wrong_password members_world)
  = Raise (HTTPException 401 "Invalid email or password").
Proof.
  assert (U : forall u, In u (users_container members_world) ->
                        User.email u <> cred_email stranger).
  { intros u [<- | []]. discriminate. }
  assert (K : exists u, In u (users_container members_world) /\
                        User.email u = cred_email wrong_password).
  { exists alice_account. split; [left|]; reflexivity. }
  assert (V : forall u, In u (users_container members_world) ->
                        User.email u = cred_email wrong_password ->
                        verify_password (cred_password wrong_password)
                                        (User.hashed_password u) = false).
  { intros u [<- | []] _. reflexivity. }
  split; [exact U|]. split; [exact K|].
  destruct (login_failures_are_indistinguishable stranger wrong_password
              members_world members_world U K V) as (S & R).
  split; [exact S | rewrite <- S; exact R].
Defined.

(** Page 2 of alice's one-document listing and of a one-match search. *)
Lemma second_page_of_one_document :
  (1 <= 2)%Z /\ (1 <= 20)%Z /\
  get_user_media "alice" 2 20 None alice_world = (Ok ([], 1%Z), alice_world) /\
  search_media "alice" "img" 2 20 alice_world = (Ok ([], 1%Z), alice_world).
Proof.
  assert (P : (1 <= 2)%Z) by lia.
  assert (S : (1 <= 20)%Z) by lia.
  split; [exact P|]. split; [exact S|].
  destruct (page_past_the_end_is_empty_with_total "alice" None "img" 2 20 alice_world P S)
    as (L & F).
  split; [apply L | apply F]; vm_compute; discriminate.
Defined.

(** * The endpoint properties on the reference deployment *)

(** Registering alice's email a second time. *)
Lemma alice_cannot_register_twice :
  (exists u, In u (users_container members_world) /\ User.email u = reg_email alice_again) /\
  fst (create_user_account alice_again members_world)
  = Raise (HTTPException 400 "User with this email already exists") /\
  users_container (snd (create_user_account alice_again members_world)) = [alice_account].
Proof.
  assert (H : exists u, In u (users_container members_world) /\
                        User.email u = reg_email alice_again).
  { exists alice_account. split; [left|]; reflexivity. }
  split; [exact H|].
  destruct (duplicate_email_is_refused_without_a_write alice_again members_world H)
    as (R & U & _).
  split; [exact R | exact U].
Defined.

(** Bob registers and logs in. *)
Lemma bob_registers_and_logs_in :
  exists tok,
    fst (create_user_account bob_registration members_world) = Ok tok /\
    fst (authenticate_user (credentials_of bob_registration)
           (snd (create_user_account bob_registration members_world))) = Ok tok /\
    profile_id (user tok) = uuid_of 1 /\
    profile_email (user tok) = "bob@example.com".
Proof.
  apply (registered_user_can_log_in bob_registration members_world).
  - intros u [<- | []]. discriminate.
  - intros u [<- | []]. discriminate.
  - reflexivity.
Defined.

(** A duplicate registration, a new one and a login leave two accounts with
    two emails and two ids. *)
Lemma two_members_two_emails :
  accounts_distinct members_world /\
  map User.email
    (users_container
       (snd (run [Register alice_again; Register bob_registration; Login right_password]
                 members_world)))
  = ["alice@example.com"; "bob@example.com"] /\
  accounts_distinct
    (snd (run [Register alice_again; Register bob_registration; Login right_password]
              members_world)).
Proof.
  assert (A : accounts_distinct members_world).
  { split; simpl; (constructor; [intros [] | constructor]). }
  split; [exact A|]. split; [reflexivity|].
  apply (accounts_stay_distinct
           [Register alice_again; Register bob_registration; Login right_password]
           members_world A).
Defined.

(** Alice logs in with her password. *)
Lemma alice_logs_in :
  fst (authenticate_user right_password members_world) = Ok alice_token /\
  exists account,
    In account (users_container members_world) /\
    User.email account = "alice@example.com" /\
    verify_password "correct horse" (User.hashed_password account) = true.
Proof.
  assert (E : fst (authenticate_user right_password members_world) = Ok alice_token)
    by reflexivity.
  split; [exact E|].
  destruct (login_succeeds_only_with_a_verified_password right_password members_world
              alice_token E) as (a & I & M & V & _).
  exists a. split; [exact I|]. split; [exact M | exact V].
Defined.

(** A text file is refused and nothing happens. *)
Lemma text_file_is_refused :
  validate_file_type notes_txt = Raise (HTTPException 400 "Unsupported file type") /\
  process_file_upload notes_txt None None "bob" alice_world
  = (Raise (HTTPException 400 "Unsupported file type"), alice_world).
Proof.
  assert (T : validate_file_type notes_txt
              = Raise (HTTPException 400 "Unsupported file type")) by reflexivity.
  split; [exact T|].
  apply (upload_refused_by_validation_writes_nothing notes_txt None None "bob"
           alice_world 400%Z "Unsupported file type" (or_introl T)).
Defined.

(** An upload to a full blob container. *)
Lemma full_container_refuses_the_upload :
  fst (process_file_upload (storage := capped_storage)
         (jpeg "cat.jpg") None None "bob" capped_full)
  = Raise (HTTPException 500 "Failed to upload media: ContainerFull") /\
  media_container (snd (process_file_upload (storage := capped_storage)
                          (jpeg "cat.jpg") None None "bob" capped_full)) = [] /\
  uuid_calls (snd (process_file_upload (storage := capped_storage)
                     (jpeg "cat.jpg") None None "bob" capped_full)) = 0.
Proof.
  assert (T : validate_file_type (jpeg "cat.jpg") = Ok "image") by reflexivity.
  assert (S : validate_file_size (jpeg "cat.jpg") = Ok 3%Z) by reflexivity.
  assert (P : fst (parse_tags None capped_full) = Ok None) by reflexivity.
  assert (U0 : upload_file (Storage := capped_storage) "abc" "bob" "cat.jpg" "image/jpeg"
                 (blob_container capped_full)
               = (Raise (OtherError "ContainerFull"), [("carol/old.jpg", "zzz")]))
    by reflexivity.
  destruct (upload_without_content_blob_leaves_no_record (storage := capped_storage)
              (jpeg "cat.jpg") None None "bob" capped_full "image" 3%Z None
              (OtherError "ContainerFull") [("carol/old.jpg", "zzz")]
              T S P U0) as (R & _ & M & _ & U).
  split; [exact R|]. split; [exact M | exact U].
Defined.

(** Bob's upload of cat.jpg to alice's world, fetched back. *)
Lemma cat_is_fetched_back :
  process_file_upload (jpeg "cat.jpg") None None "bob" alice_world = (Ok cat_record, cat_world) /\
  fetch_media_details (uuid_of 1) "bob" cat_world = (Ok cat_record, cat_world) /\
  Media.originalFileName cat_record = "cat.jpg" /\
  validate_file_size (jpeg "cat.jpg") = Ok (Media.fileSize cat_record).
Proof.
  assert (E : process_file_upload (jpeg "cat.jpg") None None "bob" alice_world
              = (Ok cat_record, cat_world)) by reflexivity.
  split; [exact E|].
  destruct (uploaded_record_is_fetched_back (jpeg "cat.jpg") None None "bob"
              alice_world cat_record cat_world E) as (F & _ & N & _ & _ & _ & S).
  split; [exact F|]. split; [exact N | exact S].
Defined.

(** The record of that upload has a thumbnail and is an image. *)
Lemma cat_has_a_thumbnail :
  process_file_upload (jpeg "cat.jpg") None None "bob" alice_world = (Ok cat_record, cat_world) /\
  Media.thumbnailUrl cat_record <> None /\
  Media.mediaType cat_record = "image".
Proof.
  assert (E : process_file_upload (jpeg "cat.jpg") None None "bob" alice_world
              = (Ok cat_record, cat_world)) by reflexivity.
  assert (N : Media.thumbnailUrl cat_record <> None) by discriminate.
  split; [exact E|]. split; [exact N|].
  exact (thumbnail_only_for_images (jpeg "cat.jpg") None None "bob" alice_world
           cat_record cat_world E N).
Defined.

(** An upload to the capped container: the content fits, the thumbnail does
    not. *)
Lemma thumbnail_does_not_fit :
  fst (process_file_upload (storage := capped_storage)
         (jpeg "cat.jpg") None None "bob" capped_empty) = Ok capped_record /\
  Media.thumbnailUrl capped_record = None /\
  In (WARNING, "Thumbnail creation failed: ContainerFull")
     (logs (snd (process_file_upload (storage := capped_storage)
                   (jpeg "cat.jpg") None None "bob" capped_empty))).
Proof.
  assert (T : validate_file_type (jpeg "cat.jpg") = Ok "image") by reflexivity.
  assert (S : validate_file_size (jpeg "cat.jpg") = Ok 3%Z) by reflexivity.
  assert (P : fst (parse_tags None capped_empty) = Ok None) by reflexivity.
  assert (U1 : upload_file (Storage := capped_storage) "abc" "bob" "cat.jpg" "image/jpeg"
                 (blob_container capped_empty)
               = (Ok ("bob/cat.jpg", "https://blobs.example/bob/cat.jpg"),
                  [("bob/cat.jpg", "abc")])) by reflexivity.
  assert (G : generate_thumbnail "abc" = Some "a") by reflexivity.
  assert (U2 : upload_file (Storage := capped_storage) "a" "bob" "thumb_cat.jpg"
                 "image/jpeg" [("bob/cat.jpg", "abc")]
               = (Raise (OtherError "ContainerFull"), [("bob/cat.jpg", "abc")]))
    by reflexivity.
  destruct (failed_thumbnail_upload_is_tolerated (storage := capped_storage)
              (jpeg "cat.jpg") None None "bob" capped_empty 3%Z None
              ("bob/cat.jpg", "https://blobs.example/bob/cat.jpg")
              [("bob/cat.jpg", "abc")] "a"%char "" (OtherError "ContainerFull")
              [("bob/cat.jpg", "abc")]
              T S P U1 G U2 eq_refl eq_refl)
    as (R & _ & L).
  split; [exact R|]. split; [reflexivity | exact L].
Defined.

(** An upload with a 501-character description. *)
Lemma long_description_upload :
  (500 < String.length long_text)%nat /\
  fst (process_file_upload (jpeg "cat.jpg") (Some long_text) None "bob" alice_world)
  = Raise (HTTPException 500 "Failed to upload media: validation error for ContentRecord") /\
  exists d,
    In d (media_container
            (snd (process_file_upload (jpeg "cat.jpg") (Some long_text) None "bob"
                    alice_world))) /\
    Media.id d = uuid_of 1 /\ Media.description d = Some long_text.
Proof.
  assert (L : (500 < String.length long_text)%nat) by (vm_compute; lia).
  split; [exact L|]. split; [vm_compute; reflexivity|].
  assert (T : validate_file_type (jpeg "cat.jpg") = Ok "image") by reflexivity.
  assert (S : validate_file_size (jpeg "cat.jpg") = Ok 3%Z) by reflexivity.
  assert (P : fst (parse_tags None alice_world) = Ok None) by reflexivity.
  assert (U1 : upload_file "abc" "bob" "cat.jpg" "image/jpeg" (blob_container alice_world)
               = (Ok ("bob/cat.jpg", "https://blobs.example/bob/cat.jpg"),
                  ("bob/cat.jpg", "abc") :: blob_container alice_world)) by reflexivity.
  assert (X : existsb (media_item_is (uuid_of (uuid_calls alice_world)) "bob")
                (media_container alice_world) = false) by reflexivity.
  destruct (oversized_description_is_stored_then_refused (jpeg "cat.jpg") long_text
              None "bob" alice_world "image" 3%Z None
              ("bob/cat.jpg", "https://blobs.example/bob/cat.jpg")
              (("bob/cat.jpg", "abc") :: blob_container alice_world)
              T S P U1 L X) as (_ & d & I & E & _ & D).
  exists d. split; [exact I|]. split; [exact E | exact D].
Defined.

(** Bob's listing and search while his one document has the long
    description. *)
Lemma wordy_document_breaks_the_listing :
  (exists e, ContentRecord wordy_photo = Raise e) /\
  In wordy_photo (rows_of (get_user_media "bob" 1 20 None wordy_world)) /\
  fst (retrieve_media_list 1 20 None "bob" wordy_world)
  = Raise (HTTPException 500 "Failed to retrieve media list") /\
  fst (find_media_by_query "cat" 1 20 "bob" wordy_world)
  = Raise (HTTPException 500 "Failed to search media").
Proof.
  assert (V : exists e, ContentRecord wordy_photo = Raise e).
  { eexists. vm_compute. reflexivity. }
  assert (I1 : In wordy_photo (rows_of (get_user_media "bob" 1 20 None wordy_world))).
  { left. reflexivity. }
  assert (I2 : In wordy_photo (rows_of (search_media "bob" "cat" 1 20 wordy_world))).
  { left. reflexivity. }
  destruct (one_invalid_row_fails_the_page "bob" 1 20 None "cat" wordy_world
              wordy_photo V) as (L & S).
  split; [exact V|]. split; [exact I1|]. split; [exact (L I1) | exact (S I2)].
Defined.

(** Bob's listing total before and after his upload to alice's world. *)
Lemma cat_is_counted :
  process_file_upload (jpeg "cat.jpg") None None "bob" alice_world = (Ok cat_record, cat_world) /\
  fst (get_user_media "bob" 1 20 None alice_world) = Ok ([], 0%Z) /\
  exists rows, get_user_media "bob" 1 20 None cat_world = (Ok (rows, 1%Z), cat_world).
Proof.
  assert (E : process_file_upload (jpeg "cat.jpg") None None "bob" alice_world
              = (Ok cat_record, cat_world)) by reflexivity.
  split; [exact E|].
  destruct (upload_adds_one_to_the_listing_total (jpeg "cat.jpg") None None "bob"
              alice_world cat_record cat_world 1 20 E ltac:(lia) ltac:(lia))
    as (rows & rows' & total & G & G').
  assert (T : total = 0%Z).
  { assert (X : fst (get_user_media "bob" 1 20 None alice_world) = Ok ([], 0%Z))
      by reflexivity.
    rewrite G in X. injection X as _ X. exact X. }
  subst total. split; [reflexivity|].
  exists rows'. exact G'.
Defined.

(** The gallery searched for "JPG" in pages of two. *)
Lemma gallery_search_pages :
  (1 <= 2)%Z /\
  search_media "alice" "JPG" 2 2 gallery_world = (Ok ([shot "a" 10], 3%Z), gallery_world) /\
  List.concat
    (map (fun p => rows_of (search_media "alice" "JPG" (Z.of_nat p) 2 gallery_world))
         (seq 1 2))
  = [shot "b" 30; shot "c" 20; shot "a" 10].
Proof.
  assert (S : (1 <= 2)%Z) by lia.
  split; [exact S|].
  destruct (search_pages_partition_the_ordered_matches "alice" "JPG" 2 gallery_world S)
    as (_ & _ & G & P).
  split; [exact (G 2%Z ltac:(lia)) | exact P].
Defined.

(** An id alice has no document under. *)
Lemma unknown_id_changes_nothing :
  find (media_item_is "m9" "alice") (media_container alice_world) = None /\
  remove_media_file "m9" "alice" alice_world
  = (Raise (HTTPException 404 "Media not found"), alice_world) /\
  modify_media_info "m9" caption "alice" alice_world
  = (Raise (HTTPException 404 "Media not found"), alice_world).
Proof.
  assert (F : find (media_item_is "m9" "alice") (media_container alice_world) = None)
    by reflexivity.
  split; [exact F|].
  destruct (absent_id_is_not_found_and_nothing_changes "m9" "alice" caption alice_world F)
    as (_ & M & R).
  split; [exact R | exact M].
Defined.

(** Alice deletes her photo, then asks for it and deletes it again. *)
Lemma photo_is_gone_after_delete :
  fst (remove_media_file "m1" "alice" alice_world) = Ok tt /\
  fst (fetch_media_details "m1" "alice" (snd (remove_media_file "m1" "alice" alice_world)))
  = Raise (HTTPException 404 "Media not found") /\
  fst (remove_media_file "m1" "alice" (snd (remove_media_file "m1" "alice" alice_world)))
  = Raise (HTTPException 404 "Media not found").
Proof.
  assert (E : remove_media_file "m1" "alice" alice_world
              = (Ok tt, snd (remove_media_file "m1" "alice" alice_world)))
    by reflexivity.
  split; [reflexivity|].
  destruct (deleted_record_is_not_found_again "m1" "alice" alice_world _ E) as (F & R).
  rewrite F, R. split; reflexivity.
Defined.

(** Alice deletes her photo in the world she shares with bob. *)
Lemma bobs_document_survives_alices_delete :
  media_item_is "m1" "alice" wordy_photo = false /\
  fst (remove_media_file "m1" "alice" shared_world) = Ok tt /\
  media_container (snd (remove_media_file "m1" "alice" shared_world)) = [wordy_photo] /\
  In wordy_photo (media_container (snd (remove_media_file "m1" "alice" shared_world))).
Proof.
  assert (N : media_item_is "m1" "alice" wordy_photo = false) by reflexivity.
  split; [exact N|]. split; [reflexivity|]. split; [reflexivity|].
  apply (proj1 (delete_touches_only_the_addressed_record "m1" "alice" shared_world
                  wordy_photo N)).
  right. left. reflexivity.
Defined.

(** The captioned photo, fetched. *)
Lemma captioned_photo_is_fetched_back :
  modify_media_info "m1" caption "alice" alice_world = (Ok captioned_photo, captioned_world) /\
  fetch_media_details "m1" "alice" captioned_world = (Ok captioned_photo, captioned_world) /\
  Media.updatedAt captioned_photo = 20.
Proof.
  assert (E : modify_media_info "m1" caption "alice" alice_world
              = (Ok captioned_photo, captioned_world)) by reflexivity.
  split; [exact E|].
  exact (updated_record_is_fetched_back "m1" caption "alice" alice_world
           captioned_photo captioned_world E).
Defined.

(** The thumbnail name computed for alice's photo. *)
Lemma alice_thumbnail_name :
  Str.last_component "/" (Media.originalFileName alice_photo) = "IMG_0001.jpg" /\
  occurs_early "IMG_0001.jpg" "alice/" = false /\
  thumb_identifier alice_photo = "alice/thumb_IMG_0001.jpg".
Proof.
  assert (L : Str.last_component "/" (Media.originalFileName alice_photo)
              = "IMG_0001.jpg") by reflexivity.
  assert (O : occurs_early "IMG_0001.jpg" "alice/" = false) by reflexivity.
  split; [exact L|]. split; [exact O|].
  exact (thumb_identifier_prefixes_the_last_component alice_photo "alice/"
           "I"%char "MG_0001.jpg" L eq_refl O).
Defined.

(** Alice's account, looked up both ways. *)
Lemma alice_is_found_both_ways :
  accounts_distinct members_world /\
  In alice_account (users_container members_world) /\
  get_user_by_email "alice@example.com" members_world = (Ok (Some alice_account), members_world) /\
  get_user_by_id "u1" members_world = (Ok (Some alice_account), members_world).
Proof.
  assert (A : accounts_distinct members_world).
  { split; simpl; (constructor; [intros [] | constructor]). }
  assert (I : In alice_account (users_container members_world)) by (left; reflexivity).
  split; [exact A|]. split; [exact I|].
  exact (distinct_accounts_are_found_by_email_and_by_id members_world alice_account A I).
Defined.

(** Touching bob's long-winded document without changing its description. *)
Lemma wordy_update_is_written_then_refused :
  find (media_item_is "m7" "bob") (media_container wordy_world) = Some wordy_photo /\
  (500 < String.length long_text)%nat /\
  (exists detail,
      fst (modify_media_info "m7" {| mod_tags := Some ["cats"]; mod_description := None |}
             "bob" wordy_world) = Raise (HTTPException 404 detail)) /\
  exists stored,
    find (media_item_is "m7" "bob")
         (media_container
            (snd (modify_media_info "m7"
                    {| mod_tags := Some ["cats"]; mod_description := None |}
                    "bob" wordy_world))) = Some stored /\
    Media.updatedAt stored = 9 /\
    Media.uploadedAt wordy_photo = 4.
Proof.
  assert (F : find (media_item_is "m7" "bob") (media_container wordy_world)
              = Some wordy_photo) by reflexivity.
  assert (L : (500 < String.length long_text)%nat) by (vm_compute; lia).
  split; [exact F|]. split; [exact L|].
  destruct (update_of_an_invalid_record_is_written_then_refused "m7"
              {| mod_tags := Some ["cats"]; mod_description := None |} "bob"
              wordy_world wordy_photo long_text F eq_refl L eq_refl)
    as (R & stored & S & U & _).
  split; [exact R|]. exists stored. split; [exact S|]. split; [exact U | reflexivity].
Defined.

(** Page 2 of the gallery holds a document of alice's. *)
Lemma gallery_rows_are_alices :
  In (shot "a" 10) (rows_of (get_user_media "alice" 2 2 None gallery_world)) /\
  Media.userId (shot "a" 10) = "alice" /\
  In (shot "a" 10) (media_container gallery_world).
Proof.
  assert (I : In (shot "a" 10) (rows_of (get_user_media "alice" 2 2 None gallery_world)))
    by (left; reflexivity).
  split; [exact I|].
  exact (proj1 (listed_rows_belong_to_the_caller "alice" 2 2 gallery_world (shot "a" 10))
           None I).
Defined.

(** Alice's listing as the route answers it. *)
Lemma alice_collection :
  retrieve_media_list 1 20 None "alice" alice_world
  = (Ok {| Collection.pageSize := 20; Collection.items := [alice_photo];
           Collection.page := 1; Collection.total := 1 |}, alice_world) /\
  get_user_media "alice" 1 20 None alice_world = (Ok ([alice_photo], 1%Z), alice_world).
Proof.
  assert (E : retrieve_media_list 1 20 None "alice" alice_world
              = (Ok {| Collection.pageSize := 20; Collection.items := [alice_photo];
                       Collection.page := 1; Collection.total := 1 |}, alice_world))
    by reflexivity.
  split; [exact E|].
  exact (proj1 (proj1 (collection_is_the_repository_result "" 1 20 None "alice"
                         alice_world _ alice_world) E)).
Defined.
